(** * Paper-trading ledger and risk sizing of [crypto_trading_agent]

    A shallow embedding of [simulation.py] (class [TradingSimulator], the
    module-level helpers working on [GLOBAL_SIMULATOR]) and of the boundary
    function [sim_place_order] of [agent.py].

    Modelling conventions.
    - Python [float] values are modelled as rationals ([Q]); [float(x)] is the
      identity, comparisons are the rational ones and numeric results are
      compared with [==] ([Qeq]).  Rounding, infinities and NaN are outside
      the model.
    - Division raises [ZeroDivisionError] on a zero divisor, as in Python.
    - The simulator is a mutable object: every method is a computation in a
      state-and-exception monad over the [World].  An exception keeps the
      mutations made before it was raised.
    - [uuid.uuid4()] and [datetime.utcnow()] are external: they are two
      oracles read through call counters kept in the [World].
    - [dict] is insertion ordered: [positions] is an association list;
      [last_prices], whose order is never observed, is a [gmap]. *)

From Stdlib Require Import Ascii String QArith Qabs Lqa.
From stdpp Require Import base option list gmap strings pretty.

Local Open Scope Q_scope.

(** ** Numbers *)

(** [float(x)] on a numeric argument. *)
Definition float (x : Q) : Q := x.

(** [x <= y] and [x < y] as Python evaluates them. *)
Definition Qleb (x y : Q) : bool := Qle_bool x y.
Definition Qltb (x y : Q) : bool := negb (Qle_bool y x).

(** [x or 0.0] for an optional float: [None] and [0.0] are both falsy. *)
Definition or_zero (x : option Q) : Q :=
  match x with
  | Some v => if Qeq_bool v 0 then 0 else v
  | None => 0
  end.

(** ** Strings *)

(** [str.lower()] on ASCII text. *)
Definition lower_ascii (c : ascii) : ascii :=
  let n := nat_of_ascii c in
  if ((65 <=? n)%nat && (n <=? 90)%nat)%bool then ascii_of_nat (n + 32) else c.

Fixpoint lower (s : string) : string :=
  match s with
  | EmptyString => EmptyString
  | String c s' => String (lower_ascii c) (lower s')
  end.

(** ** Exceptions *)

(** The messages of the [ValueError]s raised by the simulator, with the
    values interpolated in them. *)
Inductive value_error : Type :=
  | BadSide
  | NonPositiveNotional
  | InsufficientCash (requested available : Q)
  | NoLastPrice (market : string).

Inductive exn : Type :=
  | ValueError (msg : value_error)
  | KeyError (pos_id : string)
  | ZeroDivisionError.

Inductive outcome (A : Type) : Type :=
  | Return (a : A)
  | Raise (e : exn).
Arguments Return {A} a.
Arguments Raise {A} e.

(** ** Data model *)

Module SimPosition.
Record t : Type := mk {
  id : string;
  pair : string;
  side : string;
  entry_price : Q;
  notional : Q;
  stop_loss : option Q;
  take_profit : option Q;
  opened_at : Z;
  status : string;
  closed_at : option Z;
  close_price : option Q;
  pnl : option Q
}.

(** The four assignments made by [close_position]. *)
Definition close (p : t) (now : Z) (price pnl_ : Q) : t :=
  mk (id p) (pair p) (side p) (entry_price p) (notional p) (stop_loss p)
     (take_profit p) (opened_at p) "closed" (Some now) (Some price)
     (Some pnl_).
End SimPosition.

(** An insertion-ordered [dict] with string keys. *)
Module PyDict.
Section dict.
Context {V : Type}.

Definition t : Type := list (string * V).

(** [d.get(k)]; [k in d] when it is not [None], and then [d[k]]. *)
Fixpoint get (k : string) (d : t) : option V :=
  match d with
  | [] => None
  | (k', v) :: d' => if decide (k = k') then Some v else get k d'
  end.

(** [d[k] = v]: replaces in place, or appends a new key. *)
Fixpoint set (k : string) (v : V) (d : t) : t :=
  match d with
  | [] => [(k, v)]
  | (k', v') :: d' =>
      if decide (k = k') then (k, v) :: d' else (k', v') :: set k v d'
  end.

(** [del d[k]], for a key [k] of [d]. *)
Fixpoint del (k : string) (d : t) : t :=
  match d with
  | [] => []
  | (k', v') :: d' =>
      if decide (k = k') then d' else (k', v') :: del k d'
  end.

Definition keys (d : t) : list string := map fst d.
Definition values (d : t) : list V := map snd d.

(** The representation invariant of a dictionary. *)
Definition ok (d : t) : Prop := NoDup (keys d).
End dict.
Arguments t : clear implicits.
End PyDict.

Record TradingSimulator : Type := mkSim {
  initial_balance : Q;
  cash : Q;
  positions : PyDict.t SimPosition.t;
  trade_history : list SimPosition.t;
  last_prices : gmap string Q
}.

(** [TradingSimulator.__init__] *)
Definition init (balance : Q) : TradingSimulator :=
  mkSim (float balance) (float balance) [] [] ∅.

(** The program state: [GLOBAL_SIMULATOR] and the number of values drawn so
    far from the clock and from the identifier generator. *)
Record World : Type := mkWorld {
  sim : TradingSimulator;
  now_calls : nat;
  uuid_calls : nat
}.

Definition boot (balance : Q) : World := mkWorld (init balance) 0 0.

(** ** The monad of methods *)

Definition M (A : Type) : Type := World -> outcome A * World.

Definition ret {A} (a : A) : M A := fun w => (Return a, w).

Definition bind {A B} (m : M A) (k : A -> M B) : M B :=
  fun w =>
    match m w with
    | (Return a, w') => k a w'
    | (Raise e, w') => (Raise e, w')
    end.

#[export] Instance M_ret : MRet M := @ret.
#[export] Instance M_bind : MBind M := fun A B k m => bind m k.

Definition raise {A} (e : exn) : M A := fun w => (Raise e, w).

Definition self : M TradingSimulator := fun w => (Return (sim w), w).

Definition assign (f : TradingSimulator -> TradingSimulator) : M unit :=
  fun w => (Return tt, mkWorld (f (sim w)) (now_calls w) (uuid_calls w)).

(** [try: body except Exception as e: handler(e)] *)
Definition try_except {A} (body : M A) (handler : exn -> M A) : M A :=
  fun w =>
    match body w with
    | (Return a, w') => (Return a, w')
    | (Raise e, w') => handler e w'
    end.

(** Attribute assignments on [self]. *)
Definition set_initial_balance (x : Q) (s : TradingSimulator) :=
  mkSim x (cash s) (positions s) (trade_history s) (last_prices s).
Definition set_cash (x : Q) (s : TradingSimulator) :=
  mkSim (initial_balance s) x (positions s) (trade_history s) (last_prices s).
Definition set_positions (d : PyDict.t SimPosition.t) (s : TradingSimulator) :=
  mkSim (initial_balance s) (cash s) d (trade_history s) (last_prices s).
Definition set_trade_history (h : list SimPosition.t) (s : TradingSimulator) :=
  mkSim (initial_balance s) (cash s) (positions s) h (last_prices s).
Definition set_last_prices (m : gmap string Q) (s : TradingSimulator) :=
  mkSim (initial_balance s) (cash s) (positions s) (trade_history s) m.

(** [a / b] *)
Definition div (a b : Q) : M Q :=
  if Qeq_bool b 0 then raise ZeroDivisionError else ret (a / b).

(** ** Results and pure helpers *)

(** [sum(xs)] on floats: the additions are made from the left, from [0]. *)
Definition sum (xs : list Q) : Q := fold_left Qplus xs 0.

(** [sum(1 for t in trades if test(t))] *)
Definition count_if {A} (test : A -> bool) (trades : list A) : nat :=
  fold_left (fun n t => if test t then (n + 1)%nat else n) trades 0%nat.

(** [l[start:]] for any integer [start]. *)
Definition slice_from {A} (start : Z) (l : list A) : list A :=
  let len := Z.of_nat (length l) in
  let start :=
    if (start <? 0)%Z then Z.max (start + len) 0 else Z.min start len in
  drop (Z.to_nat start) l.

(** The dictionary returned by [portfolio_state]. *)
Record portfolio : Type := mkPortfolio {
  pf_initial_balance : Q;
  pf_cash : Q;
  pf_equity : Q;
  pf_open_positions : list SimPosition.t;
  pf_realized_pnl : Q;
  pf_open_count : nat;
  pf_trade_count : nat
}.

(** The dictionary returned by [trade_history_summary]. *)
Record summary : Type := mkSummary {
  total_trades : nat;
  wins : nat;
  losses : nat;
  win_rate : Q;
  total_pnl : Q;
  trades : list SimPosition.t
}.

Definition of_int (n : nat) : Q := inject_Z (Z.of_nat n).

(** The [error_message] of a tool response, with the values interpolated
    in it; [Str e] is [str(e)] for a caught exception [e]. *)
Inductive error_message : Type :=
  | EquityNonPositive
  | NoLastPriceFor (market : string)
  | RiskPercentNonPositive
  | StopDistanceZero
  | NotionalTooLarge (requested max_allowed : Q)
  | Str (e : exn).

(** A tool response: [{"status": "success", ...}] or
    [{"status": "error", "error_message": ...}]. *)
Inductive response (A : Type) : Type :=
  | Success (payload : A)
  | Error (msg : error_message).
Arguments Success {A} payload.
Arguments Error {A} msg.

(** The success payload of [suggest_notional_from_risk]. *)
Record sizing : Type := mkSizing {
  sz_notional : Q;
  sz_equity : Q;
  sz_last_price : Q;
  sz_risk_amount : Q
}.

(** [agent.MAX_NOTIONAL_FRACTION] *)
Definition MAX_NOTIONAL_FRACTION : Q := 20 # 100.

(** The [position] entry of a successful [sim_place_order] response. *)
Record receipt : Type := mkReceipt {
  rc_id : string;
  rc_pair : string;
  rc_side : string;
  rc_entry_price : Q;
  rc_notional : Q;
  rc_stop_loss : option Q;
  rc_take_profit : option Q;
  rc_opened_at : Z;
  rc_status : string
}.

(** The two triggers evaluated by [_check_and_maybe_close]. *)
Definition hit_sl (pos : SimPosition.t) (price : Q) : bool :=
  match SimPosition.stop_loss pos with
  | None => false
  | Some sl =>
      (bool_decide (SimPosition.side pos = "long") && Qleb price sl)
      || (bool_decide (SimPosition.side pos = "short") && Qleb sl price)
  end.

Definition hit_tp (pos : SimPosition.t) (price : Q) : bool :=
  match SimPosition.take_profit pos with
  | None => false
  | Some tp =>
      (bool_decide (SimPosition.side pos = "long") && Qleb tp price)
      || (bool_decide (SimPosition.side pos = "short") && Qleb price tp)
  end.

Section Simulator.

(** The [n]-th value returned by [datetime.datetime.utcnow()] and by
    [str(uuid.uuid4())]. *)
Variable utcnow : nat -> Z.
Variable uuid4 : nat -> string.

(** [TradingSimulator._now] *)
Definition _now : M Z :=
  fun w => (Return (utcnow (now_calls w)),
            mkWorld (sim w) (S (now_calls w)) (uuid_calls w)).

(** [str(uuid.uuid4())] *)
Definition new_uuid : M string :=
  fun w => (Return (uuid4 (uuid_calls w)),
            mkWorld (sim w) (now_calls w) (S (uuid_calls w))).

(** [TradingSimulator._calc_pnl_price] *)
Definition _calc_pnl_price (pos : SimPosition.t) (price : Q) : M Q :=
  if decide (SimPosition.side pos = "long") then
    r ← div price (SimPosition.entry_price pos);
    mret (SimPosition.notional pos * (r - 1))
  else
    r ← div (SimPosition.entry_price pos) price;
    mret (SimPosition.notional pos * (r - 1)).

(** [TradingSimulator.close_position] *)
Definition close_position (pos_id : string) (price : option Q)
  : M SimPosition.t :=
  s ← self;
  match PyDict.get pos_id (positions s) with
  | None => raise (KeyError pos_id)
  | Some pos =>
      if negb (bool_decide (SimPosition.status pos = "open")) then mret pos
      else
        price ← match price with
                | Some p => mret p
                | None =>
                    match last_prices s !! SimPosition.pair pos with
                    | Some p => mret p
                    | None =>
                        raise (ValueError (NoLastPrice (SimPosition.pair pos)))
                    end
                end;
        let price := float price in
        pnl ← _calc_pnl_price pos price;
        assign (fun s =>
          set_cash (cash s + (SimPosition.notional pos + pnl)) s);;
        now ← _now;
        let pos := SimPosition.close pos now price pnl in
        assign (fun s => set_trade_history (trade_history s ++ [pos]) s);;
        assign (fun s => set_positions (PyDict.del pos_id (positions s)) s);;
        mret pos
  end.

(** [TradingSimulator._equity] *)
Fixpoint _equity_loop (values : list SimPosition.t) (unrealized : Q) : M Q :=
  match values with
  | [] => mret unrealized
  | pos :: values =>
      s ← self;
      match last_prices s !! SimPosition.pair pos with
      | None => _equity_loop values unrealized
      | Some price =>
          if negb (bool_decide (SimPosition.status pos = "open")) then
            _equity_loop values unrealized
          else
            pnl ← _calc_pnl_price pos price;
            _equity_loop values (unrealized + pnl)
      end
  end.

Definition _equity : M Q :=
  s ← self;
  unrealized ← _equity_loop (PyDict.values (positions s)) 0;
  s ← self;
  mret (cash s + unrealized).

(** [TradingSimulator.reset] *)
Definition reset (initial_balance_ : option Q) : M unit :=
  match initial_balance_ with
  | Some b => assign (set_initial_balance (float b))
  | None => mret tt
  end;;
  assign (fun s => set_cash (float (initial_balance s)) s);;
  assign (set_positions []);;
  assign (set_trade_history []);;
  assign (set_last_prices ∅).

(** [TradingSimulator._check_and_maybe_close] *)
Definition _check_and_maybe_close (pos : SimPosition.t) (price : Q) : M unit :=
  if hit_sl pos price || hit_tp pos price then
    close_position (SimPosition.id pos) (Some price);; mret tt
  else mret tt.

(** The [status] attribute, as it is now, of a position object that was
    stored under [key] when the loop of [update_price] took its snapshot.
    The object is shared with [self.positions]: it is still stored there
    unless [close_position] has marked it closed and deleted it. *)
Definition status_now (key : string) : M string :=
  s ← self;
  match PyDict.get key (positions s) with
  | Some pos => mret (SimPosition.status pos)
  | None => mret "closed"
  end.

(** [TradingSimulator.update_price]: the loop over
    [list(self.positions.values())]. *)
Fixpoint update_price_loop (snapshot : PyDict.t SimPosition.t)
    (pair_ : string) (price : Q) : M unit :=
  match snapshot with
  | [] => mret tt
  | (key, pos) :: snapshot =>
      st ← status_now key;
      if negb (bool_decide (SimPosition.pair pos = pair_))
         || negb (bool_decide (st = "open"))
      then update_price_loop snapshot pair_ price
      else
        _check_and_maybe_close pos price;;
        update_price_loop snapshot pair_ price
  end.

Definition update_price (pair_ : string) (price : Q) : M unit :=
  assign (fun s =>
    set_last_prices (<[pair_ := float price]> (last_prices s)) s);;
  s ← self;
  update_price_loop (positions s) pair_ price.

(** [TradingSimulator.place_order] *)
Definition place_order (pair_ side_ : string) (notional_ : Q)
    (entry_price_ stop_loss_ take_profit_ : option Q) : M SimPosition.t :=
  let side_ := lower side_ in
  if negb (bool_decide (side_ = "long") || bool_decide (side_ = "short")) then
    raise (ValueError BadSide)
  else
    let notional_ := float notional_ in
    if Qleb notional_ 0 then raise (ValueError NonPositiveNotional)
    else
      s ← self;
      if Qltb (cash s) notional_ then
        raise (ValueError (InsufficientCash notional_ (cash s)))
      else
        entry_price_ ← match entry_price_ with
                       | Some p => mret p
                       | None =>
                           match last_prices s !! pair_ with
                           | Some p => mret p
                           | None => raise (ValueError (NoLastPrice pair_))
                           end
                       end;
        assign (fun s => set_cash (cash s - notional_) s);;
        id_ ← new_uuid;
        now ← _now;
        let pos :=
          SimPosition.mk id_ pair_ side_ (float entry_price_) notional_
            stop_loss_ take_profit_ now "open" None None None in
        assign (fun s =>
          set_positions (PyDict.set (SimPosition.id pos) pos (positions s)) s);;
        mret pos.

(** ** Summaries *)

(** [TradingSimulator.portfolio_state] *)
Definition portfolio_state : M portfolio :=
  s ← self;
  let open_positions := PyDict.values (positions s) in
  let realized_pnl :=
    sum (map (fun p => or_zero (SimPosition.pnl p)) (trade_history s)) in
  equity ← _equity;
  mret (mkPortfolio (initial_balance s) (cash s) equity open_positions
          realized_pnl (length open_positions) (length (trade_history s))).

(** [TradingSimulator.trade_history_summary] *)
Definition trade_history_summary (limit : Z) : M summary :=
  s ← self;
  let trades := slice_from (- limit) (trade_history s) in
  let wins :=
    count_if (fun t => Qltb 0 (or_zero (SimPosition.pnl t))) trades in
  let losses :=
    count_if (fun t => Qltb (or_zero (SimPosition.pnl t)) 0) trades in
  let total := length trades in
  win_rate ← (if (0 <? total)%nat then div (of_int wins) (of_int total)
              else mret 0);
  let total_pnl := sum (map (fun t => or_zero (SimPosition.pnl t)) trades) in
  mret (mkSummary total wins losses win_rate total_pnl trades).

(** ** Tools working on [GLOBAL_SIMULATOR] *)

(** [suggest_notional_from_risk] *)
Definition suggest_notional_from_risk (risk_percent : Q) (pair_ : string)
    (stop_loss_ : Q) : M (response sizing) :=
  try_except
    (pf ← portfolio_state;
     let equity := float (pf_equity pf) in
     if Qleb equity 0 then mret (Error EquityNonPositive)
     else
       s ← self;
       match last_prices s !! pair_ with
       | None => mret (Error (NoLastPriceFor pair_))
       | Some last_price =>
           risk_fraction ← div (float risk_percent) 100;
           if Qleb risk_fraction 0 then mret (Error RiskPercentNonPositive)
           else
             r ← div stop_loss_ last_price;
             let stop_dist := Qabs (1 - r) in
             if Qleb stop_dist 0 then mret (Error StopDistanceZero)
             else
               let risk_amount := equity * risk_fraction in
               notional_ ← div risk_amount stop_dist;
               mret (Success (mkSizing notional_ equity last_price risk_amount))
       end)
    (fun e => mret (Error (Str e))).

(** [agent.sim_place_order] *)
Definition sim_place_order (pair_ side_ : string) (notional_ : Q)
    (entry_price_ stop_loss_ take_profit_ : option Q) : M (response receipt) :=
  try_except
    (pf ← portfolio_state;
     let equity := float (pf_equity pf) in
     let max_notional := equity * MAX_NOTIONAL_FRACTION in
     if Qltb max_notional notional_ then
       mret (Error (NotionalTooLarge notional_ max_notional))
     else
       pos ← place_order pair_ side_ notional_ entry_price_ stop_loss_
               take_profit_;
       mret (Success
         (mkReceipt (SimPosition.id pos) (SimPosition.pair pos)
            (SimPosition.side pos) (SimPosition.entry_price pos)
            (SimPosition.notional pos) (SimPosition.stop_loss pos)
            (SimPosition.take_profit pos) (SimPosition.opened_at pos)
            (SimPosition.status pos))))
    (fun e => mret (Error (Str e))).

End Simulator.

(** * Specification side *)

(** The realized pnl of a trade, [0] while it has none. *)
Definition realized (t : SimPosition.t) : Q :=
  match SimPosition.pnl t with
  | Some v => v
  | None => 0
  end.

(** The sum of a list of rationals, from the right. *)
Definition total (xs : list Q) : Q := fold_right Qplus 0 xs.

(** Notional committed to the open positions. *)
Definition open_notional (s : TradingSimulator) : Q :=
  total (map SimPosition.notional (PyDict.values (positions s))).

(** Pnl realized by the closed positions of the history. *)
Definition realized_pnl (s : TradingSimulator) : Q :=
  total (map realized (trade_history s)).

(** Cash conservation. *)
Definition conserved (s : TradingSimulator) : Prop :=
  cash s + open_notional s == initial_balance s + realized_pnl s.

(** The pnl formula of the specification, by side. *)
Definition pnl_formula (pos : SimPosition.t) (close_price : Q) : Q :=
  if decide (SimPosition.side pos = "long") then
    SimPosition.notional pos * (close_price / SimPosition.entry_price pos - 1)
  else
    SimPosition.notional pos * (SimPosition.entry_price pos / close_price - 1).




(** The operations a caller can apply to the account. *)
Inductive command : Type :=
  | PlaceOrder (pair_ side_ : string) (notional_ : Q)
      (entry_price_ stop_loss_ take_profit_ : option Q)
  | ClosePosition (pos_id : string) (price : option Q)
  | UpdatePrice (pair_ : string) (price : Q)
  | Reset (initial_balance_ : option Q).

(** The state left by [close_position] when it closes the open position
    [pos], stored under [pos_id], at the price [cp]. *)
Definition closed_at_price (utcnow : nat -> Z) (w : World)
    (pos : SimPosition.t) (cp : Q) : SimPosition.t :=
  SimPosition.close pos (utcnow (now_calls w)) cp (pnl_formula pos cp).

Definition after_close (utcnow : nat -> Z) (w : World) (pos_id : string)
    (pos : SimPosition.t) (cp : Q) : World :=
  let s := sim w in
  mkWorld
    (mkSim (initial_balance s)
       (cash s + (SimPosition.notional pos + pnl_formula pos cp))
       (PyDict.del pos_id (positions s))
       (trade_history s ++ [closed_at_price utcnow w pos cp])
       (last_prices s))
    (S (now_calls w)) (uuid_calls w).

(** The divisor of the pnl formula is not zero. *)
Definition pnl_defined (pos : SimPosition.t) (cp : Q) : Prop :=
  if decide (SimPosition.side pos = "long") then
    ~ SimPosition.entry_price pos == 0
  else ~ cp == 0.

(** The exit price [close_position] uses: the one given, else the last
    price of the position's market. *)
Definition exit_price (w : World) (pos : SimPosition.t) (price : option Q)
  : option Q :=
  match price with
  | Some p => Some p
  | None => last_prices (sim w) !! SimPosition.pair pos
  end.

(** [update_price] closes the position [pos] at [price]. *)
Definition fires (pair_ : string) (price : Q) (pos : SimPosition.t) : bool :=
  bool_decide (SimPosition.pair pos = pair_)
  && (hit_sl pos price || hit_tp pos price).

(** The open positions left by [update_price], and the positions it appends
    to the history when the clock has been read [n] times. *)
Fixpoint survivors (pair_ : string) (price : Q)
    (snapshot : PyDict.t SimPosition.t) : PyDict.t SimPosition.t :=
  match snapshot with
  | [] => []
  | (k, pos) :: snapshot =>
      if fires pair_ price pos then survivors pair_ price snapshot
      else (k, pos) :: survivors pair_ price snapshot
  end.

Fixpoint closed_by (utcnow : nat -> Z) (pair_ : string) (price : Q)
    (snapshot : PyDict.t SimPosition.t) (n : nat) : list SimPosition.t :=
  match snapshot with
  | [] => []
  | (k, pos) :: snapshot =>
      if fires pair_ price pos then
        SimPosition.close pos (utcnow n) price (pnl_formula pos price)
        :: closed_by utcnow pair_ price snapshot (S n)
      else closed_by utcnow pair_ price snapshot n
  end.

(** Every open position is stored under its own identifier, is open and
    has a positive entry price. *)
Definition open_book (d : PyDict.t SimPosition.t) : Prop :=
  PyDict.ok d /\
  forall k pos, (k, pos) ∈ d ->
    SimPosition.id pos = k /\ SimPosition.status pos = "open"
    /\ 0 < SimPosition.entry_price pos.

Section Commands.

Variable utcnow : nat -> Z.
Variable uuid4 : nat -> string.

(** The state after a command, whatever its outcome. *)
Definition exec (c : command) (w : World) : World :=
  match c with
  | PlaceOrder pair_ side_ notional_ entry_price_ stop_loss_ take_profit_ =>
      snd (place_order utcnow uuid4 pair_ side_ notional_ entry_price_
             stop_loss_ take_profit_ w)
  | ClosePosition pos_id price => snd (close_position utcnow pos_id price w)
  | UpdatePrice pair_ price => snd (update_price utcnow pair_ price w)
  | Reset initial_balance_ => snd (reset initial_balance_ w)
  end.

Definition exec_all (cs : list command) (w : World) : World :=
  fold_left (fun w c => exec c w) cs w.

(** A freshly constructed or a reset account. *)
Definition pristine (w : World) : Prop :=
  (exists balance, w = boot balance) \/
  (exists w0 balance, w = snd (reset balance w0)).

(** [k] has been returned by the identifier generator. *)
Definition minted (w : World) (k : string) : Prop :=
  exists i, (i < uuid_calls w)%nat /\ k = uuid4 i.

(** The invariant of the account: cash is conserved; the stored positions
    are open, each under its own identifier; the positions of the history
    are closed and no longer stored. *)
Definition well_formed (w : World) : Prop :=
  conserved (sim w) /\
  PyDict.ok (positions (sim w)) /\
  (forall k pos, (k, pos) ∈ positions (sim w) ->
    minted w k /\ SimPosition.id pos = k /\ SimPosition.status pos = "open") /\
  (forall pos, pos ∈ trade_history (sim w) ->
    minted w (SimPosition.id pos) /\
    (SimPosition.id pos ∉ PyDict.keys (positions (sim w))) /\
    SimPosition.status pos = "closed").

End Commands.

#[local] Instance Qlt_decision (x y : Q) : Decision (x < y) :=
  match Qlt_le_dec x y with
  | left H => left H
  | right H => right (Qle_not_lt _ _ H)
  end.

(** Winning and losing trades; a trade with pnl [0] is neither. *)
Definition winners (ts : list SimPosition.t) : list SimPosition.t :=
  filter (fun t => 0 < realized t) ts.

Definition losers (ts : list SimPosition.t) : list SimPosition.t :=
  filter (fun t => realized t < 0) ts.

(** ** Sample runs *)

(** A clock that ticks once per reading, and identifiers ["0"], ["1"], ... *)
Definition clock (n : nat) : Z := Z.of_nat n.
Definition ids (n : nat) : string := pretty n.

Definition long_order : command :=
  PlaceOrder "BTC/USDT" "long" 1000 (Some 100) (Some 90) None.

Definition short_order : command :=
  PlaceOrder "BTC/USDT" "short" 1000 (Some 100) None None.

(** An account of 10000 holding one position. *)
Definition long_world : World := exec clock ids long_order (boot 10000).
Definition short_world : World := exec clock ids short_order (boot 10000).

Definition long_position : SimPosition.t :=
  SimPosition.mk "0" "BTC/USDT" "long" 100 1000 (Some 90) None 0 "open"
    None None None.

Definition short_position : SimPosition.t :=
  SimPosition.mk "0" "BTC/USDT" "short" 100 1000 None None 0 "open"
    None None None.

(** An account of 10000 that has seen the price 100. *)
Definition priced_world : World :=
  exec clock ids (UpdatePrice "BTC/USDT" 100) (boot 10000).

(** A session that opens a long, sees its stop hit, opens a short and closes
    it by hand, then tries to close it again. *)
Definition session : list command :=
  [ long_order;
    UpdatePrice "BTC/USDT" 89;
    short_order;
    ClosePosition "1" (Some 80);
    ClosePosition "1" (Some 80) ].

(** * The other tools of [agent.py] and [simulation.py] *)

(** The [exposure] entry of [explain_current_exposure]. *)
Record exposure : Type := mkExposure {
  open_positions_count : nat;
  total_notional_committed : Q
}.

Section Tools.

Variable utcnow : nat -> Z.

(** [agent.sim_close_position].  The [position] entry of the response lists
    the twelve attributes of the closed position: it is the position. *)
Definition sim_close_position (position_id : string) (price : option Q)
  : M (response SimPosition.t) :=
  try_except
    (pos ← close_position utcnow position_id price;
     mret (Success pos))
    (fun e => mret (Error (Str e))).

(** [agent.sim_portfolio_state] *)
Definition sim_portfolio_state : M (response portfolio) :=
  pf ← portfolio_state;
  mret (Success pf).

(** [agent.sim_trade_history] *)
Definition sim_trade_history (limit : Z) : M (response summary) :=
  history ← trade_history_summary limit;
  mret (Success history).

(** [agent.sim_reset] *)
Definition sim_reset (initial_balance_ : option Q) : M (response portfolio) :=
  reset initial_balance_;;
  pf ← portfolio_state;
  mret (Success pf).

(** [simulation.eval_strategy_quality].  The response regroups the entries
    of the summary ([metrics] and [raw_trades]): it is the summary. *)
Definition eval_strategy_quality (limit : Z) : M (response summary) :=
  summary_ ← trade_history_summary limit;
  mret (Success summary_).

(** [simulation.eval_last_error_context] *)
Definition eval_last_error_context : M (response (portfolio * summary)) :=
  pf ← portfolio_state;
  history ← trade_history_summary 10;
  mret (Success (pf, history)).

(** [simulation.explain_current_exposure] *)
Definition explain_current_exposure : M (response (portfolio * exposure)) :=
  pf ← portfolio_state;
  let open_positions := pf_open_positions pf in
  let total_notional_committed_ :=
    sum (map SimPosition.notional open_positions) in
  mret (Success
    (pf, mkExposure (pf_open_count pf) total_notional_committed_)).

End Tools.

(** The entry price [place_order] uses: the one given, else the last price
    of the market. *)
Definition entry_used (w : World) (pair_ : string) (entry_price_ : option Q)
  : option Q :=
  match entry_price_ with
  | Some p => Some p
  | None => last_prices (sim w) !! pair_
  end.

(** The side is accepted by [place_order]. *)
Definition valid_side (side_ : string) : Prop :=
  lower side_ = "long" \/ lower side_ = "short".

(** A command whose prices are positive and whose balance is not negative. *)
Definition orderly (c : command) : Prop :=
  match c with
  | PlaceOrder _ _ _ entry_price_ _ _ =>
      match entry_price_ with Some p => 0 < p | None => True end
  | ClosePosition _ price =>
      match price with Some p => 0 < p | None => True end
  | UpdatePrice _ price => 0 < price
  | Reset initial_balance_ =>
      match initial_balance_ with Some b => 0 <= b | None => True end
  end.

Definition is_reset (c : command) : Prop :=
  match c with Reset _ => True | _ => False end.

(** An account whose numbers are those of the data model: balance and cash
    are not negative, entry prices, notionals and last prices are
    positive. *)
Definition solvent (s : TradingSimulator) : Prop :=
  0 <= initial_balance s /\
  0 <= cash s /\
  (forall k pos, (k, pos) ∈ positions s ->
    0 < SimPosition.entry_price pos /\ 0 < SimPosition.notional pos) /\
  (forall market p, last_prices s !! market = Some p -> 0 < p).

(** The unrealized pnl of the open positions whose market has a last
    price. *)
Definition unrealized_pnl (s : TradingSimulator) : Q :=
  total (map (fun pos =>
    match last_prices s !! SimPosition.pair pos with
    | Some price => pnl_formula pos price
    | None => 0
    end) (PyDict.values (positions s))).

(** Every stored position is open and its pnl at the last price of its
    market, if there is one, is defined. *)
Definition marked (s : TradingSimulator) : Prop :=
  forall k pos, (k, pos) ∈ positions s ->
    SimPosition.status pos = "open" /\
    forall price, last_prices s !! SimPosition.pair pos = Some price ->
      pnl_defined pos price.

(** The position created by a successful [place_order], and the state it
    leaves. *)
Definition opened (utcnow : nat -> Z) (uuid4 : nat -> string) (w : World)
    (pair_ side_ : string) (notional_ ep : Q) (stop_loss_ take_profit_ : option Q)
  : SimPosition.t :=
  SimPosition.mk (uuid4 (uuid_calls w)) pair_ (lower side_) ep notional_
    stop_loss_ take_profit_ (utcnow (now_calls w)) "open" None None None.

Definition after_open (w : World) (pos : SimPosition.t) : World :=
  let s := sim w in
  mkWorld
    (mkSim (initial_balance s) (cash s - SimPosition.notional pos)
       (PyDict.set (SimPosition.id pos) pos (positions s))
       (trade_history s) (last_prices s))
    (S (now_calls w)) (S (uuid_calls w)).

(** [w'] comes from [w] by closing positions only: nothing but cash, the
    clock, the set of open positions (which shrinks) and the history (which
    grows at its end) differs. *)
Definition closes_only (w w' : World) : Prop :=
  initial_balance (sim w') = initial_balance (sim w) /\
  last_prices (sim w') = last_prices (sim w) /\
  uuid_calls w' = uuid_calls w /\
  (forall k pos, (k, pos) ∈ positions (sim w') -> (k, pos) ∈ positions (sim w)) /\
  trade_history (sim w) `prefix_of` trade_history (sim w').

(** More sample states: the long position marked at 95; the account after
    the first three steps of the session (one trade closed, one position
    open). *)
Definition marked_world : World :=
  exec_all clock ids [long_order; UpdatePrice "BTC/USDT" 95] (boot 10000).

Definition busy_world : World := exec_all clock ids (take 3 session) (boot 10000).

(** * [market_tools.py]: indicators *)

(** The exceptions of the market tools. *)
Inductive py_exn : Type :=
  | PyValueError (msg : string)
  | PyKeyError (key : string)
  | PyTypeError
  | PyIndexError
  | PyZeroDivisionError
  | ExchangeError (name msg : string).

(** A computation without state that returns or raises. *)
Inductive attempt (A : Type) : Type :=
  | Done (a : A)
  | Failed (e : py_exn).
Arguments Done {A} a.
Arguments Failed {A} e.

#[export] Instance attempt_ret : MRet attempt := @Done.
#[export] Instance attempt_bind : MBind attempt := fun A B k m =>
  match m with
  | Done a => k a
  | Failed e => Failed e
  end.

(** [l[i]], for an index of either sign. *)
Definition item {A} (l : list A) (i : Z) : attempt A :=
  let n := Z.of_nat (length l) in
  let j := if (i <? 0)%Z then (i + n)%Z else i in
  if ((j <? 0)%Z || (n <=? j)%Z)%bool then Failed PyIndexError
  else
    match l !! Z.to_nat j with
    | Some x => Done x
    | None => Failed PyIndexError
    end.

(** [a / b] *)
Definition divide (a b : Q) : attempt Q :=
  if Qeq_bool b 0 then Failed PyZeroDivisionError else Done (a / b).

(** [for i in range_: state = body(state, i)] *)
Fixpoint for_each {S I} (body : S -> I -> attempt S) (state : S)
    (range_ : list I) : attempt S :=
  match range_ with
  | [] => Done state
  | i :: range_ => state ← body state i; for_each body state range_
  end.

(** The body of the loop of [simple_rsi], on the pair [(gains, losses)]. *)
Definition rsi_step (prices : list Q) (acc : list Q * list Q) (i : Z)
  : attempt (list Q * list Q) :=
  a ← item prices (- i);
  b ← item prices (- i - 1);
  let diff := a - b in
  if Qltb 0 diff then mret (acc.1 ++ [diff], acc.2)
  else mret (acc.1, acc.2 ++ [- diff]).

(** [market_tools.simple_rsi] *)
Definition simple_rsi (prices : list Q) (period : Z) : attempt Q :=
  if (Z.of_nat (length prices) <? period + 1)%Z then
    Failed (PyValueError "Not enough data for RSI")
  else
    acc ← for_each (rsi_step prices) ([], []) (seqZ 1 period);
    let gains := acc.1 in
    let losses := acc.2 in
    avg_gain ← match gains with
               | [] => mret 0
               | _ => divide (sum gains) (inject_Z period)
               end;
    avg_loss ← match losses with
               | [] => mret 0
               | _ => divide (sum losses) (inject_Z period)
               end;
    if Qeq_bool avg_loss 0 then mret 100
    else
      rs ← divide avg_gain avg_loss;
      q ← divide 100 (1 + rs);
      mret (100 - q).

(** The values found in a candle dictionary. *)
Inductive value : Type :=
  | VInt (z : Z)
  | VFloat (q : Q)
  | VStr (s : string)
  | VNone.

Definition candle : Type := PyDict.t value.

(** A response with [status] ["success"] or ["error"]. *)
Inductive reply (E A : Type) : Type :=
  | Ok (payload : A)
  | Err (msg : E).
Arguments Ok {E A} payload.
Arguments Err {E A} msg.

(** The error messages of [compute_basic_indicators]. *)
Inductive indicators_error : Type :=
  | EmptyCandles
  | CloseExtractionFailed (e : py_exn)
  | NotEnoughCandles (got need : Z).

(** The success response of [compute_basic_indicators]. *)
Record indicators : Type := mkIndicators {
  ind_pair : string;
  ind_timeframe : string;
  ind_latest_price : Q;
  ind_latest_time : option value;
  ind_rsi : Q;
  ind_candle_count : nat;
  ind_rsi_period : Z;
  ind_candles : list candle
}.

(** [d[key]] *)
Definition subscript {V} (d : PyDict.t V) (key : string) : attempt V :=
  match PyDict.get key d with
  | Some v => Done v
  | None => Failed (PyKeyError key)
  end.

(** [s or "UNKNOWN"] for an optional string: [None] and [""] are falsy. *)
Definition or_unknown (s : option string) : string :=
  match s with
  | Some (String c s') => String c s'
  | _ => "UNKNOWN"
  end.

Section Indicators.

(** [float(s)] for a [str]: the number it denotes, if it denotes one. *)
Variable float_of_string : string -> option Q.

(** [float(v)] *)
Definition to_float (v : value) : attempt Q :=
  match v with
  | VInt z => Done (inject_Z z)
  | VFloat q => Done q
  | VStr s =>
      match float_of_string s with
      | Some q => Done q
      | None => Failed (PyValueError "could not convert string to float")
      end
  | VNone => Failed PyTypeError
  end.

(** [[float(c["close"]) for c in candles]] *)
Fixpoint closes_of (candles : list candle) : attempt (list Q) :=
  match candles with
  | [] => Done []
  | c :: candles =>
      v ← subscript c "close";
      x ← to_float v;
      xs ← closes_of candles;
      mret (x :: xs)
  end.

(** [market_tools.compute_basic_indicators] *)
Definition compute_basic_indicators (candles : list candle) (rsi_period : Z)
    (pair_ timeframe : option string)
  : attempt (reply indicators_error indicators) :=
  if (length candles =? 0)%nat then mret (Err EmptyCandles)
  else
    match closes_of candles with
    | Failed e => mret (Err (CloseExtractionFailed e))
    | Done closes =>
        if (Z.of_nat (length closes) <? rsi_period + 1)%Z then
          mret (Err (NotEnoughCandles (Z.of_nat (length closes))
                       (rsi_period + 1)))
        else
          rsi_value ← simple_rsi closes rsi_period;
          latest ← item candles (- 1);
          v ← subscript latest "close";
          latest_price ← to_float v;
          mret (Ok (mkIndicators (or_unknown pair_) (or_unknown timeframe)
                      latest_price (PyDict.get "time_iso" latest) rsi_value
                      (length candles) rsi_period candles))
    end.

End Indicators.

(** The price moves, newest first: [r] lists the prices from the newest to
    the oldest. *)
Fixpoint moves (r : list Q) : list Q :=
  match r with
  | a :: (b :: _) as r' => (a - b) :: moves r'
  | _ => []
  end.

(** The moves [simple_rsi] looks at. *)
Definition recent_moves (prices : list Q) (period : Z) : list Q :=
  take (Z.to_nat period) (moves (reverse prices)).

(** Rises, and falls as positive amounts. *)
Definition rises (ds : list Q) : list Q := filter (fun d => 0 < d) ds.
Definition falls (ds : list Q) : list Q :=
  map Qopp (filter (fun d => ~ 0 < d) ds).

(** * [market_tools.py]: exchanges and failover *)

(** What the module uses of [ccxt] and of [time].  An exchange object is known
    by the identifier of its class.  A request to an exchange goes over the
    network: its answer depends on the number of requests sent before. *)
Class Library : Type := {
  (** [ccxt.exchanges] *)
  ccxt_exchanges : list string;
  (** [getattr(ex, "timeframes", None)]: the keys of the table, if any. *)
  timeframes_of : string -> option (list string);
  (** [ex.fetch_ohlcv(pair, timeframe=timeframe, limit=limit)] *)
  fetch_ohlcv : nat -> string -> string -> string -> Z ->
                attempt (list (list value));
  (** [time.strftime("%Y-%m-%dT%H:%M:%SZ", time.gmtime(t))] *)
  strftime_gmtime : Q -> attempt string;
  (** [float(s)] and [int(s)] for a [str]. *)
  parse_float : string -> option Q;
  parse_int : string -> option Z
}.

(** The module globals.  [_exchange_instances], a dictionary from identifiers
    to exchange objects, is kept as the list of its keys; [fetch_calls]
    counts the requests sent. *)
Record Market : Type := mkMarket {
  _FALLBACK_EXCHANGES : list string;
  _primary_exchange_id : string;
  _exchange : string;
  _exchange_instances : list string;
  fetch_calls : nat
}.

(** The globals once the module is imported. *)
Definition imported : Market :=
  mkMarket ["binance"; "kraken"; "coinbaseexchange"; "kucoin"; "bitfinex"]
           "binance" "binance" ["binance"] 0.

Definition set_FALLBACK_EXCHANGES (l : list string) (g : Market) :=
  mkMarket l (_primary_exchange_id g) (_exchange g) (_exchange_instances g)
           (fetch_calls g).
Definition set_primary_exchange_id (x : string) (g : Market) :=
  mkMarket (_FALLBACK_EXCHANGES g) x (_exchange g) (_exchange_instances g)
           (fetch_calls g).
Definition set_exchange (x : string) (g : Market) :=
  mkMarket (_FALLBACK_EXCHANGES g) (_primary_exchange_id g) x
           (_exchange_instances g) (fetch_calls g).
Definition set_exchange_instances (l : list string) (g : Market) :=
  mkMarket (_FALLBACK_EXCHANGES g) (_primary_exchange_id g) (_exchange g) l
           (fetch_calls g).
Definition set_fetch_calls (n : nat) (g : Market) :=
  mkMarket (_FALLBACK_EXCHANGES g) (_primary_exchange_id g) (_exchange g)
           (_exchange_instances g) n.

(** The state of the process: the globals of [market_tools] and
    [GLOBAL_SIMULATOR]. *)
Record Process : Type := mkProcess {
  tools : Market;
  ledger : World
}.

(** An exception of the market tools or of the simulator. *)
Inductive failure : Type :=
  | Tools (e : py_exn)
  | Simulator (e : exn).

Inductive result (A : Type) : Type :=
  | Returns (a : A)
  | Raises (e : failure).
Arguments Returns {A} a.
Arguments Raises {A} e.

Definition Run (A : Type) : Type := Process -> result A * Process.

#[export] Instance Run_ret : MRet Run := fun A a p => (Returns a, p).
#[export] Instance Run_bind : MBind Run := fun A B k m p =>
  match m p with
  | (Returns a, p') => k a p'
  | (Raises e, p') => (Raises e, p')
  end.

Definition throw {A} (e : py_exn) : Run A := fun p => (Raises (Tools e), p).

Definition globals : Run Market := fun p => (Returns (tools p), p).

Definition global (f : Market -> Market) : Run unit :=
  fun p => (Returns tt, mkProcess (f (tools p)) (ledger p)).

(** A computation without state, run in the process. *)
Definition pure {A} (m : attempt A) : Run A :=
  fun p =>
    match m with
    | Done a => (Returns a, p)
    | Failed e => (Raises (Tools e), p)
    end.

(** A method of [GLOBAL_SIMULATOR], run in the process. *)
Definition on_simulator {A} (m : M A) : Run A :=
  fun p =>
    match m (ledger p) with
    | (Return a, w) => (Returns a, mkProcess (tools p) w)
    | (Raise e, w) => (Raises (Simulator e), mkProcess (tools p) w)
    end.

(** [try: body except Exception as e: handler(e)] *)
Definition catching {A} (body : Run A) (handler : failure -> Run A) : Run A :=
  fun p =>
    match body p with
    | (Returns a, p') => (Returns a, p')
    | (Raises e, p') => handler e p'
    end.

(** The entries of [last_error_messages]:
    ["{ex_id}: timeframe '{timeframe}' not supported"] and
    ["{ex_id}: {type(e).__name__}: {e}"]. *)
Inductive note : Type :=
  | TimeframeNotSupported (ex_id timeframe : string)
  | Crashed (ex_id : string) (e : failure).

(** The exchange an entry is about. *)
Definition about (n : note) : string :=
  match n with
  | TimeframeNotSupported ex_id _ => ex_id
  | Crashed ex_id _ => ex_id
  end.

(** The local variables of [get_ohlcv] that its loop assigns. *)
Record locals : Type := mkLocals {
  raw : option (list (list value));
  last_error_messages : list note;
  used_exchange_id : option string
}.

(** How an iteration ends: at its end or with [continue], or with [break]. *)
Inductive flow : Type :=
  | Next
  | Break.

(** [for x in xs: body], where the body may [break]. *)
Fixpoint for_until {I S} (body : I -> S -> Run (flow * S)) (xs : list I)
    (state : S) : Run S :=
  match xs with
  | [] => mret state
  | x :: xs =>
      r ← body x state;
      match r.1 with
      | Break => mret r.2
      | Next => for_until body xs r.2
      end
  end.

(** The success response of [get_ohlcv]. *)
Record ohlcv : Type := mkOhlcv {
  oh_pair : string;
  oh_timeframe : string;
  oh_exchange : option string;
  oh_candles : list candle
}.

(** [int(v)]: a float is truncated towards zero. *)
Definition to_int `{Library} (v : value) : attempt Z :=
  match v with
  | VInt z => Done z
  | VFloat q => Done (Z.quot (Qnum q) (Z.pos (Qden q)))
  | VStr s =>
      match parse_int s with
      | Some z => Done z
      | None => Failed (PyValueError "invalid literal for int()")
      end
  | VNone => Failed PyTypeError
  end.

(** [v / d] for a number [d] *)
Definition true_div (v : value) (d : Q) : attempt Q :=
  match v with
  | VInt z => divide (inject_Z z) d
  | VFloat q => divide q d
  | VStr _ | VNone => Failed PyTypeError
  end.

(** The body of the loop of [get_ohlcv] over [raw]: the row is unpacked into
    six variables and the dictionary is built entry by entry. *)
Definition candle_of `{Library} (row : list value) : attempt candle :=
  match row with
  | [ts; o; h; l; c; v] =>
      timestamp ← to_int ts;
      seconds ← true_div ts 1000;
      time_iso ← strftime_gmtime seconds;
      open ← to_float parse_float o;
      high ← to_float parse_float h;
      low ← to_float parse_float l;
      close ← to_float parse_float c;
      volume ← to_float parse_float v;
      mret [ ("timestamp", VInt timestamp); ("time_iso", VStr time_iso);
             ("open", VFloat open); ("high", VFloat high);
             ("low", VFloat low); ("close", VFloat close);
             ("volume", VFloat volume) ]
  | _ =>
      if (length row <? 6)%nat then
        Failed (PyValueError ("not enough values to unpack (expected 6, got "
                                +:+ pretty (length row) +:+ ")"))
      else Failed (PyValueError "too many values to unpack (expected 6)")
  end.

Section Exchanges.
Context `{Library}.

(** [datetime.utcnow()], by the number of earlier calls. *)
Variable utcnow : nat -> Z.

(** [market_tools._instantiate_exchange] *)
Definition _instantiate_exchange (exchange_id : string) : Run string :=
  if bool_decide (exchange_id ∉ ccxt_exchanges) then
    throw (PyValueError
             ("Exchange id not supported by ccxt: " +:+ exchange_id))
  else mret exchange_id.

(** [market_tools.set_fallback_exchanges] *)
Definition set_fallback_exchanges (order : list string) : Run unit :=
  match order with
  | [] => throw (PyValueError "Fallback exchange list must not be empty")
  | _ => global (set_FALLBACK_EXCHANGES (map lower order))
  end.

(** [market_tools.set_primary_exchange] *)
Definition set_primary_exchange (exchange_id : string) : Run unit :=
  global (set_primary_exchange_id (lower exchange_id));;
  g ← globals;
  ex ← _instantiate_exchange (_primary_exchange_id g);
  global (set_exchange ex).

(** [ex.fetch_ohlcv(...)]: one more request is sent. *)
Definition request (ex pair_ timeframe : string) (limit : Z)
  : Run (list (list value)) :=
  g ← globals;
  global (set_fetch_calls (S (fetch_calls g)));;
  pure (fetch_ohlcv (fetch_calls g) ex pair_ timeframe limit).

(** One iteration of the loop of [get_ohlcv] over the candidates. *)
Definition try_exchange (pair_ timeframe : string) (limit : Z)
    (ex_id : string) (l : locals) : Run (flow * locals) :=
  catching
    (g ← globals;
     ex ← (if bool_decide (ex_id ∈ _exchange_instances g) then mret ex_id
           else
             ex ← _instantiate_exchange ex_id;
             global (set_exchange_instances (_exchange_instances g ++ [ex_id]));;
             mret ex);
     let unsupported :=
       match timeframes_of ex with
       | Some timeframes => bool_decide (timeframe ∉ timeframes)
       | None => false
       end in
     if unsupported then
       mret (Next,
             mkLocals (raw l)
               (last_error_messages l
                  ++ [TimeframeNotSupported ex_id timeframe])
               (used_exchange_id l))
     else
       rows ← request ex pair_ timeframe limit;
       global (set_primary_exchange_id ex_id);;
       global (set_exchange ex);;
       mret (Break, mkLocals (Some rows) (last_error_messages l) (Some ex_id)))
    (fun e =>
       mret (Next,
             mkLocals None (last_error_messages l ++ [Crashed ex_id e])
               (used_exchange_id l))).

(** The exchanges [get_ohlcv] tries, in order. *)
Definition candidates (g : Market) : list string :=
  _primary_exchange_id g
  :: filter (fun e => e ≠ _primary_exchange_id g) (_FALLBACK_EXCHANGES g).

(** The loop of [get_ohlcv] over [raw]. *)
Definition candles_of (rows : list (list value)) : attempt (list candle) :=
  for_each (fun candles row => c ← candle_of row; mret (candles ++ [c]))
           [] rows.

(** [market_tools.get_ohlcv].  [update_price] converts the price it is given
    with [float]. *)
Definition get_ohlcv (pair_ timeframe : string) (limit : Z)
  : Run (reply (list note) ohlcv) :=
  let MIN_CANDLES := 60%Z in
  let limit := if (limit <? MIN_CANDLES)%Z then MIN_CANDLES else limit in
  g ← globals;
  l ← for_until (try_exchange pair_ timeframe limit) (candidates g)
        (mkLocals None [] None);
  match raw l with
  | None => mret (Err (last_error_messages l))
  | Some rows =>
      candles ← pure (candles_of rows);
      match candles with
      | [] => mret tt
      | _ =>
          latest ← pure (item candles (- 1));
          last_price ← pure (subscript latest "close");
          price ← pure (to_float parse_float last_price);
          on_simulator (update_price utcnow pair_ price)
      end;;
      mret (Ok (mkOhlcv pair_ timeframe (used_exchange_id l) candles))
  end.

End Exchanges.

(** ** What a call of [get_ohlcv] can be observed to do *)

(** The exchange lists the timeframe, or lists none. *)
Definition supports `{Library} (ex timeframe : string) : Prop :=
  match timeframes_of ex with
  | Some timeframes => timeframe ∈ timeframes
  | None => True
  end.

(** An object of the exchange is at hand or can be made. *)
Definition usable `{Library} (g : Market) (ex_id : string) : Prop :=
  ex_id ∈ _exchange_instances g \/ ex_id ∈ ccxt_exchanges.

(** What is behind an entry of [last_error_messages] written between the
    globals [g] and [g']: an exchange that [ccxt] does not know, a timeframe
    that the exchange does not list, or a request that failed. *)
Definition refusal `{Library} (pair_ timeframe : string) (limit : Z)
    (g g' : Market) (n : note) : Prop :=
  match n with
  | TimeframeNotSupported ex_id timeframe' =>
      timeframe' = timeframe /\ usable g ex_id /\ ~ supports ex_id timeframe
  | Crashed ex_id (Tools e) =>
      (~ usable g ex_id /\
       e = PyValueError ("Exchange id not supported by ccxt: " +:+ ex_id))
      \/ (usable g ex_id /\ supports ex_id timeframe /\
          exists k, (fetch_calls g <= k < fetch_calls g')%nat /\
            fetch_ohlcv k ex_id pair_ timeframe limit = Failed e)
  | Crashed _ (Simulator _) => False
  end.

(** The globals that a call which is not served leaves alone. *)
Definition same_exchange (g g' : Market) : Prop :=
  _primary_exchange_id g' = _primary_exchange_id g /\
  _exchange g' = _exchange g.

(** The request [k] to the exchange [ex_id] was answered with [rows] and the
    exchange became the primary one. *)
Definition served `{Library} (pair_ timeframe : string) (limit : Z)
    (g g' : Market) (ex_id : string) (rows : list (list value)) : Prop :=
  usable g ex_id /\
  supports ex_id timeframe /\
  ex_id ∈ _exchange_instances g' /\
  _primary_exchange_id g' = ex_id /\
  _exchange g' = ex_id /\
  exists k, (fetch_calls g <= k)%nat /\ fetch_calls g' = S k /\
    fetch_ohlcv k ex_id pair_ timeframe limit = Done rows.

(** What no call of [get_ohlcv] changes in the globals: the fallback list;
    exchange objects are only added, for exchanges that [ccxt] knows, and
    requests are only counted up. *)
Definition grows `{Library} (g g' : Market) : Prop :=
  _FALLBACK_EXCHANGES g' = _FALLBACK_EXCHANGES g /\
  _exchange_instances g ⊆ _exchange_instances g' /\
  (forall ex_id, ex_id ∈ _exchange_instances g' -> usable g ex_id) /\
  (fetch_calls g <= fetch_calls g')%nat.

(** How a call ends once the exchange [ex_id] has answered with [rows], the
    globals being [g] and the simulator [w] by then: the conversion of a
    row raises; or there is no candle; or the close of the last candle is
    passed to [update_price], which returns or raises. *)
Definition delivers `{Library} (utcnow : nat -> Z) (pair_ timeframe : string)
    (ex_id : string) (rows : list (list value)) (g : Market) (w : World)
    (run : result (reply (list note) ohlcv) * Process) : Prop :=
  (exists e, candles_of rows = Failed e /\
     run = (Raises (Tools e), mkProcess g w))
  \/
  (candles_of rows = Done [] /\
   run = (Returns (Ok (mkOhlcv pair_ timeframe (Some ex_id) [])),
          mkProcess g w))
  \/
  (exists candles c q,
     candles_of rows = Done (candles ++ [c]) /\
     PyDict.get "close" c = Some (VFloat q) /\
     run = match update_price utcnow pair_ q w with
           | (Return _, w') =>
               (Returns (Ok (mkOhlcv pair_ timeframe (Some ex_id)
                               (candles ++ [c]))), mkProcess g w')
           | (Raise e, w') => (Raises (Simulator e), mkProcess g w')
           end).

(** ** A sample of the outside *)

(** Two hourly candles; the second closes at 89. *)
Definition sample_rows : list (list value) :=
  [ [VInt 0; VFloat 100; VFloat 110; VFloat 90; VFloat 105; VFloat 7];
    [VInt 3600000; VFloat 105; VFloat 108; VFloat 88; VFloat 89; VFloat 9] ].

(** [ccxt] knows three exchanges.  "binance" is down and "kraken" lists
    daily candles only; "kucoin" answers two candles for BTC/USDT and a
    row without a close for ETH/USDT, and has no other market. *)
Definition sample_library : Library := {|
  ccxt_exchanges := ["binance"; "kraken"; "kucoin"];
  timeframes_of := fun ex =>
    if decide (ex = "kraken") then Some ["1d"] else None;
  fetch_ohlcv := fun _ ex pair_ _ _ =>
    if decide (ex = "kucoin") then
      if decide (pair_ = "BTC/USDT") then Done sample_rows
      else if decide (pair_ = "ETH/USDT") then
        Done [[VInt 0; VFloat 1; VFloat 1; VFloat 1; VNone; VFloat 1]]
      else Failed (ExchangeError "BadSymbol" "kucoin does not have market symbol")
    else Failed (ExchangeError "NetworkError" "timed out");
  strftime_gmtime := fun t =>
    Done (if Qeq_bool t 0 then "1970-01-01T00:00:00Z"
          else "1970-01-01T01:00:00Z");
  parse_float := fun _ => None;
  parse_int := fun _ => None
|}.

(** The module just imported, with the account that holds one long
    position whose stop is at 90. *)
Definition sample_process : Process := mkProcess imported long_world.

(** * Proofs *)

Ltac unfold_M :=
  unfold mbind, M_bind, bind, mret, M_ret, ret, raise, self, assign,
    try_except, div in *.

Lemma Qleb_le x y : Qleb x y = true <-> x <= y.
Proof. apply Qle_bool_iff. Qed.

Lemma Qleb_gt x y : Qleb x y = false <-> y < x.
Proof.
  unfold Qleb. split; intros H.
  - apply Qnot_le_lt. intros Hle. apply Qle_bool_iff in Hle. congruence.
  - destruct (Qle_bool x y) eqn:E; [|done].
    apply Qle_bool_iff in E. exfalso. exact (Qlt_not_le _ _ H E).
Qed.

Lemma Qltb_lt x y : Qltb x y = true <-> x < y.
Proof.
  unfold Qltb. rewrite negb_true_iff. apply Qleb_gt.
Qed.

Lemma Qltb_ge x y : Qltb x y = false <-> y <= x.
Proof.
  unfold Qltb. rewrite negb_false_iff. apply Qleb_le.
Qed.

Lemma Qeq_bool_false x y : ~ x == y -> Qeq_bool x y = false.
Proof.
  intros H. destruct (Qeq_bool x y) eqn:E; [|done].
  apply Qeq_bool_iff in E. contradiction.
Qed.

Lemma or_zero_realized t : or_zero (SimPosition.pnl t) == realized t.
Proof.
  unfold or_zero, realized.
  destruct (SimPosition.pnl t) as [v|]; [|reflexivity].
  destruct (Qeq_bool v 0) eqn:E; [|reflexivity].
  apply Qeq_bool_iff in E. symmetry. exact E.
Qed.

(** ** Dictionaries *)

Module PyDictFacts.
Section facts.
Context {V : Type}.
Implicit Types (d : PyDict.t V) (k : string) (v : V).

Lemma get_elem_of k v d : PyDict.get k d = Some v -> (k, v) ∈ d.
Proof.
  induction d as [|[k' v'] d IH]; simpl; [done|].
  destruct (decide (k = k')) as [->|Hne].
  - intros [= ->]. left.
  - intros H. right. auto.
Qed.

Lemma get_key k v d : PyDict.get k d = Some v -> k ∈ PyDict.keys d.
Proof.
  induction d as [|[k' v'] d IH]; simpl; [done|].
  destruct (decide (k = k')) as [->|Hne].
  - intros _. left.
  - intros H. right. auto.
Qed.

Lemma get_not_key k d : k ∉ PyDict.keys d -> PyDict.get k d = None.
Proof.
  intros H. destruct (PyDict.get k d) eqn:E; [|done].
  apply get_key in E. contradiction.
Qed.

Lemma get_app_fresh k pre d :
  k ∉ PyDict.keys pre -> PyDict.get k (pre ++ d) = PyDict.get k d.
Proof.
  induction pre as [|[k' v'] pre IH]; simpl; [done|].
  rewrite not_elem_of_cons. intros [Hne Hpre].
  destruct (decide (k = k')); [done|]. auto.
Qed.

Lemma del_app_fresh k pre d :
  k ∉ PyDict.keys pre -> PyDict.del k (pre ++ d) = pre ++ PyDict.del k d.
Proof.
  induction pre as [|[k' v'] pre IH]; simpl; [done|].
  rewrite not_elem_of_cons. intros [Hne Hpre].
  destruct (decide (k = k')); [done|]. f_equal. auto.
Qed.

Lemma keys_del k d : PyDict.keys (PyDict.del k d) ⊆ PyDict.keys d.
Proof.
  induction d as [|[k' v'] d IH]; simpl; [done|].
  destruct (decide (k = k')); simpl.
  - intros x Hx. by right.
  - intros x. rewrite !elem_of_cons. intros [->|Hx]; [by left|].
    right. by apply IH.
Qed.

Lemma ok_del k d : PyDict.ok d -> PyDict.ok (PyDict.del k d).
Proof.
  unfold PyDict.ok. induction d as [|[k' v'] d IH]; simpl; [done|].
  rewrite NoDup_cons. intros [Hk' Hd].
  destruct (decide (k = k')); [done|]. simpl.
  apply NoDup_cons. split; [|auto].
  intros Hin. apply Hk'. by apply (keys_del k d).
Qed.

Lemma get_del k d : PyDict.ok d -> PyDict.get k (PyDict.del k d) = None.
Proof.
  unfold PyDict.ok. induction d as [|[k' v'] d IH]; simpl; [done|].
  rewrite NoDup_cons. intros [Hk' Hd].
  destruct (decide (k = k')) as [->|Hne].
  - by apply get_not_key.
  - simpl. destruct (decide (k = k')); [done|]. auto.
Qed.

Lemma del_not_key k d : PyDict.ok d -> k ∉ PyDict.keys (PyDict.del k d).
Proof.
  unfold PyDict.ok. induction d as [|[k' v'] d IH]; simpl.
  - intros _ H. by apply elem_of_nil in H.
  - rewrite NoDup_cons. intros [Hk' Hd].
    destruct (decide (k = k')) as [->|Hne]; [done|].
    simpl. rewrite not_elem_of_cons. split; [done|]. auto.
Qed.

Lemma set_fresh k v d :
  k ∉ PyDict.keys d -> PyDict.set k v d = d ++ [(k, v)].
Proof.
  induction d as [|[k' v'] d IH]; simpl; [done|].
  rewrite not_elem_of_cons. intros [Hne Hd].
  destruct (decide (k = k')); [done|]. f_equal. auto.
Qed.

End facts.
End PyDictFacts.

(** ** Sums *)

Lemma fold_left_Qplus xs a : fold_left Qplus xs a == a + total xs.
Proof.
  revert a. induction xs as [|x xs IH]; intros a; simpl.
  - ring.
  - rewrite IH. ring.
Qed.

Lemma sum_total xs : sum xs == total xs.
Proof. unfold sum. rewrite fold_left_Qplus. ring. Qed.

Lemma total_app xs ys : total (xs ++ ys) == total xs + total ys.
Proof.
  induction xs as [|x xs IH]; simpl.
  - ring.
  - rewrite IH. ring.
Qed.

Lemma total_Proper xs ys : Forall2 Qeq xs ys -> total xs == total ys.
Proof.
  induction 1 as [|x y xs ys Hxy _ IH]; simpl; [reflexivity|].
  rewrite Hxy, IH. reflexivity.
Qed.

Lemma notional_del k (d : PyDict.t SimPosition.t) pos :
  PyDict.get k d = Some pos ->
  total (map SimPosition.notional (PyDict.values d))
  == SimPosition.notional pos
     + total (map SimPosition.notional (PyDict.values (PyDict.del k d))).
Proof.
  induction d as [|[k' v'] d IH]; simpl; [done|].
  destruct (decide (k = k')) as [->|Hne].
  - intros [= ->]. reflexivity.
  - intros H. simpl. rewrite (IH H). ring.
Qed.

Section Proofs.

Variable utcnow : nat -> Z.
Variable uuid4 : nat -> string.

(** ** Closing a position *)

Lemma calc_pnl_defined w pos cp :
  pnl_defined pos cp ->
  _calc_pnl_price pos cp w = (Return (pnl_formula pos cp), w).
Proof.
  unfold pnl_defined, _calc_pnl_price, pnl_formula.
  destruct (decide _); intros H; unfold_M;
    rewrite (Qeq_bool_false _ _ H); reflexivity.
Qed.

Lemma calc_pnl_pure w pos cp : snd (_calc_pnl_price pos cp w) = w.
Proof.
  unfold _calc_pnl_price. destruct (decide _); unfold_M;
    destruct (Qeq_bool _ 0); reflexivity.
Qed.

Lemma close_position_missing w pos_id price :
  PyDict.get pos_id (positions (sim w)) = None ->
  close_position utcnow pos_id price w = (Raise (KeyError pos_id), w).
Proof. intros H. unfold close_position. unfold_M. rewrite H. reflexivity. Qed.

Lemma close_position_open w pos_id price pos cp :
  PyDict.get pos_id (positions (sim w)) = Some pos ->
  SimPosition.status pos = "open" ->
  exit_price w pos price = Some cp ->
  pnl_defined pos cp ->
  close_position utcnow pos_id price w
  = (Return (closed_at_price utcnow w pos cp),
     after_close utcnow w pos_id pos cp).
Proof.
  intros Hget Hopen Hprice Hdef. unfold close_position.
  unfold mbind at 1, M_bind at 1, bind at 1, self at 1.
  rewrite Hget, Hopen. simpl.
  pose proof (calc_pnl_defined w pos cp Hdef) as Hpnl.
  unfold exit_price in Hprice.
  destruct price as [p|].
  - injection Hprice as ->. unfold float.
    unfold mbind, M_bind, bind, mret, M_ret, ret. rewrite Hpnl. reflexivity.
  - rewrite Hprice. unfold float.
    unfold mbind, M_bind, bind, mret, M_ret, ret. rewrite Hpnl. reflexivity.
Qed.

Lemma calc_pnl_undefined w pos cp :
  ~ pnl_defined pos cp ->
  _calc_pnl_price pos cp w = (Raise ZeroDivisionError, w).
Proof.
  unfold pnl_defined, _calc_pnl_price.
  destruct (decide _); intros H; unfold_M;
    (destruct (Qeq_bool _ 0) eqn:E; [reflexivity|]);
    exfalso; apply H; intros H0; apply Qeq_bool_iff in H0; congruence.
Qed.

Lemma close_position_not_open w pos_id price pos :
  PyDict.get pos_id (positions (sim w)) = Some pos ->
  SimPosition.status pos <> "open" ->
  close_position utcnow pos_id price w = (Return pos, w).
Proof.
  intros Hget Hst. unfold close_position.
  unfold mbind at 1, M_bind at 1, bind at 1, self at 1. rewrite Hget.
  rewrite bool_decide_eq_false_2 by done. reflexivity.
Qed.

Lemma close_position_no_price w pos_id price pos :
  PyDict.get pos_id (positions (sim w)) = Some pos ->
  SimPosition.status pos = "open" ->
  exit_price w pos price = None ->
  close_position utcnow pos_id price w
  = (Raise (ValueError (NoLastPrice (SimPosition.pair pos))), w).
Proof.
  intros Hget Hopen Hprice. unfold close_position.
  unfold mbind at 1, M_bind at 1, bind at 1, self at 1.
  rewrite Hget, Hopen. simpl.
  unfold exit_price in Hprice. destruct price; [done|].
  unfold mbind at 1, M_bind at 1, bind at 1. by rewrite Hprice.
Qed.

Lemma close_position_zero_division w pos_id price pos cp :
  PyDict.get pos_id (positions (sim w)) = Some pos ->
  SimPosition.status pos = "open" ->
  exit_price w pos price = Some cp ->
  ~ pnl_defined pos cp ->
  close_position utcnow pos_id price w = (Raise ZeroDivisionError, w).
Proof.
  intros Hget Hopen Hprice Hdef. unfold close_position.
  unfold mbind at 1, M_bind at 1, bind at 1, self at 1.
  rewrite Hget, Hopen. simpl.
  pose proof (calc_pnl_undefined w pos cp Hdef) as Hpnl.
  unfold exit_price in Hprice.
  destruct price as [p|].
  - injection Hprice as ->. unfold float.
    unfold mbind, M_bind, bind, mret, M_ret, ret. rewrite Hpnl. reflexivity.
  - rewrite Hprice. unfold float.
    unfold mbind, M_bind, bind, mret, M_ret, ret. rewrite Hpnl. reflexivity.
Qed.

Lemma pnl_defined_dec pos cp : pnl_defined pos cp \/ ~ pnl_defined pos cp.
Proof.
  unfold pnl_defined. destruct (decide _).
  - destruct (Qeq_dec (SimPosition.entry_price pos) 0); tauto.
  - destruct (Qeq_dec cp 0); tauto.
Qed.

(** Whatever its outcome, [close_position] either changes nothing or closes
    one open position of the dictionary. *)
Lemma close_position_effect w pos_id price :
  (exists r, close_position utcnow pos_id price w = (r, w)) \/
  (exists pos cp,
    PyDict.get pos_id (positions (sim w)) = Some pos /\
    SimPosition.status pos = "open" /\
    exit_price w pos price = Some cp /\
    pnl_defined pos cp /\
    close_position utcnow pos_id price w
    = (Return (closed_at_price utcnow w pos cp),
       after_close utcnow w pos_id pos cp)).
Proof.
  destruct (PyDict.get pos_id (positions (sim w))) as [pos|] eqn:Hget;
    [|left; eexists; by apply close_position_missing].
  destruct (decide (SimPosition.status pos = "open")) as [Hopen|Hclosed];
    [|left; eexists; by eapply close_position_not_open].
  destruct (exit_price w pos price) as [cp|] eqn:Hprice;
    [|left; eexists; by eapply close_position_no_price].
  destruct (pnl_defined_dec pos cp) as [Hdef|Hdef];
    [|left; eexists; by eapply close_position_zero_division].
  right. exists pos, cp. repeat (split; [done|]).
  by apply close_position_open.
Qed.

(** C4. Closing an open position with positive entry and close prices
    succeeds; the returned position carries the close price and the pnl of
    the formula for its side, cash is credited with notional plus pnl, and
    the position moves from the open set to the end of the history. *)
Theorem close_position_pnl (w : World) (pos_id : string) (price : option Q)
    (pos : SimPosition.t) (cp : Q) :
  PyDict.get pos_id (positions (sim w)) = Some pos ->
  SimPosition.status pos = "open" ->
  exit_price w pos price = Some cp ->
  0 < SimPosition.entry_price pos ->
  0 < cp ->
  exists pos' w' pnl,
    close_position utcnow pos_id price w = (Return pos', w') /\
    SimPosition.status pos' = "closed" /\
    SimPosition.close_price pos' = Some cp /\
    SimPosition.pnl pos' = Some pnl /\
    (SimPosition.side pos = "long" ->
     pnl = SimPosition.notional pos * (cp / SimPosition.entry_price pos - 1)) /\
    (SimPosition.side pos = "short" ->
     pnl = SimPosition.notional pos * (SimPosition.entry_price pos / cp - 1)) /\
    cash (sim w') = cash (sim w) + (SimPosition.notional pos + pnl) /\
    trade_history (sim w') = trade_history (sim w) ++ [pos'] /\
    positions (sim w') = PyDict.del pos_id (positions (sim w)).
Proof.
  intros Hget Hopen Hprice Hentry Hcp.
  assert (pnl_defined pos cp) as Hdef.
  { unfold pnl_defined. destruct (decide _); intros H0.
    - rewrite H0 in Hentry. by apply Qlt_irrefl in Hentry.
    - rewrite H0 in Hcp. by apply Qlt_irrefl in Hcp. }
  exists (closed_at_price utcnow w pos cp),
    (after_close utcnow w pos_id pos cp), (pnl_formula pos cp).
  split; [by apply close_position_open|].
  repeat split; try reflexivity.
  - intros Hside. unfold pnl_formula. by rewrite decide_True.
  - intros Hside. unfold pnl_formula. rewrite decide_False; [done|].
    rewrite Hside. discriminate.
Qed.

(** After a position has been closed, its identifier is no longer a key of
    [positions]: closing it again raises [KeyError] and changes nothing. *)
Lemma close_position_again w pos_id price pos cp price' :
  PyDict.ok (positions (sim w)) ->
  PyDict.get pos_id (positions (sim w)) = Some pos ->
  SimPosition.status pos = "open" ->
  exit_price w pos price = Some cp ->
  pnl_defined pos cp ->
  let w' := snd (close_position utcnow pos_id price w) in
  close_position utcnow pos_id price' w' = (Raise (KeyError pos_id), w').
Proof.
  intros Hok Hget Hopen Hprice Hdef w'. subst w'.
  rewrite (close_position_open w pos_id price pos cp) by done. simpl.
  apply close_position_missing. simpl. by apply PyDictFacts.get_del.
Qed.

(** ** Price ingestion *)





Lemma keys_app {V} (d1 d2 : PyDict.t V) :
  PyDict.keys (d1 ++ d2) = PyDict.keys d1 ++ PyDict.keys d2.
Proof. apply map_app. Qed.

Lemma positive_pnl_defined pos cp :
  0 < SimPosition.entry_price pos -> 0 < cp -> pnl_defined pos cp.
Proof.
  intros Hentry Hcp. unfold pnl_defined. destruct (decide _); intros H0.
  - rewrite H0 in Hentry. by apply Qlt_irrefl in Hentry.
  - rewrite H0 in Hcp. by apply Qlt_irrefl in Hcp.
Qed.

(** The loop of [update_price], started when [pre] has been visited and
    [snapshot] is still to visit. *)
Lemma update_price_loop_spec pair_ price snapshot :
  0 < price ->
  forall pre w,
    positions (sim w) = pre ++ snapshot ->
    open_book (pre ++ snapshot) ->
    exists w',
      update_price_loop utcnow snapshot pair_ price w = (Return tt, w') /\
      positions (sim w') = pre ++ survivors pair_ price snapshot /\
      trade_history (sim w')
      = trade_history (sim w)
        ++ closed_by utcnow pair_ price snapshot (now_calls w) /\
      last_prices (sim w') = last_prices (sim w) /\
      initial_balance (sim w') = initial_balance (sim w) /\
      uuid_calls w' = uuid_calls w.
Proof.
  intros Hprice.
  induction snapshot as [|[k pos] snapshot IH]; intros pre w Hpos Hbook.
  - exists w. simpl. rewrite !app_nil_r in *. repeat split; try done.
  - destruct Hbook as [Hok Hall].
    destruct (Hall k pos) as (Hid & Hopen & Hentry).
    { apply elem_of_app. right. left. }
    assert (k ∉ PyDict.keys pre) as Hfresh.
    { unfold PyDict.ok in Hok. rewrite keys_app in Hok.
      apply NoDup_app in Hok as (_ & Hdisj & _).
      intros Hin. apply (Hdisj k Hin). simpl. left. }
    assert (PyDict.get k (positions (sim w)) = Some pos) as Hget.
    { rewrite Hpos, PyDictFacts.get_app_fresh by done. simpl.
      by rewrite decide_True. }
    assert (open_book ((pre ++ [(k, pos)]) ++ snapshot)) as Hbook1.
    { rewrite <- app_assoc. by split. }
    assert (open_book (pre ++ snapshot)) as Hbook2.
    { split.
      - unfold PyDict.ok in *. rewrite keys_app in *. simpl in Hok.
        apply NoDup_app in Hok as (H1 & H2 & H3).
        apply NoDup_cons in H3 as [_ H3].
        apply NoDup_app. split; [done|]. split; [|done].
        intros x Hx Hx'. apply (H2 x Hx). by right.
      - intros k' pos' Hin. apply Hall.
        apply elem_of_app in Hin as [Hin|Hin]; apply elem_of_app;
          [by left|right; by right]. }
    cbn [update_price_loop].
    unfold mbind at 1, M_bind at 1, bind at 1.
    unfold status_now. unfold_M. rewrite Hget, Hopen. simpl.
    destruct (fires pair_ price pos) eqn:Hfires.
    + (* the position is on the market and a trigger is hit *)
      pose proof Hfires as Hf. unfold fires in Hf.
      apply andb_true_iff in Hf as [Hpair Hhit].
      rewrite Hpair. simpl.
      unfold _check_and_maybe_close. rewrite Hhit. unfold_M.
      rewrite Hid.
      rewrite (close_position_open w k (Some price) pos price);
        [|done|done|done|by apply positive_pnl_defined].
      cbn beta iota.
      destruct (IH pre (after_close utcnow w k pos price))
        as (w' & Hrun & Hp & Hh & Hl & Hi & Hu).
      { simpl. rewrite Hpos, PyDictFacts.del_app_fresh by done. simpl.
        by rewrite decide_True. }
      { done. }
      exists w'. split; [exact Hrun|]. split; [exact Hp|].
      split; [|done].
      rewrite Hh. simpl. rewrite <- app_assoc. reflexivity.
    + (* the position stays open *)
      assert (update_price_loop utcnow ((k, pos) :: snapshot) pair_ price w
              = update_price_loop utcnow snapshot pair_ price w) as Hskip.
      { cbn [update_price_loop].
        unfold mbind at 1, M_bind at 1, bind at 1.
        unfold status_now. unfold_M. rewrite Hget, Hopen. simpl.
        unfold fires in Hfires.
        destruct (bool_decide (SimPosition.pair pos = pair_)); simpl;
          [|reflexivity].
        simpl in Hfires. unfold _check_and_maybe_close. rewrite Hfires.
        reflexivity. }
      cbn [update_price_loop] in Hskip.
      unfold mbind at 1, M_bind at 1, bind at 1 in Hskip.
      unfold status_now in Hskip. unfold_M. rewrite Hget, Hopen in Hskip.
      simpl in Hskip. rewrite Hskip.
      destruct (IH (pre ++ [(k, pos)]) w) as (w' & Hrun & Hp & Hrest).
      { rewrite Hpos, <- app_assoc. reflexivity. }
      { done. }
      exists w'. split; [exact Hrun|]. split; [|exact Hrest].
      rewrite Hp, <- app_assoc. reflexivity.
Qed.

Lemma keys_survivors pair_ price (d : PyDict.t SimPosition.t) :
  PyDict.keys (survivors pair_ price d) ⊆ PyDict.keys d.
Proof.
  induction d as [|[k pos] d IH]; simpl; [done|].
  destruct (fires pair_ price pos); simpl.
  - intros x Hx. right. by apply IH.
  - intros x. rewrite !elem_of_cons. intros [->|Hx]; [by left|].
    right. by apply IH.
Qed.





(** ** Cash conservation *)

Section Conservation.

(** Identifiers are never reused. *)
Hypothesis uuid4_inj : forall i j : nat, uuid4 i = uuid4 j -> i = j.

Lemma wf_boot balance : well_formed uuid4 (boot balance).
Proof.
  split; [|split; [|split]].
  - unfold conserved, open_notional, realized_pnl. simpl. reflexivity.
  - apply NoDup_nil_2.
  - intros k pos H. by apply elem_of_nil in H.
  - intros pos H. by apply elem_of_nil in H.
Qed.

Lemma wf_reset w balance : well_formed uuid4 (snd (reset balance w)).
Proof.
  destruct balance as [b|]; (split; [|split; [|split]]); simpl;
    try (unfold conserved, open_notional, realized_pnl; simpl; reflexivity);
    try apply NoDup_nil_2;
    intros; by match goal with H : _ ∈ [] |- _ => apply elem_of_nil in H end.
Qed.

Lemma wf_pristine w : pristine w -> well_formed uuid4 w.
Proof.
  intros [[b ->]|(w0 & b & ->)]; [apply wf_boot|apply wf_reset].
Qed.

Lemma elem_of_del {V} k0 k (v : V) (d : PyDict.t V) :
  (k, v) ∈ PyDict.del k0 d -> (k, v) ∈ d.
Proof.
  induction d as [|[k' v'] d IH]; simpl; [done|].
  destruct (decide (k0 = k')).
  - intros H. by right.
  - rewrite !elem_of_cons. intros [H|H]; [by left|]. right. auto.
Qed.

Lemma wf_after_close w pos_id pos cp :
  well_formed uuid4 w ->
  PyDict.get pos_id (positions (sim w)) = Some pos ->
  well_formed uuid4 (after_close utcnow w pos_id pos cp).
Proof.
  intros (Hcons & Hok & Hall & Hhist) Hget. split; [|split; [|split]].
  - unfold conserved, open_notional, realized_pnl in *. simpl.
    rewrite map_app, total_app. simpl.
    pose proof (notional_del pos_id (positions (sim w)) pos Hget) as Hn.
    unfold realized at 2. simpl. lra.
  - simpl. by apply PyDictFacts.ok_del.
  - simpl. intros k p Hin. apply elem_of_del in Hin.
    destruct (Hall k p Hin) as ((i & Hi & ->) & Hid & Hst).
    split; [|done]. exists i. done.
  - simpl. intros p Hin. apply elem_of_app in Hin as [Hin|Hin].
    + destruct (Hhist p Hin) as ((i & Hi & Hp) & Hnk & Hst).
      split; [by exists i|]. split; [|done].
      intros Hk. apply Hnk. by apply (PyDictFacts.keys_del pos_id).
    + apply list_elem_of_singleton in Hin. subst p.
      destruct (Hall pos_id pos (PyDictFacts.get_elem_of _ _ _ Hget))
        as ((i & Hi & Hk) & Hid & Hst).
      unfold closed_at_price. simpl. rewrite Hid.
      split; [by exists i|]. split; [|done].
      by apply PyDictFacts.del_not_key.
Qed.

Lemma wf_close_position w pos_id price :
  well_formed uuid4 w ->
  well_formed uuid4 (snd (close_position utcnow pos_id price w)).
Proof.
  intros Hwf.
  destruct (close_position_effect w pos_id price)
    as [[r ->]|(pos & cp & Hget & _ & _ & _ & ->)]; [done|].
  simpl. by apply wf_after_close.
Qed.

Lemma key_elem_of {V} k (d : PyDict.t V) :
  k ∈ PyDict.keys d -> exists v, (k, v) ∈ d.
Proof.
  induction d as [|[k' v'] d IH]; simpl.
  - intros H. by apply elem_of_nil in H.
  - rewrite elem_of_cons. intros [->|H].
    + exists v'. left.
    + destruct (IH H) as [v Hv]. exists v. by right.
Qed.

Lemma wf_fresh_uuid w :
  well_formed uuid4 w ->
  uuid4 (uuid_calls w) ∉ PyDict.keys (positions (sim w)).
Proof.
  intros (_ & _ & Hall & _) Hin.
  apply key_elem_of in Hin as [pos Hin].
  destruct (Hall _ _ Hin) as ((i & Hi & Heq) & _).
  apply uuid4_inj in Heq. lia.
Qed.

Lemma wf_place_order w pair_ side_ notional_ entry_price_ stop_loss_
    take_profit_ :
  well_formed uuid4 w ->
  well_formed uuid4
    (snd (place_order utcnow uuid4 pair_ side_ notional_ entry_price_
            stop_loss_ take_profit_ w)).
Proof.
  intros Hwf. pose proof (wf_fresh_uuid w Hwf) as Hfresh.
  destruct Hwf as (Hcons & Hok & Hall & Hhist).
  unfold place_order.
  destruct (negb _); [done|].
  destruct (Qleb (float notional_) 0); [done|].
  unfold mbind at 1, M_bind at 1, bind at 1, self at 1.
  destruct (Qltb (cash (sim w)) (float notional_)); [done|].
  assert (forall ep : Q,
    well_formed uuid4 (snd (
      (assign (fun s => set_cash (cash s - float notional_) s);;
       id_ ← new_uuid uuid4;
       now ← _now utcnow;
       let pos :=
         SimPosition.mk id_ pair_ (lower side_) (float ep) (float notional_)
           stop_loss_ take_profit_ now "open" None None None in
       assign (fun s =>
         set_positions (PyDict.set (SimPosition.id pos) pos (positions s)) s);;
       mret pos) w))) as Hbody.
  { intros ep. unfold_M. unfold new_uuid, _now. simpl.
    rewrite PyDictFacts.set_fresh by done.
    split; [|split; [|split]]; simpl.
    - unfold conserved, open_notional, realized_pnl in *. simpl.
      unfold PyDict.values in *. rewrite map_app, map_app, total_app. simpl.
      lra.
    - unfold PyDict.ok in *. rewrite keys_app. simpl.
      apply NoDup_app. split; [done|]. split; [|apply NoDup_singleton].
      intros x Hx Hx'. apply list_elem_of_singleton in Hx'. by subst x.
    - intros k pos Hin. apply elem_of_app in Hin as [Hin|Hin].
      + destruct (Hall k pos Hin) as ((i & Hi & ->) & Hid & Hst).
        split; [|done]. exists i. simpl. split; [lia|done].
      + apply list_elem_of_singleton in Hin. injection Hin as -> ->.
        split; [|done]. exists (uuid_calls w). simpl. split; [lia|done].
    - intros pos Hin.
      destruct (Hhist pos Hin) as ((i & Hi & Hp) & Hnk & Hst).
      split; [exists i; simpl; split; [lia|done]|]. split; [|done].
      rewrite keys_app. simpl. intros Hk.
      apply elem_of_app in Hk as [Hk|Hk]; [done|].
      apply list_elem_of_singleton in Hk. rewrite Hp in Hk.
      apply uuid4_inj in Hk. lia. }
  unfold mbind at 1, M_bind at 1, bind at 1.
  destruct entry_price_ as [ep|].
  - apply Hbody.
  - destruct (last_prices (sim w) !! pair_) as [ep|]; [apply Hbody|].
    split; [done|]. split; [done|]. split; done.
Qed.

Lemma wf_check_and_maybe_close w pos price :
  well_formed uuid4 w ->
  well_formed uuid4 (snd (_check_and_maybe_close utcnow pos price w)).
Proof.
  intros Hwf. unfold _check_and_maybe_close.
  destruct (_ || _); [|done].
  pose proof (wf_close_position w (SimPosition.id pos) (Some price) Hwf) as H.
  unfold_M. destruct (close_position _ _ _ w) as [[r|e] w1]; exact H.
Qed.

Lemma wf_update_price_loop snapshot pair_ price w :
  well_formed uuid4 w ->
  well_formed uuid4 (snd (update_price_loop utcnow snapshot pair_ price w)).
Proof.
  revert w. induction snapshot as [|[k pos] snapshot IH]; intros w Hwf;
    [done|].
  cbn [update_price_loop].
  unfold mbind at 1, M_bind at 1, bind at 1.
  assert (exists st, status_now k w = (Return st, w)) as [st ->].
  { unfold status_now. unfold_M. destruct (PyDict.get _ _); by eexists. }
  destruct (_ || _); [by apply IH|].
  pose proof (wf_check_and_maybe_close w pos price Hwf) as H.
  unfold mbind, M_bind, bind.
  destruct (_check_and_maybe_close _ _ _ w) as [[r|e] w1]; simpl in H;
    [by apply IH|done].
Qed.

Lemma wf_update_price w pair_ price :
  well_formed uuid4 w ->
  well_formed uuid4 (snd (update_price utcnow pair_ price w)).
Proof.
  intros Hwf. unfold update_price. unfold_M. simpl.
  apply wf_update_price_loop.
  destruct Hwf as (Hcons & Hok & Hall & Hhist).
  split; [|split; [|split]]; done.
Qed.

Lemma wf_exec c w :
  well_formed uuid4 w -> well_formed uuid4 (exec utcnow uuid4 c w).
Proof.
  intros Hwf. destruct c; simpl.
  - by apply wf_place_order.
  - by apply wf_close_position.
  - by apply wf_update_price.
  - apply wf_reset.
Qed.

Lemma wf_exec_all cs w :
  well_formed uuid4 w -> well_formed uuid4 (exec_all utcnow uuid4 cs w).
Proof.
  revert w. induction cs as [|c cs IH]; intros w Hwf; [done|].
  simpl. apply IH. by apply wf_exec.
Qed.

(** C1. From a freshly constructed or reset account, after every prefix of
    every sequence of [place_order], [close_position], [update_price] (and
    [reset]) calls, whatever their outcomes, cash plus the notional of the
    open positions equals the initial balance plus the pnl realized by the
    positions of the history. *)
Theorem cash_conservation (w0 : World) (cs : list command) (n : nat) :
  pristine w0 ->
  conserved (sim (exec_all utcnow uuid4 (take n cs) w0)).
Proof.
  intros H0. apply (wf_exec_all (take n cs) w0). by apply wf_pristine.
Qed.

(** In a state the account can reach, every stored position is open: the
    branch of [close_position] that returns an already closed position is
    never taken. *)
Lemma stored_positions_open w0 cs k pos :
  pristine w0 ->
  (k, pos) ∈ positions (sim (exec_all utcnow uuid4 cs w0)) ->
  SimPosition.status pos = "open".
Proof.
  intros H0 Hin.
  destruct (wf_exec_all cs w0 (wf_pristine w0 H0)) as (_ & _ & Hall & _).
  by destruct (Hall k pos Hin) as (_ & _ & Hst).
Qed.

(** In a state the account can reach, closing a position of the history
    raises [KeyError] and changes nothing. *)
Lemma close_position_of_history w0 cs pos price :
  pristine w0 ->
  let w := exec_all utcnow uuid4 cs w0 in
  pos ∈ trade_history (sim w) ->
  close_position utcnow (SimPosition.id pos) price w
  = (Raise (KeyError (SimPosition.id pos)), w).
Proof.
  intros H0 w Hin.
  destruct (wf_exec_all cs w0 (wf_pristine w0 H0)) as (_ & _ & _ & Hhist).
  destruct (Hhist pos Hin) as (_ & Hnk & _).
  apply close_position_missing. by apply PyDictFacts.get_not_key.
Qed.

End Conservation.

(** ** History summary *)

Lemma count_if_filter {A} (test : A -> bool) (P : A -> Prop)
    `{!forall x, Decision (P x)} (l : list A) :
  (forall x, test x = true <-> P x) ->
  count_if test l = length (filter P l).
Proof.
  intros Htest. unfold count_if.
  enough (forall n, fold_left (fun n t => if test t then (n + 1)%nat else n) l n
                    = (n + length (filter P l))%nat) as Hgen by apply Hgen.
  induction l as [|x l IH]; intros n; simpl; [lia|].
  rewrite IH. rewrite filter_cons.
  destruct (test x) eqn:E.
  - rewrite decide_True by (by apply Htest). simpl. lia.
  - rewrite decide_False; [lia|]. intros HP. apply Htest in HP. congruence.
Qed.


Lemma slice_from_0 {A} (l : list A) : slice_from (- 0) l = l.
Proof.
  unfold slice_from. simpl. rewrite Z.min_l by lia. reflexivity.
Qed.

Lemma of_int_nonzero n : (0 < n)%nat -> ~ of_int n == 0.
Proof.
  intros Hn. unfold of_int, Qeq. simpl. lia.
Qed.

Lemma map_or_zero ts :
  Forall2 Qeq (map (fun t => or_zero (SimPosition.pnl t)) ts) (map realized ts).
Proof.
  induction ts as [|t ts IH]; simpl; constructor; [|done].
  apply or_zero_realized.
Qed.

(** What [trade_history_summary] returns, in terms of the window of trades
    it selects. *)
Lemma trade_history_summary_spec w limit :
  exists sm,
    trade_history_summary limit w = (Return sm, w) /\
    trades sm = slice_from (- limit) (trade_history (sim w)) /\
    total_trades sm = length (trades sm) /\
    wins sm = length (winners (trades sm)) /\
    losses sm = length (losers (trades sm)) /\
    (trades sm = [] -> win_rate sm = 0) /\
    (trades sm <> [] ->
     win_rate sm = of_int (wins sm) / of_int (total_trades sm)) /\
    total_pnl sm == total (map realized (trades sm)).
Proof.
  unfold trade_history_summary.
  set (ts := slice_from (- limit) (trade_history (sim w))).
  assert (count_if (fun t => Qltb 0 (or_zero (SimPosition.pnl t))) ts
          = length (winners ts)) as Hwins.
  { apply count_if_filter. intros t.
    rewrite Qltb_lt, or_zero_realized. done. }
  assert (count_if (fun t => Qltb (or_zero (SimPosition.pnl t)) 0) ts
          = length (losers ts)) as Hlosses.
  { apply count_if_filter. intros t.
    rewrite Qltb_lt, or_zero_realized. done. }
  assert (sum (map (fun t => or_zero (SimPosition.pnl t)) ts)
          == total (map realized ts)) as Hpnl.
  { rewrite sum_total. apply total_Proper, map_or_zero. }
  unfold mbind at 1, M_bind at 1, bind at 1, self at 1. fold ts.
  destruct ts as [|t ts'] eqn:Hts.
  - eexists. split; [reflexivity|]. simpl. repeat split; try done.
  - assert (Qeq_bool (of_int (length (t :: ts'))) 0 = false) as Hnz.
    { apply Qeq_bool_false, of_int_nonzero. simpl. lia. }
    assert ((0 <? length (t :: ts'))%nat = true) as -> by done.
    unfold_M. rewrite Hnz.
    eexists. split; [reflexivity|]. cbn [trades total_trades wins losses
      win_rate total_pnl].
    repeat split; try done.
Qed.




(** C9. With [limit = 0] the window is the whole history: the summary
    counts every closed trade and its aggregates range over all of them. *)
Theorem trade_history_summary_limit_zero (w : World) :
  exists sm,
    trade_history_summary 0 w = (Return sm, w) /\
    trades sm = trade_history (sim w) /\
    total_trades sm = length (trade_history (sim w)) /\
    wins sm = length (winners (trade_history (sim w))) /\
    losses sm = length (losers (trade_history (sim w))) /\
    (trade_history (sim w) <> [] ->
     win_rate sm
     == of_int (length (winners (trade_history (sim w))))
        / of_int (length (trade_history (sim w)))) /\
    total_pnl sm == total (map realized (trade_history (sim w))).
Proof.
  destruct (trade_history_summary_spec w 0)
    as (sm & Hrun & Htr & Htot & Hw & Hl & Hr0 & Hr & Hpnl).
  rewrite slice_from_0 in Htr. rewrite Htr in *.
  exists sm. repeat (split; [done|]).
  split; [|done].
  intros H. rewrite (Hr H), Hw, Htot. reflexivity.
Qed.

(** ** Equity and the tools built on it *)

Lemma equity_loop_pure values unrealized w :
  snd (_equity_loop values unrealized w) = w.
Proof.
  revert unrealized. induction values as [|pos values IH]; intros u; [done|].
  cbn [_equity_loop]. unfold mbind at 1, M_bind at 1, bind at 1, self at 1.
  destruct (last_prices (sim w) !! SimPosition.pair pos) as [price|];
    [|apply IH].
  destruct (negb _); [apply IH|].
  unfold mbind, M_bind, bind.
  pose proof (calc_pnl_pure w pos price) as Hpure.
  destruct (_calc_pnl_price pos price w) as [[v|e] w1]; simpl in Hpure;
    subst w1; [apply IH|done].
Qed.

Lemma equity_pure w : snd (_equity w) = w.
Proof.
  unfold _equity. unfold mbind at 1, M_bind at 1, bind at 1, self at 1.
  unfold mbind at 1, M_bind at 1, bind at 1.
  pose proof (equity_loop_pure (PyDict.values (positions (sim w))) 0 w) as H.
  destruct (_equity_loop _ _ w) as [[v|e] w1]; simpl in H; subst w1; done.
Qed.

Lemma portfolio_state_equity w equity :
  fst (_equity w) = Return equity ->
  exists pf,
    portfolio_state w = (Return pf, w) /\ pf_equity pf = equity /\
    pf_cash pf = cash (sim w).
Proof.
  intros He. unfold portfolio_state.
  unfold mbind at 1, M_bind at 1, bind at 1, self at 1.
  unfold mbind, M_bind, bind.
  pose proof (equity_pure w) as Hpure.
  destruct (_equity w) as [r w1]. simpl in *. subst w1 r.
  eexists. split; [reflexivity|]. done.
Qed.

Lemma portfolio_state_pure w : snd (portfolio_state w) = w.
Proof.
  unfold portfolio_state.
  unfold mbind at 1, M_bind at 1, bind at 1, self at 1.
  unfold mbind, M_bind, bind.
  pose proof (equity_pure w) as Hpure.
  destruct (_equity w) as [[v|e] w1]; simpl in *; by subst w1.
Qed.

Lemma portfolio_state_failed w e :
  fst (_equity w) = Raise e -> portfolio_state w = (Raise e, w).
Proof.
  intros He. unfold portfolio_state.
  unfold mbind at 1, M_bind at 1, bind at 1, self at 1.
  unfold mbind, M_bind, bind.
  pose proof (equity_pure w) as Hpure.
  destruct (_equity w) as [r w1]. simpl in *. by subst w1 r.
Qed.

(** C6. When the equity is positive, the risk percentage is positive, a
    non-zero last price is recorded for the market and the stop distance
    [|1 - stop_loss / last_price|] is not zero, [suggest_notional_from_risk]
    answers with a success carrying
    [risk_amount = equity * risk_percent / 100] and
    [notional = risk_amount / stop_distance], and leaves the state as it
    was. *)
Theorem suggest_notional_sizing (w : World) (risk_percent : Q)
    (pair_ : string) (stop_loss_ equity last_price : Q) :
  fst (_equity w) = Return equity ->
  0 < equity ->
  0 < risk_percent ->
  last_prices (sim w) !! pair_ = Some last_price ->
  ~ last_price == 0 ->
  ~ Qabs (1 - stop_loss_ / last_price) == 0 ->
  exists sz,
    suggest_notional_from_risk risk_percent pair_ stop_loss_ w
    = (Return (Success sz), w) /\
    sz_risk_amount sz == equity * risk_percent / 100 /\
    sz_notional sz
    == sz_risk_amount sz / Qabs (1 - stop_loss_ / last_price) /\
    sz_equity sz = equity /\
    sz_last_price sz = last_price.
Proof.
  intros He Hequity Hrisk Hlast Hlp Hdist.
  destruct (portfolio_state_equity w equity He) as (pf & Hpf & Heq & _).
  unfold suggest_notional_from_risk, try_except.
  unfold mbind at 1, M_bind at 1, bind at 1. rewrite Hpf.
  unfold float. rewrite Heq.
  apply Qleb_gt in Hequity as Hequity'. rewrite Hequity'.
  unfold mbind at 1, M_bind at 1, bind at 1, self at 1. rewrite Hlast.
  unfold mbind at 1, M_bind at 1, bind at 1.
  unfold div at 1. change (Qeq_bool 100 0) with false. unfold ret at 1.
  assert (0 < risk_percent / 100) as Hfrac.
  { apply Qlt_shift_div_l; [reflexivity|]. lra. }
  apply Qleb_gt in Hfrac as Hfrac'. rewrite Hfrac'.
  unfold mbind at 1, M_bind at 1, bind at 1.
  unfold div at 1. rewrite (Qeq_bool_false _ _ Hlp). unfold ret at 1.
  assert (0 < Qabs (1 - stop_loss_ / last_price)) as Hpos.
  { pose proof (Qabs_nonneg (1 - stop_loss_ / last_price)) as Hnn.
    apply Qle_lt_or_eq in Hnn as [Hlt|Heq0]; [done|].
    exfalso. apply Hdist. by symmetry. }
  apply Qleb_gt in Hpos as Hpos'. rewrite Hpos'.
  unfold mbind at 1, M_bind at 1, bind at 1.
  unfold div at 1. rewrite (Qeq_bool_false _ _ Hdist). unfold ret at 1.
  eexists. split; [reflexivity|]. simpl.
  split; [|done]. unfold Qdiv. ring.
Qed.

(** C10. Through [sim_place_order], a notional above
    [MAX_NOTIONAL_FRACTION] (a fifth) of the current equity is answered with
    an error and the state is left as it was, however much cash there is;
    and whenever the answer is a success the notional was at most a fifth
    of the equity before the call. *)
Theorem sim_place_order_cap (w : World) (pair_ side_ : string)
    (notional_ : Q) (entry_price_ stop_loss_ take_profit_ : option Q) :
  (forall equity,
    fst (_equity w) = Return equity ->
    equity * MAX_NOTIONAL_FRACTION < notional_ ->
    sim_place_order utcnow uuid4 pair_ side_ notional_ entry_price_
      stop_loss_ take_profit_ w
    = (Return
         (Error (NotionalTooLarge notional_ (equity * MAX_NOTIONAL_FRACTION))),
       w)) /\
  (forall r w',
    sim_place_order utcnow uuid4 pair_ side_ notional_ entry_price_
      stop_loss_ take_profit_ w
    = (Return (Success r), w') ->
    exists equity,
      fst (_equity w) = Return equity /\
      notional_ <= equity * MAX_NOTIONAL_FRACTION).
Proof.
  split.
  - intros equity He Hcap.
    destruct (portfolio_state_equity w equity He) as (pf & Hpf & Heq & _).
    unfold sim_place_order, try_except.
    unfold mbind at 1, M_bind at 1, bind at 1. rewrite Hpf.
    unfold float. rewrite Heq.
    apply Qltb_lt in Hcap. rewrite Hcap. reflexivity.
  - intros r w'. unfold sim_place_order, try_except.
    unfold mbind at 1, M_bind at 1, bind at 1.
    destruct (fst (_equity w)) as [equity|e] eqn:He.
    + destruct (portfolio_state_equity w equity He) as (pf & Hpf & Heq & _).
      rewrite Hpf. unfold float. rewrite Heq.
      destruct (Qltb (equity * MAX_NOTIONAL_FRACTION) notional_) eqn:Hcap.
      * unfold_M. intros [=].
      * intros _. exists equity. split; [done|]. by apply Qltb_ge.
    + rewrite (portfolio_state_failed w e He). unfold_M. intros [=].
Qed.

(** ** Reset *)

(** C8. [reset] always returns; afterwards cash and the stored initial
    balance are the supplied balance, or the previous initial balance when
    none is supplied, and the open positions, the trade history and the
    last prices are empty. *)
Theorem reset_clears_state (w : World) (initial_balance_ : option Q) :
  exists w',
    reset initial_balance_ w = (Return tt, w') /\
    initial_balance (sim w') =
      default (initial_balance (sim w)) initial_balance_ /\
    cash (sim w') = default (initial_balance (sim w)) initial_balance_ /\
    positions (sim w') = [] /\
    trade_history (sim w') = [] /\
    last_prices (sim w') = ∅.
Proof.
  destruct initial_balance_ as [b|]; eexists; (split; [reflexivity|]);
    simpl; auto.
Qed.

(** ** Insufficient funds *)

(** C5. With a valid side and a positive notional larger than the cash,
    [place_order] raises the [ValueError] for insufficient cash and leaves
    the whole state as it was. *)
Theorem place_order_insufficient_funds (w : World) (pair_ side_ : string)
    (notional_ : Q) (entry_price_ stop_loss_ take_profit_ : option Q) :
  lower side_ = "long" \/ lower side_ = "short" ->
  0 < notional_ ->
  cash (sim w) < notional_ ->
  place_order utcnow uuid4 pair_ side_ notional_ entry_price_ stop_loss_
    take_profit_ w
  = (Raise (ValueError (InsufficientCash notional_ (cash (sim w)))), w).
Proof.
  intros Hside Hpos Hcash. unfold place_order.
  assert (bool_decide (lower side_ = "long")
          || bool_decide (lower side_ = "short") = true) as ->.
  { destruct Hside as [-> | ->]; reflexivity. }
  simpl. unfold float.
  apply Qleb_gt in Hpos. rewrite Hpos.
  apply Qltb_lt in Hcash. unfold_M. simpl. rewrite Hcash. reflexivity.
Qed.

End Proofs.

(** * Sample runs *)

Lemma ids_inj (i j : nat) : ids i = ids j -> i = j.
Proof. apply pretty_nat_inj. Qed.

Lemma long_world_positions :
  positions (sim long_world) = [("0", long_position)].
Proof. vm_compute. reflexivity. Qed.

Lemma short_world_positions :
  positions (sim short_world) = [("0", short_position)].
Proof. vm_compute. reflexivity. Qed.

Lemma open_book_singleton k pos :
  SimPosition.id pos = k -> SimPosition.status pos = "open" ->
  0 < SimPosition.entry_price pos ->
  open_book [(k, pos)].
Proof.
  intros Hid Hst Hentry. split.
  - apply NoDup_singleton.
  - intros k' pos' Hin. apply list_elem_of_singleton in Hin.
    injection Hin as -> ->. done.
Qed.

(** C2. An account of 10000 opens a long position of 1000 at 100; it gets
    the identifier ["0"].  Closing ["0"] at 110 returns the closed position
    and appends it to the history.  Closing ["0"] again does not return that
    position: it raises [KeyError], the state being left as it was. *)
Theorem close_closed_position_raises :
  exists closed w1,
    close_position clock "0" (Some 110) long_world = (Return closed, w1) /\
    SimPosition.status closed = "closed" /\
    trade_history (sim w1) = [closed] /\
    close_position clock "0" (Some 110) w1 = (Raise (KeyError "0"), w1).
Proof.
  assert (PyDict.get "0" (positions (sim long_world)) = Some long_position)
    as Hget by (by rewrite long_world_positions).
  assert (pnl_defined long_position 110) as Hdef.
  { apply positive_pnl_defined; reflexivity. }
  exists (closed_at_price clock long_world long_position 110),
    (after_close clock long_world "0" long_position 110).
  split; [by apply close_position_open|].
  split; [reflexivity|]. split; [reflexivity|].
  apply close_position_missing. unfold after_close. cbn [sim positions].
  rewrite long_world_positions. reflexivity.
Qed.

Lemma cash_conservation_witness :
  pristine (boot 10000) /\
  conserved (sim (exec_all clock ids (take 5 session) (boot 10000))).
Proof.
  assert (pristine (boot 10000)) as H0 by (left; by exists 10000).
  split; [exact H0|].
  exact (cash_conservation clock ids ids_inj (boot 10000) session 5 H0).
Defined.


Lemma close_position_pnl_witness :
  exists pos' w' pnl,
    close_position clock "0" (Some 80) short_world = (Return pos', w') /\
    SimPosition.pnl pos' = Some pnl /\
    pnl == 250 /\
    cash (sim w') == 9000 + (1000 + 250).
Proof.
  assert (PyDict.get "0" (positions (sim short_world)) = Some short_position)
    as Hget by (by rewrite short_world_positions).
  destruct (close_position_pnl clock short_world "0" (Some 80)
              short_position 80 Hget eq_refl eq_refl eq_refl eq_refl)
    as (pos' & w' & pnl & Hrun & _ & _ & Hpnl & _ & Hshort & Hcash & _).
  exists pos', w', pnl. split; [exact Hrun|]. split; [exact Hpnl|].
  assert (pnl == 250) as H250.
  { rewrite (Hshort eq_refl). vm_compute. reflexivity. }
  split; [exact H250|].
  rewrite Hcash, H250. vm_compute. reflexivity.
Defined.

Lemma place_order_insufficient_funds_witness :
  cash (sim (boot 10000)) < 20000 /\
  place_order clock ids "BTC/USDT" "Long" 20000 (Some 100) None None
    (boot 10000)
  = (Raise (ValueError (InsufficientCash 20000 10000)), boot 10000).
Proof.
  assert (cash (sim (boot 10000)) < 20000) as Hcash by reflexivity.
  split; [exact Hcash|].
  apply (place_order_insufficient_funds clock ids (boot 10000) "BTC/USDT"
           "Long" 20000 (Some 100) None None).
  - left. reflexivity.
  - reflexivity.
  - exact Hcash.
Defined.

Lemma suggest_notional_sizing_witness :
  exists sz,
    suggest_notional_from_risk 1 "BTC/USDT" 95 priced_world
    = (Return (Success sz), priced_world) /\
    sz_equity sz == 10000 /\
    sz_risk_amount sz == 100 /\
    sz_notional sz == 2000.
Proof.
  assert (fst (_equity priced_world) = Return (10000 + 0)) as He
    by (vm_compute; reflexivity).
  assert (last_prices (sim priced_world) !! "BTC/USDT" = Some 100) as Hlast
    by (vm_compute; reflexivity).
  assert (~ 100 == 0) as Hlp by (intros H; discriminate H).
  assert (~ Qabs (1 - 95 / 100) == 0) as Hdist
    by (intros H; vm_compute in H; discriminate H).
  destruct (suggest_notional_sizing priced_world 1 "BTC/USDT" 95 (10000 + 0)
              100 He eq_refl eq_refl Hlast Hlp Hdist)
    as (sz & Hrun & Hrisk & Hnot & Heq & _).
  exists sz. split; [exact Hrun|].
  split; [rewrite Heq; vm_compute; reflexivity|].
  assert (sz_risk_amount sz == 100) as H100
    by (rewrite Hrisk; vm_compute; reflexivity).
  split; [exact H100|].
  rewrite Hnot, H100. vm_compute. reflexivity.
Defined.

Lemma sim_place_order_cap_witness :
  2500 <= cash (sim (boot 10000)) /\
  sim_place_order clock ids "BTC/USDT" "long" 2500 (Some 100) None None
    (boot 10000)
  = (Return
       (Error (NotionalTooLarge 2500 ((10000 + 0) * MAX_NOTIONAL_FRACTION))),
     boot 10000).
Proof.
  split; [unfold Qle; simpl; lia|].
  apply (proj1 (sim_place_order_cap clock ids (boot 10000) "BTC/USDT" "long"
                  2500 (Some 100) None None)).
  - vm_compute. reflexivity.
  - reflexivity.
Defined.

(** The sample session, step by step: the stop of the long is hit at 89,
    the short is closed by hand at 80, and closing it again fails. *)
Example session_run :
  let w := exec_all clock ids session (boot 10000) in
  cash (sim w) == 10140 /\
  positions (sim w) = [] /\
  map SimPosition.id (trade_history (sim w)) = ["0"; "1"] /\
  Forall2 Qeq (map realized (trade_history (sim w))) [- 110; 250] /\
  fst (close_position clock "1" (Some 80) w) = Raise (KeyError "1").
Proof.
  vm_compute. repeat split; try reflexivity.
  repeat constructor; reflexivity.
Qed.

(** The summary ranges over the window, not over the history: the last
    trade alone, the whole history for [limit = 0], nothing for a new
    account. *)
Example summary_last_trade :
  exists sm,
    fst (trade_history_summary 1 (exec_all clock ids session (boot 10000)))
    = Return sm /\
    total_trades sm = 1%nat /\ wins sm = 1%nat /\ losses sm = 0%nat /\
    win_rate sm == 1 /\ total_pnl sm == 250.
Proof. eexists. split; [vm_compute; reflexivity|]. by vm_compute. Qed.

Example summary_whole_history :
  exists sm,
    fst (trade_history_summary 0 (exec_all clock ids session (boot 10000)))
    = Return sm /\
    total_trades sm = 2%nat /\ wins sm = 1%nat /\ losses sm = 1%nat /\
    win_rate sm == 1 # 2 /\ total_pnl sm == 140.
Proof. eexists. split; [vm_compute; reflexivity|]. by vm_compute. Qed.

Example summary_new_account :
  exists sm,
    fst (trade_history_summary 50 (boot 10000)) = Return sm /\
    total_trades sm = 0%nat /\ win_rate sm = 0 /\ total_pnl sm = 0.
Proof. eexists. split; [vm_compute; reflexivity|]. by vm_compute. Qed.

(** A zero price is outside the data model: a long position entered at 0
    makes [close_position] raise [ZeroDivisionError], leaving the state as
    it was. *)
Example close_position_zero_entry :
  let w := exec clock ids
             (PlaceOrder "BTC/USDT" "long" 1000 (Some 0) None None)
             (boot 10000) in
  close_position clock "0" (Some 100) w = (Raise ZeroDivisionError, w).
Proof. vm_compute. reflexivity. Qed.

(** * More about the ledger *)

Lemma get_set_eq {V} k (v : V) (d : PyDict.t V) :
  PyDict.get k (PyDict.set k v d) = Some v.
Proof.
  induction d as [|[k' v'] d IH]; simpl.
  - by rewrite decide_True.
  - destruct (decide (k = k')) as [->|Hne]; simpl.
    + by rewrite decide_True.
    + by rewrite decide_False.
Qed.

Lemma get_set_ne {V} k k0 (v : V) (d : PyDict.t V) :
  k0 <> k -> PyDict.get k0 (PyDict.set k v d) = PyDict.get k0 d.
Proof.
  intros Hne. induction d as [|[k' v'] d IH]; simpl.
  - by rewrite decide_False.
  - destruct (decide (k = k')) as [->|Hne']; simpl.
    + by rewrite !decide_False.
    + destruct (decide (k0 = k')); [done|]. exact IH.
Qed.

Lemma valid_side_accepted side_ :
  valid_side side_ ->
  negb (bool_decide (lower side_ = "long")
        || bool_decide (lower side_ = "short")) = false.
Proof. intros [-> | ->]; reflexivity. Qed.

Lemma invalid_side_rejected side_ :
  ~ valid_side side_ ->
  negb (bool_decide (lower side_ = "long")
        || bool_decide (lower side_ = "short")) = true.
Proof.
  intros H. apply negb_true_iff, orb_false_iff.
  split; apply bool_decide_eq_false; intros Heq; apply H; [by left|by right].
Qed.

Section MoreLedger.

Variable utcnow : nat -> Z.
Variable uuid4 : nat -> string.

Lemma place_order_success w pair_ side_ notional_ entry_price_ stop_loss_
    take_profit_ ep :
  valid_side side_ ->
  0 < notional_ ->
  notional_ <= cash (sim w) ->
  entry_used w pair_ entry_price_ = Some ep ->
  let pos := opened utcnow uuid4 w pair_ side_ notional_ ep stop_loss_
               take_profit_ in
  place_order utcnow uuid4 pair_ side_ notional_ entry_price_ stop_loss_
    take_profit_ w
  = (Return pos, after_open w pos).
Proof.
  intros Hside Hpos Hcash Hentry pos. unfold place_order.
  rewrite (valid_side_accepted _ Hside). unfold float.
  apply Qleb_gt in Hpos. rewrite Hpos.
  unfold mbind at 1, M_bind at 1, bind at 1, self at 1.
  apply Qltb_ge in Hcash. rewrite Hcash.
  unfold entry_used in Hentry.
  destruct entry_price_ as [p|].
  - injection Hentry as ->. reflexivity.
  - unfold mbind at 1, M_bind at 1, bind at 1. rewrite Hentry. reflexivity.
Qed.

(** X1. A valid order that the cash covers and that has an entry price
    (given, or the last price of the market) is filled: the new position is
    open, carries the lower-cased side, the entry price and the notional,
    has no close data, and is stored under its fresh identifier; cash drops
    by the notional; the other positions, the history and the last prices
    are untouched. *)
Theorem place_order_opens (w : World) (pair_ side_ : string) (notional_ : Q)
    (entry_price_ stop_loss_ take_profit_ : option Q) (ep : Q) :
  valid_side side_ ->
  0 < notional_ ->
  notional_ <= cash (sim w) ->
  entry_used w pair_ entry_price_ = Some ep ->
  exists pos w',
    place_order utcnow uuid4 pair_ side_ notional_ entry_price_ stop_loss_
      take_profit_ w
    = (Return pos, w') /\
    SimPosition.id pos = uuid4 (uuid_calls w) /\
    SimPosition.pair pos = pair_ /\
    SimPosition.side pos = lower side_ /\
    SimPosition.entry_price pos = ep /\
    SimPosition.notional pos = notional_ /\
    SimPosition.stop_loss pos = stop_loss_ /\
    SimPosition.take_profit pos = take_profit_ /\
    SimPosition.status pos = "open" /\
    SimPosition.close_price pos = None /\
    SimPosition.pnl pos = None /\
    cash (sim w') = cash (sim w) - notional_ /\
    PyDict.get (SimPosition.id pos) (positions (sim w')) = Some pos /\
    (forall k, k <> SimPosition.id pos ->
      PyDict.get k (positions (sim w')) = PyDict.get k (positions (sim w))) /\
    trade_history (sim w') = trade_history (sim w) /\
    last_prices (sim w') = last_prices (sim w).
Proof.
  intros Hside Hpos Hcash Hentry.
  eexists _, _. split; [by apply place_order_success|].
  simpl. repeat (split; [reflexivity|]).
  split; [apply get_set_eq|]. split; [|done].
  intros k Hk. by apply get_set_ne.
Qed.

(** X2. Opening a position and closing it at once at its entry price is
    neutral: the pnl is zero, cash is back to what it was and so is the set
    of open positions; the closed position is the one new entry of the
    history. *)
Theorem open_close_round_trip (w : World) (pair_ side_ : string)
    (notional_ : Q) (entry_price_ stop_loss_ take_profit_ : option Q)
    (ep : Q) :
  valid_side side_ ->
  0 < notional_ ->
  notional_ <= cash (sim w) ->
  entry_used w pair_ entry_price_ = Some ep ->
  ~ ep == 0 ->
  uuid4 (uuid_calls w) ∉ PyDict.keys (positions (sim w)) ->
  exists pos w1 closed w2 pnl,
    place_order utcnow uuid4 pair_ side_ notional_ entry_price_ stop_loss_
      take_profit_ w
    = (Return pos, w1) /\
    close_position utcnow (SimPosition.id pos) (Some ep) w1
    = (Return closed, w2) /\
    SimPosition.pnl closed = Some pnl /\
    pnl == 0 /\
    cash (sim w2) == cash (sim w) /\
    positions (sim w2) = positions (sim w) /\
    trade_history (sim w2) = trade_history (sim w) ++ [closed].
Proof.
  intros Hside Hpos Hcash Hentry Hep Hfresh.
  set (pos := opened utcnow uuid4 w pair_ side_ notional_ ep stop_loss_
                take_profit_).
  assert (pnl_defined pos ep) as Hdef.
  { unfold pnl_defined. by destruct (decide _). }
  assert (pnl_formula pos ep == 0) as Hzero.
  { unfold pnl_formula. destruct (decide _); simpl; field; exact Hep. }
  exists pos, (after_open w pos),
    (closed_at_price utcnow (after_open w pos) pos ep),
    (after_close utcnow (after_open w pos) (SimPosition.id pos) pos ep),
    (pnl_formula pos ep).
  split; [by apply place_order_success|].
  split.
  { apply close_position_open; [apply get_set_eq|done|done|done]. }
  split; [reflexivity|]. split; [exact Hzero|].
  split; [simpl; rewrite Hzero; ring|].
  split; [|reflexivity].
  simpl. rewrite PyDictFacts.set_fresh by done.
  rewrite PyDictFacts.del_app_fresh by done. simpl.
  rewrite decide_True by done. apply app_nil_r.
Qed.

(** The five ways [place_order] can go. *)
Lemma place_order_cases w pair_ side_ notional_ entry_price_ stop_loss_
    take_profit_ :
  let run := place_order utcnow uuid4 pair_ side_ notional_ entry_price_
               stop_loss_ take_profit_ w in
  (~ valid_side side_ /\ run = (Raise (ValueError BadSide), w)) \/
  (valid_side side_ /\ notional_ <= 0 /\
   run = (Raise (ValueError NonPositiveNotional), w)) \/
  (valid_side side_ /\ 0 < notional_ /\ cash (sim w) < notional_ /\
   run = (Raise (ValueError (InsufficientCash notional_ (cash (sim w)))), w)) \/
  (valid_side side_ /\ 0 < notional_ /\ notional_ <= cash (sim w) /\
   entry_price_ = None /\ last_prices (sim w) !! pair_ = None /\
   run = (Raise (ValueError (NoLastPrice pair_)), w)) \/
  (exists ep,
    valid_side side_ /\ 0 < notional_ /\ notional_ <= cash (sim w) /\
    entry_used w pair_ entry_price_ = Some ep /\
    let pos := opened utcnow uuid4 w pair_ side_ notional_ ep stop_loss_
                 take_profit_ in
    run = (Return pos, after_open w pos)).
Proof.
  intros run. subst run.
  assert (valid_side side_ \/ ~ valid_side side_) as [Hside|Hside].
  { unfold valid_side.
    destruct (decide (lower side_ = "long")); [by left; left|].
    destruct (decide (lower side_ = "short")); [by left; right|].
    right. intros [H|H]; done. }
  2:{ left. split; [done|].
      unfold place_order. by rewrite (invalid_side_rejected _ Hside). }
  right.
  destruct (Qlt_le_dec 0 notional_) as [Hpos|Hpos].
  2:{ left. split; [done|]. split; [done|].
      unfold place_order. rewrite (valid_side_accepted _ Hside). unfold float.
      apply Qleb_le in Hpos. by rewrite Hpos. }
  right.
  destruct (Qlt_le_dec (cash (sim w)) notional_) as [Hcash|Hcash].
  { left. repeat (split; [done|]).
    by apply place_order_insufficient_funds. }
  right.
  destruct (entry_used w pair_ entry_price_) as [ep|] eqn:Hentry.
  { right. exists ep. repeat (split; [done|]).
    by apply place_order_success. }
  left. unfold entry_used in Hentry. destruct entry_price_ as [p|]; [done|].
  repeat (split; [done|]).
  unfold place_order. rewrite (valid_side_accepted _ Hside). unfold float.
  apply Qleb_gt in Hpos. rewrite Hpos.
  unfold mbind at 1, M_bind at 1, bind at 1, self at 1.
  apply Qltb_ge in Hcash. rewrite Hcash.
  unfold mbind at 1, M_bind at 1, bind at 1. by rewrite Hentry.
Qed.

(** X3. A failed [place_order] changes nothing, and it fails in exactly
    four ways, each a [ValueError]: the side is neither long nor short; the
    notional is not positive; the notional exceeds the cash; no entry price
    is given and the market has no last price. *)
Theorem place_order_failure (w w' : World) (pair_ side_ : string)
    (notional_ : Q) (entry_price_ stop_loss_ take_profit_ : option Q)
    (e : exn) :
  place_order utcnow uuid4 pair_ side_ notional_ entry_price_ stop_loss_
    take_profit_ w
  = (Raise e, w') ->
  w' = w /\
  ((e = ValueError BadSide /\ ~ valid_side side_) \/
   (e = ValueError NonPositiveNotional /\ valid_side side_ /\
    notional_ <= 0) \/
   (e = ValueError (InsufficientCash notional_ (cash (sim w))) /\
    valid_side side_ /\ 0 < notional_ /\ cash (sim w) < notional_) \/
   (e = ValueError (NoLastPrice pair_) /\
    valid_side side_ /\ 0 < notional_ /\ notional_ <= cash (sim w) /\
    entry_price_ = None /\ last_prices (sim w) !! pair_ = None)).
Proof.
  destruct (place_order_cases w pair_ side_ notional_ entry_price_ stop_loss_
              take_profit_)
    as [(H1 & ->)|[(H1 & H2 & ->)|[(H1 & H2 & H3 & ->)|
        [(H1 & H2 & H3 & H4 & H5 & ->)|(ep & _ & _ & _ & _ & ->)]]]];
    intros [= <- <-].
  - split; [done|]. left. done.
  - split; [done|]. right; left. done.
  - split; [done|]. right; right; left. done.
  - split; [done|]. right; right; right. done.
Qed.

(** X4. A failed [close_position] changes nothing, and it fails in exactly
    three ways: [KeyError] when the identifier is not a key of the open
    positions; [ValueError] when no price is given and the market of the
    position has no last price; [ZeroDivisionError] when the divisor of the
    pnl formula (entry price for a long, close price otherwise) is zero. *)
Theorem close_position_failure (w w' : World) (pos_id : string)
    (price : option Q) (e : exn) :
  close_position utcnow pos_id price w = (Raise e, w') ->
  w' = w /\
  ((e = KeyError pos_id /\ PyDict.get pos_id (positions (sim w)) = None) \/
   exists pos,
     PyDict.get pos_id (positions (sim w)) = Some pos /\
     SimPosition.status pos = "open" /\
     ((e = ValueError (NoLastPrice (SimPosition.pair pos)) /\
       price = None /\
       last_prices (sim w) !! SimPosition.pair pos = None) \/
      (e = ZeroDivisionError /\
       exists cp, exit_price w pos price = Some cp /\ ~ pnl_defined pos cp))).
Proof.
  destruct (PyDict.get pos_id (positions (sim w))) as [pos|] eqn:Hget.
  2:{ rewrite close_position_missing by done. intros [= <- <-].
      split; [done|]. by left. }
  destruct (decide (SimPosition.status pos = "open")) as [Hopen|Hclosed].
  2:{ rewrite (close_position_not_open utcnow w pos_id price pos) by done.
      intros [=]. }
  destruct (exit_price w pos price) as [cp|] eqn:Hprice.
  2:{ rewrite (close_position_no_price utcnow w pos_id price pos) by done.
      intros [= <- <-]. split; [done|]. right. exists pos.
      split; [done|]. split; [done|]. left.
      unfold exit_price in Hprice. by destruct price. }
  destruct (pnl_defined_dec pos cp) as [Hdef|Hdef].
  { rewrite (close_position_open utcnow w pos_id price pos cp) by done. intros [=]. }
  rewrite (close_position_zero_division utcnow w pos_id price pos cp) by done.
  intros [= <- <-]. split; [done|]. right. exists pos.
  split; [done|]. split; [done|]. right. split; [done|]. by exists cp.
Qed.

(** ** Price ingestion, again *)

Lemma closes_only_refl w : closes_only w w.
Proof. repeat split; done. Qed.

Lemma closes_only_trans w1 w2 w3 :
  closes_only w1 w2 -> closes_only w2 w3 -> closes_only w1 w3.
Proof.
  intros (Hi & Hl & Hu & Hp & Hh) (Hi' & Hl' & Hu' & Hp' & Hh').
  split; [congruence|]. split; [congruence|]. split; [congruence|].
  split; [auto|]. by etrans.
Qed.

Lemma closes_only_after_close w pos_id pos cp :
  closes_only w (after_close utcnow w pos_id pos cp).
Proof.
  repeat split; simpl; try done.
  - intros k p Hin. by apply elem_of_del in Hin.
  - by apply prefix_app_r.
Qed.

Lemma closes_only_close_position w pos_id price :
  closes_only w (snd (close_position utcnow pos_id price w)).
Proof.
  destruct (close_position_effect utcnow w pos_id price)
    as [[r ->]|(pos & cp & _ & _ & _ & _ & ->)].
  - apply closes_only_refl.
  - apply closes_only_after_close.
Qed.

Lemma closes_only_check w pos price :
  closes_only w (snd (_check_and_maybe_close utcnow pos price w)).
Proof.
  unfold _check_and_maybe_close.
  destruct (_ || _); [|apply closes_only_refl].
  pose proof (closes_only_close_position w (SimPosition.id pos) (Some price))
    as H.
  unfold_M. destruct (close_position _ _ _ w) as [[r|e] w1]; exact H.
Qed.

Lemma closes_only_loop snapshot pair_ price w :
  closes_only w (snd (update_price_loop utcnow snapshot pair_ price w)).
Proof.
  revert w. induction snapshot as [|[k pos] snapshot IH]; intros w;
    [apply closes_only_refl|].
  cbn [update_price_loop].
  unfold mbind at 1, M_bind at 1, bind at 1.
  assert (exists st, status_now k w = (Return st, w)) as [st ->].
  { unfold status_now. unfold_M. destruct (PyDict.get _ _); by eexists. }
  destruct (_ || _); [by apply IH|].
  pose proof (closes_only_check w pos price) as H.
  unfold mbind, M_bind, bind.
  destruct (_check_and_maybe_close _ _ _ w) as [[r|e] w1]; simpl in H;
    [|done].
  eapply closes_only_trans; [exact H|apply IH].
Qed.

Lemma closes_only_update_price w pair_ price :
  closes_only
    (mkWorld
       (set_last_prices (<[pair_ := float price]> (last_prices (sim w)))
          (sim w))
       (now_calls w) (uuid_calls w))
    (snd (update_price utcnow pair_ price w)).
Proof. apply closes_only_loop. Qed.

(** X5. Whatever its outcome, also when closing a position raises,
    [update_price] records the price as the last price of the market and of
    no other; it opens nothing (every position left was there before,
    unchanged), keeps the initial balance, and only appends to the
    history. *)
Theorem update_price_footprint (w : World) (pair_ : string) (price : Q) :
  let w' := snd (update_price utcnow pair_ price w) in
  last_prices (sim w') = <[pair_ := price]> (last_prices (sim w)) /\
  initial_balance (sim w') = initial_balance (sim w) /\
  (forall k pos,
    (k, pos) ∈ positions (sim w') -> (k, pos) ∈ positions (sim w)) /\
  trade_history (sim w) `prefix_of` trade_history (sim w').
Proof.
  destruct (closes_only_update_price w pair_ price)
    as (Hi & Hl & _ & Hp & Hh).
  simpl in *. done.
Qed.

Lemma ok_survivors pair_ price (d : PyDict.t SimPosition.t) :
  PyDict.ok d -> PyDict.ok (survivors pair_ price d).
Proof.
  unfold PyDict.ok. induction d as [|[k pos] d IH]; simpl; [done|].
  rewrite NoDup_cons. intros [Hk Hd].
  destruct (fires pair_ price pos); [auto|]. simpl.
  apply NoDup_cons. split; [|auto].
  intros Hin. apply Hk. by apply (keys_survivors pair_ price d).
Qed.

Lemma elem_of_survivors pair_ price (d : PyDict.t SimPosition.t) k pos :
  (k, pos) ∈ survivors pair_ price d ->
  (k, pos) ∈ d /\ fires pair_ price pos = false.
Proof.
  induction d as [|[k0 p0] d IH]; simpl.
  - intros H. by apply elem_of_nil in H.
  - destruct (fires pair_ price p0) eqn:Hf.
    + intros H. destruct (IH H). split; [by right|done].
    + rewrite elem_of_cons. intros [[= -> ->]|H].
      * split; [left|done].
      * destruct (IH H). split; [by right|done].
Qed.

(** When no position of the snapshot fires, the loop does nothing. *)
Lemma update_price_loop_quiet pair_ price snapshot :
  forall pre w,
    positions (sim w) = pre ++ snapshot ->
    PyDict.ok (pre ++ snapshot) ->
    (forall k pos, (k, pos) ∈ snapshot ->
      SimPosition.status pos = "open" /\ fires pair_ price pos = false) ->
    update_price_loop utcnow snapshot pair_ price w = (Return tt, w).
Proof.
  induction snapshot as [|[k pos] snapshot IH]; intros pre w Hpos Hok Hall;
    [done|].
  destruct (Hall k pos) as [Hopen Hquiet]; [apply elem_of_cons; by left|].
  assert (k ∉ PyDict.keys pre) as Hfresh.
  { unfold PyDict.ok in Hok. rewrite keys_app in Hok.
    apply NoDup_app in Hok as (_ & Hdisj & _).
    intros Hin. apply (Hdisj k Hin). simpl. left. }
  assert (PyDict.get k (positions (sim w)) = Some pos) as Hget.
  { rewrite Hpos, PyDictFacts.get_app_fresh by done. simpl.
    by rewrite decide_True. }
  cbn [update_price_loop].
  unfold mbind at 1, M_bind at 1, bind at 1.
  unfold status_now. unfold_M. rewrite Hget, Hopen. simpl.
  unfold fires in Hquiet.
  assert (update_price_loop utcnow snapshot pair_ price w = (Return tt, w))
    as Hrest.
  { apply (IH (pre ++ [(k, pos)])).
    - by rewrite Hpos, <- app_assoc.
    - by rewrite <- app_assoc.
    - intros k' pos' Hin. apply (Hall k' pos'). by right. }
  destruct (bool_decide (SimPosition.pair pos = pair_)); simpl;
    [|exact Hrest].
  simpl in Hquiet. unfold _check_and_maybe_close. rewrite Hquiet.
  exact Hrest.
Qed.

(** X6. Ingesting the same price a second time changes nothing: the first
    ingestion has closed every position that this price triggers. *)
Theorem update_price_twice (w : World) (pair_ : string) (price : Q) :
  open_book (positions (sim w)) ->
  0 < price ->
  let w1 := snd (update_price utcnow pair_ price w) in
  update_price utcnow pair_ price w1 = (Return tt, w1).
Proof.
  intros Hbook Hprice w1. subst w1.
  set (w0 := mkWorld
    (set_last_prices (<[pair_ := float price]> (last_prices (sim w))) (sim w))
    (now_calls w) (uuid_calls w)).
  destruct (update_price_loop_spec utcnow pair_ price (positions (sim w))
              Hprice [] w0) as (w2 & Hrun & Hp & _ & Hl & _);
    [done|done|].
  assert (snd (update_price utcnow pair_ price w) = w2) as ->.
  { change (update_price utcnow pair_ price w)
      with (update_price_loop utcnow (positions (sim w)) pair_ price w0).
    by rewrite Hrun. }
  simpl in Hp, Hl.
  assert (update_price utcnow pair_ price w2
          = update_price_loop utcnow (positions (sim w2)) pair_ price w2)
    as ->.
  { unfold update_price. unfold_M. simpl.
    f_equal. destruct w2 as [[ib c ps th lp] nc uc]. simpl in *. subst lp.
    unfold set_last_prices. simpl. by rewrite insert_insert_eq. }
  apply (update_price_loop_quiet pair_ price (positions (sim w2)) [] w2);
    [done| |].
  - simpl. rewrite Hp. apply ok_survivors, Hbook.
  - intros k pos Hin. rewrite Hp in Hin.
    apply elem_of_survivors in Hin as [Hin Hquiet].
    split; [|done]. by destruct (proj2 Hbook k pos Hin) as (_ & Hst & _).
Qed.

(** ** Sequences of commands *)

Lemma closes_only_exec_prefix c w :
  ~ is_reset c ->
  trade_history (sim w) `prefix_of` trade_history (sim (exec utcnow uuid4 c w)).
Proof.
  intros Hc. destruct c; simpl.
  - destruct (place_order_cases w pair_ side_ notional_ entry_price_
                stop_loss_ take_profit_)
      as [(_ & ->)|[(_ & _ & ->)|[(_ & _ & _ & ->)|
          [(_ & _ & _ & _ & _ & ->)|(ep & _ & _ & _ & _ & ->)]]]];
      done.
  - by destruct (closes_only_close_position w pos_id price)
      as (_ & _ & _ & _ & H).
  - by destruct (closes_only_update_price w pair_ price)
      as (_ & _ & _ & _ & H).
  - by destruct Hc.
Qed.

(** X7. The history is append-only: over any sequence of [place_order],
    [close_position] and [update_price] calls, whatever their outcomes, the
    history at the start is a prefix of the history at the end; closed
    trades are never removed, reordered or modified.  Only [reset] clears
    it. *)
Theorem history_append_only (w : World) (cs : list command) :
  Forall (fun c => ~ is_reset c) cs ->
  trade_history (sim w)
  `prefix_of` trade_history (sim (exec_all utcnow uuid4 cs w)).
Proof.
  intros Hcs. revert w. induction Hcs as [|c cs Hc _ IH]; intros w; [done|].
  simpl. etrans; [|apply IH]. by apply closes_only_exec_prefix.
Qed.

(** ** Solvency *)

Lemma payout_nonneg pos cp :
  0 < SimPosition.entry_price pos -> 0 < SimPosition.notional pos -> 0 < cp ->
  0 <= SimPosition.notional pos + pnl_formula pos cp.
Proof.
  intros He Hn Hcp. unfold pnl_formula.
  set (n := SimPosition.notional pos) in *.
  set (e := SimPosition.entry_price pos) in *.
  assert (~ e == 0) as He0 by (intros H0; rewrite H0 in He; by apply Qlt_irrefl in He).
  assert (~ cp == 0) as Hc0 by (intros H0; rewrite H0 in Hcp; by apply Qlt_irrefl in Hcp).
  destruct (decide _).
  - assert (n + n * (cp / e - 1) == n * cp * / e) as -> by (field; done).
    apply Qmult_le_0_compat; [apply Qmult_le_0_compat; lra|].
    apply Qlt_le_weak, Qinv_lt_0_compat, He.
  - assert (n + n * (e / cp - 1) == n * e * / cp) as -> by (field; done).
    apply Qmult_le_0_compat; [apply Qmult_le_0_compat; lra|].
    apply Qlt_le_weak, Qinv_lt_0_compat, Hcp.
Qed.

Lemma solvent_after_close w pos_id pos cp :
  solvent (sim w) ->
  PyDict.get pos_id (positions (sim w)) = Some pos ->
  0 < cp ->
  solvent (sim (after_close utcnow w pos_id pos cp)).
Proof.
  intros (Hib & Hcash & Hall & Hlp) Hget Hcp.
  destruct (Hall pos_id pos (PyDictFacts.get_elem_of _ _ _ Hget)) as [He Hn].
  pose proof (payout_nonneg pos cp He Hn Hcp) as Hpay.
  split; [done|]. split; [simpl; lra|]. split; [|done].
  simpl. intros k p Hin. apply Hall with k. by apply elem_of_del in Hin.
Qed.

Lemma solvent_close_position w pos_id price :
  solvent (sim w) ->
  match price with Some p => 0 < p | None => True end ->
  solvent (sim (snd (close_position utcnow pos_id price w))).
Proof.
  intros Hs Hprice.
  destruct (close_position_effect utcnow w pos_id price)
    as [[r ->]|(pos & cp & Hget & _ & Hexit & _ & ->)]; [done|].
  simpl. apply solvent_after_close; [done|done|].
  unfold exit_price in Hexit. destruct price as [p|].
  - by injection Hexit as ->.
  - destruct Hs as (_ & _ & _ & Hlp). by eapply Hlp.
Qed.

Lemma solvent_check w pos price :
  solvent (sim w) -> 0 < price ->
  solvent (sim (snd (_check_and_maybe_close utcnow pos price w))).
Proof.
  intros Hs Hprice. unfold _check_and_maybe_close.
  destruct (_ || _); [|done].
  pose proof (solvent_close_position w (SimPosition.id pos) (Some price)
                Hs Hprice) as H.
  unfold_M. destruct (close_position _ _ _ w) as [[r|e] w1]; exact H.
Qed.

Lemma solvent_loop snapshot pair_ price w :
  solvent (sim w) -> 0 < price ->
  solvent (sim (snd (update_price_loop utcnow snapshot pair_ price w))).
Proof.
  intros Hs Hprice. revert w Hs.
  induction snapshot as [|[k pos] snapshot IH]; intros w Hs; [done|].
  cbn [update_price_loop].
  unfold mbind at 1, M_bind at 1, bind at 1.
  assert (exists st, status_now k w = (Return st, w)) as [st ->].
  { unfold status_now. unfold_M. destruct (PyDict.get _ _); by eexists. }
  destruct (_ || _); [by apply IH|].
  pose proof (solvent_check w pos price Hs Hprice) as H.
  unfold mbind, M_bind, bind.
  destruct (_check_and_maybe_close _ _ _ w) as [[r|e] w1]; simpl in H;
    [by apply IH|done].
Qed.

Lemma elem_of_set {V} k (v : V) (d : PyDict.t V) k0 v0 :
  (k0, v0) ∈ PyDict.set k v d -> (k0, v0) = (k, v) \/ (k0, v0) ∈ d.
Proof.
  induction d as [|[k' v'] d IH]; simpl.
  - rewrite list_elem_of_singleton. by left.
  - destruct (decide (k = k')) as [->|Hne]; rewrite !elem_of_cons.
    + intros [H|H]; [by left|right; by right].
    + intros [H|H]; [right; by left|].
      destruct (IH H); [by left|right; by right].
Qed.

Lemma solvent_exec c w :
  solvent (sim w) -> orderly c -> solvent (sim (exec utcnow uuid4 c w)).
Proof.
  intros Hs Hc. destruct c; simpl in *.
  - destruct (place_order_cases w pair_ side_ notional_ entry_price_
                stop_loss_ take_profit_)
      as [(_ & ->)|[(_ & _ & ->)|[(_ & _ & _ & ->)|
          [(_ & _ & _ & _ & _ & ->)|(ep & _ & Hn & Hcash & Hentry & ->)]]]];
      try done.
    destruct Hs as (Hib & Hc0 & Hall & Hlp).
    assert (0 < ep) as Hep.
    { unfold entry_used in Hentry. destruct entry_price_ as [p|].
      - by injection Hentry as ->.
      - by eapply Hlp. }
    split; [done|]. split; [simpl; lra|]. split; [|done].
    simpl. intros k pos Hin. apply elem_of_set in Hin as [[= -> ->]|Hin].
    + done.
    + by apply Hall with k.
  - by apply solvent_close_position.
  - unfold update_price. unfold_M. simpl. apply solvent_loop; [|done].
    destruct Hs as (Hib & Hc0 & Hall & Hlp).
    split; [done|]. split; [done|]. split; [done|].
    simpl. intros market p. unfold float.
    destruct (decide (market = pair_)) as [->|Hne].
    + rewrite lookup_insert_eq. by intros [= <-].
    + rewrite lookup_insert_ne by done. apply Hlp.
  - destruct Hs as (Hib & _).
    destruct initial_balance_ as [b|];
      (split; [done|]); (split; [done|]); split;
      try (intros k pos Hin; by apply elem_of_nil in Hin);
      intros market p Hlk;
      change ((∅ : gmap string Q) !! market = Some p) in Hlk;
      by apply lookup_empty_Some in Hlk.
Qed.

(** X8. Cash never goes negative: starting from an account whose balance
    and cash are not negative and whose entry prices, notionals and last
    prices are positive (a new account is one), these facts survive every
    sequence of calls whose given prices are positive and whose reset
    balances are not negative, whatever the outcome of each call. *)
Theorem solvency_kept (w : World) (cs : list command) :
  solvent (sim w) ->
  Forall orderly cs ->
  solvent (sim (exec_all utcnow uuid4 cs w)) /\
  0 <= cash (sim (exec_all utcnow uuid4 cs w)).
Proof.
  intros Hs Hcs.
  enough (solvent (sim (exec_all utcnow uuid4 cs w))) as H.
  { split; [done|]. by destruct H as (_ & H & _). }
  revert w Hs. induction Hcs as [|c cs Hc _ IH]; intros w Hs; [done|].
  simpl. apply IH. by apply solvent_exec.
Qed.

(** X9. With positive entry price, notional and price, the pnl of a
    position is defined and above minus its notional: a position can lose
    less than what was committed to it, never more.  A long position gains
    exactly when the price is above its entry price; any position that is
    not long is treated as a short and gains exactly when the price is
    below its entry price. *)
Theorem pnl_sign_and_bound (w : World) (pos : SimPosition.t) (price : Q) :
  0 < SimPosition.entry_price pos ->
  0 < SimPosition.notional pos ->
  0 < price ->
  exists v,
    _calc_pnl_price pos price w = (Return v, w) /\
    - SimPosition.notional pos < v /\
    (SimPosition.side pos = "long" ->
     (0 < v <-> SimPosition.entry_price pos < price)) /\
    (SimPosition.side pos <> "long" ->
     (0 < v <-> price < SimPosition.entry_price pos)).
Proof.
  intros He Hn Hp.
  exists (pnl_formula pos price).
  split; [by apply calc_pnl_defined, positive_pnl_defined|].
  unfold pnl_formula.
  set (n := SimPosition.notional pos) in *.
  set (e := SimPosition.entry_price pos) in *.
  assert (~ e == 0) as He0 by (intros H0; rewrite H0 in He; by apply Qlt_irrefl in He).
  assert (~ price == 0) as Hp0 by (intros H0; rewrite H0 in Hp; by apply Qlt_irrefl in Hp).
  destruct (decide (SimPosition.side pos = "long")) as [Hlong|Hshort].
  - assert (price / e * e == price) as Hr by (field; done).
    set (r := price / e) in *.
    split; [nra|]. split; [|done]. intros _. split; intros; nra.
  - assert (e / price * price == e) as Hr by (field; done).
    set (r := e / price) in *.
    split; [nra|]. split; [done|]. intros _. split; intros; nra.
Qed.

(** ** Equity and snapshots *)

Lemma equity_loop_value w (d : PyDict.t SimPosition.t) acc :
  (forall k pos, (k, pos) ∈ d ->
    SimPosition.status pos = "open" /\
    forall price, last_prices (sim w) !! SimPosition.pair pos = Some price ->
      pnl_defined pos price) ->
  exists v,
    _equity_loop (PyDict.values d) acc w = (Return v, w) /\
    v == acc + total (map (fun pos =>
           match last_prices (sim w) !! SimPosition.pair pos with
           | Some price => pnl_formula pos price
           | None => 0
           end) (PyDict.values d)).
Proof.
  revert acc. induction d as [|[k pos] d IH]; intros acc Hall.
  - exists acc. split; [done|]. simpl. ring.
  - destruct (Hall k pos) as [Hopen Hdef]; [apply elem_of_cons; by left|].
    assert (forall k' pos', (k', pos') ∈ d ->
      SimPosition.status pos' = "open" /\
      forall price,
        last_prices (sim w) !! SimPosition.pair pos' = Some price ->
        pnl_defined pos' price) as Hall'.
    { intros k' pos' Hin. apply (Hall k' pos'). by right. }
    cbn [PyDict.values map snd _equity_loop].
    unfold mbind at 1, M_bind at 1, bind at 1, self at 1.
    destruct (last_prices (sim w) !! SimPosition.pair pos) as [price|].
    + rewrite Hopen. rewrite (bool_decide_eq_true_2 _ eq_refl).
      cbn [negb]. cbv beta iota.
      unfold mbind at 1, M_bind at 1, bind at 1.
      rewrite (calc_pnl_defined w pos price (Hdef price eq_refl)).
      destruct (IH (acc + pnl_formula pos price) Hall') as (v & Hrun & Hv).
      exists v. split; [exact Hrun|]. rewrite Hv. simpl.
      unfold PyDict.values. ring.
    + destruct (IH acc Hall') as (v & Hrun & Hv).
      exists v. split; [exact Hrun|]. rewrite Hv. simpl.
      unfold PyDict.values. ring.
Qed.

Lemma equity_value w :
  marked (sim w) ->
  exists e,
    _equity w = (Return e, w) /\ e == cash (sim w) + unrealized_pnl (sim w).
Proof.
  intros Hm.
  destruct (equity_loop_value w (positions (sim w)) 0 Hm) as (v & Hrun & Hv).
  exists (cash (sim w) + v). split.
  - unfold _equity. unfold mbind at 1, M_bind at 1, bind at 1, self at 1.
    unfold mbind at 1, M_bind at 1, bind at 1. rewrite Hrun. reflexivity.
  - rewrite Hv. unfold unrealized_pnl. ring.
Qed.

(** X10. When every open position has a defined pnl at the last price of
    its market, the equity is computed, without changing the state, and is
    cash plus the pnl of the open positions at those last prices; a
    position whose market has no last price counts for nothing, and so does
    the notional committed to the open positions. *)
Theorem equity_is_cash_plus_unrealized (w : World) :
  marked (sim w) ->
  exists e,
    _equity w = (Return e, w) /\ e == cash (sim w) + unrealized_pnl (sim w).
Proof. apply equity_value. Qed.

(** X11. Opening a position at the last price of its market lowers the
    equity by the notional of the position: what is committed to an open
    position is not part of the equity. *)
Theorem equity_after_open (w : World) (pair_ side_ : string) (notional_ : Q)
    (entry_price_ stop_loss_ take_profit_ : option Q) (ep lp : Q) :
  marked (sim w) ->
  valid_side side_ ->
  0 < notional_ ->
  notional_ <= cash (sim w) ->
  entry_used w pair_ entry_price_ = Some ep ->
  last_prices (sim w) !! pair_ = Some lp ->
  ep == lp ->
  ~ lp == 0 ->
  uuid4 (uuid_calls w) ∉ PyDict.keys (positions (sim w)) ->
  exists e pos w' e',
    _equity w = (Return e, w) /\
    place_order utcnow uuid4 pair_ side_ notional_ entry_price_ stop_loss_
      take_profit_ w = (Return pos, w') /\
    _equity w' = (Return e', w') /\
    e' == e - notional_.
Proof.
  intros Hm Hside Hn Hcash Hentry Hlp Heq Hlp0 Hfresh.
  set (pos := opened utcnow uuid4 w pair_ side_ notional_ ep stop_loss_
                take_profit_).
  assert (~ ep == 0) as Hep0 by (by rewrite Heq).
  assert (pnl_formula pos lp == 0) as Hzero.
  { unfold pnl_formula. destruct (decide _); simpl; rewrite Heq; field; done. }
  assert (positions (sim (after_open w pos))
          = positions (sim w) ++ [(SimPosition.id pos, pos)]) as Hps.
  { simpl. by rewrite PyDictFacts.set_fresh. }
  assert (marked (sim (after_open w pos))) as Hm'.
  { intros k p Hin. rewrite Hps in Hin.
    apply elem_of_app in Hin as [Hin|Hin]; [by apply (Hm k p)|].
    apply list_elem_of_singleton in Hin. injection Hin as -> ->.
    split; [done|]. simpl. intros price. rewrite Hlp. intros [= <-].
    unfold pnl_defined. simpl. destruct (decide _); done. }
  destruct (equity_value w Hm) as (e & He & Hev).
  destruct (equity_value (after_open w pos) Hm') as (e' & He' & Hev').
  exists e, pos, (after_open w pos), e'.
  split; [exact He|]. split; [by apply place_order_success|].
  split; [exact He'|].
  rewrite Hev', Hev. unfold unrealized_pnl. rewrite Hps.
  unfold PyDict.values. rewrite !map_app, total_app. simpl.
  rewrite Hlp, Hzero. ring.
Qed.

Lemma portfolio_state_returns w pf w' :
  portfolio_state w = (Return pf, w') ->
  w' = w /\
  fst (_equity w) = Return (pf_equity pf) /\
  pf_initial_balance pf = initial_balance (sim w) /\
  pf_cash pf = cash (sim w) /\
  pf_open_positions pf = PyDict.values (positions (sim w)) /\
  pf_realized_pnl pf
  = sum (map (fun p => or_zero (SimPosition.pnl p)) (trade_history (sim w))) /\
  pf_open_count pf = length (positions (sim w)) /\
  pf_trade_count pf = length (trade_history (sim w)).
Proof.
  unfold portfolio_state.
  unfold mbind at 1, M_bind at 1, bind at 1, self at 1.
  unfold mbind, M_bind, bind.
  pose proof (equity_pure w) as Hpure.
  destruct (_equity w) as [[v|e] w1]; simpl in Hpure; subst w1;
    [|intros [=]].
  unfold mret, M_ret, ret. intros [= <- <-]. simpl.
  repeat split; try done. unfold PyDict.values. by rewrite length_map.
Qed.

Section Reachable.

Hypothesis uuid4_inj : forall i j : nat, uuid4 i = uuid4 j -> i = j.

(** X12. The figures reported by [explain_current_exposure] balance: in
    every state reached from a new or reset account, when the tool answers,
    its cash plus its total notional committed equals its initial balance
    plus its realized pnl, its count of open positions is the number of
    positions it lists, and the state is as it was. *)
Theorem exposure_balances (w0 : World) (cs : list command)
    (pf : portfolio) (ex : exposure) (w' : World) :
  pristine w0 ->
  let w := exec_all utcnow uuid4 cs w0 in
  explain_current_exposure w = (Return (Success (pf, ex)), w') ->
  w' = w /\
  pf_cash pf + total_notional_committed ex
  == pf_initial_balance pf + pf_realized_pnl pf /\
  open_positions_count ex = length (pf_open_positions pf).
Proof.
  intros H0 w. unfold explain_current_exposure.
  unfold mbind, M_bind, bind.
  destruct (portfolio_state w) as [[pf0|e] w1] eqn:Hpf; [|intros [=]].
  unfold mret, M_ret, ret. intros [= <- <- <-].
  destruct (portfolio_state_returns w pf0 w1 Hpf)
    as (-> & _ & Hib & Hcash & Hops & Hreal & Hoc & _).
  split; [done|]. simpl.
  destruct (wf_exec_all utcnow uuid4 uuid4_inj cs w0
              (wf_pristine uuid4 w0 H0)) as (Hcons & _).
  fold w in Hcons. unfold conserved, open_notional, realized_pnl in Hcons.
  split.
  - rewrite Hcash, Hib, Hops, Hreal, !sum_total.
    rewrite (total_Proper _ _ (map_or_zero (trade_history (sim w)))).
    exact Hcons.
  - rewrite Hoc, Hops. unfold PyDict.values. by rewrite length_map.
Qed.

End Reachable.

(** X13. [sim_reset] never fails: it answers with the snapshot of a new
    account, whose cash, equity and initial balance are the supplied
    balance (the previous initial balance when none is supplied), with no
    open position, no trade and no realized pnl. *)
Theorem sim_reset_snapshot (w : World) (initial_balance_ : option Q) :
  exists pf w',
    sim_reset initial_balance_ w = (Return (Success pf), w') /\
    w' = snd (reset initial_balance_ w) /\
    pf_initial_balance pf
    = default (initial_balance (sim w)) initial_balance_ /\
    pf_cash pf = default (initial_balance (sim w)) initial_balance_ /\
    pf_equity pf == default (initial_balance (sim w)) initial_balance_ /\
    pf_open_positions pf = [] /\
    pf_realized_pnl pf = 0 /\
    pf_open_count pf = 0%nat /\
    pf_trade_count pf = 0%nat.
Proof.
  destruct initial_balance_ as [b|]; eexists _, _;
    (split; [reflexivity|]); simpl; unfold float;
    repeat (split; [reflexivity|]);
    (split; [ring|]); repeat split; reflexivity.
Qed.

(** ** The tools at the boundary *)

Lemma portfolio_state_cases w :
  (exists e, fst (_equity w) = Raise e /\ portfolio_state w = (Raise e, w)) \/
  (exists pf,
    fst (_equity w) = Return (pf_equity pf) /\
    portfolio_state w = (Return pf, w)).
Proof.
  destruct (fst (_equity w)) as [equity|e] eqn:He.
  - right. destruct (portfolio_state_equity w equity He) as (pf & Hpf & <- & _).
    by exists pf.
  - left. exists e. split; [done|]. by apply portfolio_state_failed.
Qed.

(** X14. [sim_place_order] never raises: it answers with a success or with
    an error.  An error, whatever its cause (equity not computable, notional
    above the cap, or any failure of [place_order]), leaves the state as it
    was.  A success reports an open position of the requested notional,
    stored under the reported identifier, and cash has dropped by the
    notional. *)
Theorem sim_place_order_answers (w : World) (pair_ side_ : string)
    (notional_ : Q) (entry_price_ stop_loss_ take_profit_ : option Q) :
  exists r w',
    sim_place_order utcnow uuid4 pair_ side_ notional_ entry_price_
      stop_loss_ take_profit_ w = (Return r, w') /\
    (forall msg, r = Error msg -> w' = w) /\
    (forall rc, r = Success rc ->
      rc_status rc = "open" /\
      rc_notional rc = notional_ /\
      rc_side rc = lower side_ /\
      cash (sim w') = cash (sim w) - notional_ /\
      exists pos,
        PyDict.get (rc_id rc) (positions (sim w')) = Some pos /\
        SimPosition.id pos = rc_id rc /\
        SimPosition.status pos = "open").
Proof.
  unfold sim_place_order, try_except.
  unfold mbind at 1, M_bind at 1, bind at 1.
  destruct (portfolio_state_cases w) as [(e & _ & ->)|(pf & _ & ->)].
  { eexists _, _. split; [reflexivity|]. split; [done|]. intros rc [=]. }
  destruct (Qltb _ notional_).
  { eexists _, _. split; [reflexivity|]. split; [done|]. intros rc [=]. }
  unfold mbind, M_bind, bind.
  destruct (place_order_cases w pair_ side_ notional_ entry_price_ stop_loss_
              take_profit_)
    as [(_ & ->)|[(_ & _ & ->)|[(_ & _ & _ & ->)|
        [(_ & _ & _ & _ & _ & ->)|(ep & _ & _ & _ & _ & ->)]]]];
    try solve [eexists _, _; split; [reflexivity|]; split; [done|];
               intros rc [=]].
  eexists _, _. split; [reflexivity|]. split; [intros msg [=]|].
  intros rc [= <-]. simpl. repeat (split; [reflexivity|]).
  eexists. split; [apply get_set_eq|]. done.
Qed.

(** X15. [sim_close_position] never raises.  It answers with an error
    exactly when [close_position] raises: the error carries that very
    exception and the state is as it was.  An identifier that is not a key
    of the open positions, such as that of a position already closed,
    always gives the error of a [KeyError].  It answers with a success
    exactly when [close_position] returns: the position and the state are
    those [close_position] gives, and the identifier was a key of the open
    positions. *)
Theorem sim_close_position_answers (w : World) (position_id : string)
    (price : option Q) :
  exists r w',
    sim_close_position utcnow position_id price w = (Return r, w') /\
    (forall msg, r = Error msg ->
     w' = w /\
     exists e, msg = Str e /\
       close_position utcnow position_id price w = (Raise e, w)) /\
    (PyDict.get position_id (positions (sim w)) = None ->
     r = Error (Str (KeyError position_id))) /\
    (forall pos, r = Success pos ->
     close_position utcnow position_id price w = (Return pos, w') /\
     exists pos0, PyDict.get position_id (positions (sim w)) = Some pos0).
Proof.
  unfold sim_close_position, try_except.
  unfold mbind, M_bind, bind.
  destruct (PyDict.get position_id (positions (sim w))) as [pos0|] eqn:Hget.
  - destruct (close_position_effect utcnow w position_id price)
      as [[[pos|e] Hrun]|(pos & cp & _ & _ & _ & _ & Hrun)]; rewrite Hrun.
    + eexists _, _. split; [reflexivity|]. split; [intros msg [=]|].
      split; [done|]. intros p [= <-]. split; [done|]. by exists pos0.
    + eexists _, _. split; [reflexivity|].
      split; [intros msg [= <-]; split; [done|by exists e]|].
      split; [done|]. intros p [=].
    + eexists _, _. split; [reflexivity|]. split; [intros msg [=]|].
      split; [done|]. intros p [= <-]. split; [done|]. by exists pos0.
  - rewrite close_position_missing by done.
    eexists _, _. split; [reflexivity|].
    split; [intros msg [= <-]; split; [done|by eexists]|].
    split; [done|]. intros p [=].
Qed.

(** ** Risk sizing, again *)

Lemma Qabs_pos_or_zero x : 0 < Qabs x \/ Qabs x == 0.
Proof.
  pose proof (Qabs_nonneg x) as H.
  apply Qle_lt_or_eq in H as [H|H]; [by left|right; by symmetry].
Qed.

(** Runs a monadic computation, rewriting with the equations at hand. *)
Ltac run_with Hrun :=
  apply Hrun;
  unfold suggest_notional_from_risk, float;
  repeat (first
    [ progress unfold_M
    | progress cbv beta iota zeta
    | match goal with H : _ = _ |- _ => rewrite H end ]);
  reflexivity.

(** The seven ways [suggest_notional_from_risk] can go, in the order of its
    checks. *)
Lemma suggest_cases w risk_percent pair_ stop_loss_ :
  let run := suggest_notional_from_risk risk_percent pair_ stop_loss_ w in
  (exists e, fst (_equity w) = Raise e /\ run = (Return (Error (Str e)), w)) \/
  exists equity, fst (_equity w) = Return equity /\
    ((equity <= 0 /\ run = (Return (Error EquityNonPositive), w)) \/
     0 < equity /\
     ((last_prices (sim w) !! pair_ = None /\
       run = (Return (Error (NoLastPriceFor pair_)), w)) \/
      exists last_price, last_prices (sim w) !! pair_ = Some last_price /\
        ((risk_percent <= 0 /\
          run = (Return (Error RiskPercentNonPositive), w)) \/
         0 < risk_percent /\
         ((last_price == 0 /\
           run = (Return (Error (Str ZeroDivisionError)), w)) \/
          ~ last_price == 0 /\
          ((Qabs (1 - stop_loss_ / last_price) == 0 /\
            run = (Return (Error StopDistanceZero), w)) \/
           (0 < Qabs (1 - stop_loss_ / last_price) /\
            run = (Return (Success
                     (mkSizing
                        (equity * (risk_percent / 100)
                         / Qabs (1 - stop_loss_ / last_price))
                        equity last_price
                        (equity * (risk_percent / 100)))), w))))))).
Proof.
  intros run.
  assert (Qeq_bool 100 0 = false) as H100 by reflexivity.
  assert (forall v, run = v <->
            suggest_notional_from_risk risk_percent pair_ stop_loss_ w = v)
    as Hrun by done.
  clearbody run.
  destruct (portfolio_state_cases w) as [(e & He & Hpf)|(pf & He & Hpf)].
  { left. exists e. split; [done|]. run_with Hrun. }
  right. exists (pf_equity pf). split; [done|].
  destruct (Qlt_le_dec 0 (pf_equity pf)) as [Hequity|Hequity].
  2:{ left. split; [done|]. apply Qleb_le in Hequity as Hb.
      run_with Hrun. }
  right. split; [done|]. apply Qleb_gt in Hequity as Hb.
  destruct (last_prices (sim w) !! pair_) as [last_price|] eqn:Hlk.
  2:{ left. split; [done|]. run_with Hrun. }
  right. exists last_price. split; [done|].
  destruct (Qlt_le_dec 0 risk_percent) as [Hrisk|Hrisk].
  2:{ left. split; [done|].
      assert (risk_percent / 100 <= 0) as Hfrac.
      { apply Qle_shift_div_r; [reflexivity|]. lra. }
      apply Qleb_le in Hfrac. run_with Hrun. }
  right. split; [done|].
  assert (0 < risk_percent / 100) as Hfrac.
  { apply Qlt_shift_div_l; [reflexivity|]. lra. }
  apply Qleb_gt in Hfrac.
  destruct (Qeq_bool last_price 0) eqn:Hlp.
  { left. split; [by apply Qeq_bool_iff|]. run_with Hrun. }
  right. split; [by apply Qeq_bool_neq|].
  destruct (Qabs_pos_or_zero (1 - stop_loss_ / last_price)) as [Hd|Hd].
  - right. split; [done|].
    apply Qleb_gt in Hd as Hd'.
    assert (Qeq_bool (Qabs (1 - stop_loss_ / last_price)) 0 = false) as Hd0.
    { apply Qeq_bool_false. intros H0. rewrite H0 in Hd.
      by apply Qlt_irrefl in Hd. }
    run_with Hrun.
  - left. split; [done|].
    assert (Qabs (1 - stop_loss_ / last_price) <= 0) as Hle
      by (rewrite Hd; apply Qle_refl).
    apply Qleb_le in Hle. run_with Hrun.
Qed.

(** X16. [suggest_notional_from_risk] never raises and never changes the
    state.  It answers with an error when the equity cannot be computed or
    is not positive, when the market has no last price, when the risk
    percentage is not positive, when the last price is zero, and when the
    stop equals the last price; in every other case it answers with a
    success. *)
Theorem suggest_notional_answers (w : World) (risk_percent : Q)
    (pair_ : string) (stop_loss_ : Q) :
  exists r,
    suggest_notional_from_risk risk_percent pair_ stop_loss_ w
    = (Return r, w) /\
    ((exists sz, r = Success sz) <->
     exists equity last_price,
       fst (_equity w) = Return equity /\ 0 < equity /\
       last_prices (sim w) !! pair_ = Some last_price /\
       0 < risk_percent /\ ~ last_price == 0 /\ ~ stop_loss_ == last_price).
Proof.
  assert (forall lp, ~ lp == 0 ->
    (Qabs (1 - stop_loss_ / lp) == 0 <-> stop_loss_ == lp)) as Hstop.
  { intros lp Hlp. split.
    - intros H0.
      assert (1 - stop_loss_ / lp == 0) as H1.
      { pose proof (Qle_Qabs (1 - stop_loss_ / lp)) as Hup.
        pose proof (Qle_Qabs (- (1 - stop_loss_ / lp))) as Hdown.
        rewrite Qabs_opp in Hdown. lra. }
      assert (stop_loss_ / lp * lp == stop_loss_) as Hr by (field; done).
      rewrite <- Hr.
      assert (stop_loss_ / lp == 1) as -> by lra. ring.
    - intros ->.
      assert (1 - lp / lp == 0) as -> by (field; done). reflexivity. }
  destruct (suggest_cases w risk_percent pair_ stop_loss_)
    as [(e & He & ->)|(equity & He & [(Hle & ->)|(Hequity &
         [(Hnone & ->)|(lp & Hlp & [(Hrisk & ->)|(Hrisk &
           [(Hz & ->)|(Hnz & [(Hd & ->)|(Hd & ->)])])])])])];
    eexists; (split; [reflexivity|]); (split; [intros [sz Hsz]|]);
    try discriminate Hsz;
    try (intros (eq' & lp' & He' & Hpos' & Hlp' & Hrisk' & Hnz' & Hne');
         rewrite He in He').
  - discriminate He'.
  - exfalso. injection He' as <-. lra.
  - injection He' as <-. rewrite Hnone in Hlp'. discriminate Hlp'.
  - exfalso. injection He' as <-. lra.
  - injection He' as <-. rewrite Hlp in Hlp'. injection Hlp' as <-.
    contradiction.
  - exfalso. injection He' as <-. rewrite Hlp in Hlp'. injection Hlp' as <-.
    apply Hne'. by apply Hstop.
  - exists equity, lp. repeat (split; [done|]).
    intros Heq. apply (Hstop lp Hnz) in Heq. rewrite Heq in Hd.
    by apply Qlt_irrefl in Hd.
  - by eexists.
Qed.

(** X17. The suggested size does what it is for.  If the position of the
    suggested notional is a long entered at the last price and its stop,
    below that price, is hit, it loses exactly the risk amount; if it is a
    short and its stop, above that price, is hit, it loses less than the
    risk amount. *)
Theorem sizing_bounds_the_loss (w w' : World) (risk_percent : Q)
    (pair_ : string) (stop_loss_ : Q) (sz : sizing) (pos : SimPosition.t) :
  suggest_notional_from_risk risk_percent pair_ stop_loss_ w
  = (Return (Success sz), w') ->
  0 < stop_loss_ ->
  0 < sz_last_price sz ->
  SimPosition.entry_price pos = sz_last_price sz ->
  SimPosition.notional pos = sz_notional sz ->
  exists pnl,
    _calc_pnl_price pos stop_loss_ w = (Return pnl, w) /\
    (SimPosition.side pos = "long" -> stop_loss_ < sz_last_price sz ->
     pnl == - sz_risk_amount sz) /\
    (SimPosition.side pos = "short" -> sz_last_price sz < stop_loss_ ->
     - sz_risk_amount sz < pnl /\ pnl < 0).
Proof.
  intros Hrun Hsl Hlp Hentry Hnot.
  destruct (suggest_cases w risk_percent pair_ stop_loss_)
    as [(e & He & Hr)|(equity & He & [(Hle & Hr)|(Hequity &
         [(Hnone & Hr)|(lp & Hlk & [(Hrisk & Hr)|(Hrisk &
           [(Hz & Hr)|(Hnz & [(Hd & Hr)|(Hd & Hr)])])])])])];
    rewrite Hr in Hrun; try discriminate.
  injection Hrun as <- <-.
  cbn [sz_last_price sz_notional sz_risk_amount] in *.
  exists (pnl_formula pos stop_loss_).
  split.
  { apply calc_pnl_defined, positive_pnl_defined; [by rewrite Hentry|done]. }
  set (risk := equity * (risk_percent / 100)) in *.
  assert (0 < risk) as Hriskpos.
  { apply Qmult_lt_0_compat; [done|].
    apply Qlt_shift_div_l; [reflexivity|]. lra. }
  assert (~ stop_loss_ == 0) as Hsl0
    by (intros H0; rewrite H0 in Hsl; by apply Qlt_irrefl in Hsl).
  assert (stop_loss_ / lp * lp == stop_loss_) as Hq by (field; done).
  unfold pnl_formula. rewrite Hentry, Hnot.
  split.
  - intros Hlong Hbelow. rewrite decide_True by done.
    assert (0 < 1 - stop_loss_ / lp) as Hgap.
    { set (q := stop_loss_ / lp) in *. nra. }
    rewrite (Qabs_pos (1 - stop_loss_ / lp)) by lra. field.
    split; [done|]. intros H0. lra.
  - intros Hshort Habove. rewrite decide_False by (rewrite Hshort; discriminate).
    assert (stop_loss_ / lp - 1 > 0) as Hgap.
    { set (q := stop_loss_ / lp) in *. nra. }
    rewrite (Qabs_neg (1 - stop_loss_ / lp)) by lra.
    assert (risk / - (1 - stop_loss_ / lp) * (lp / stop_loss_ - 1)
            == - risk * (lp / stop_loss_)) as ->.
    { field. repeat split; try done. intros H0.
      assert (stop_loss_ == lp) as Heq by lra. rewrite Heq in Habove.
      by apply Qlt_irrefl in Habove. }
    assert (lp / stop_loss_ * stop_loss_ == lp) as Hq' by (field; done).
    set (q' := lp / stop_loss_) in *.
    assert (0 < q') by nra. assert (q' < 1) by nra.
    split; nra.
Qed.

(** ** History tools *)

(** X18. [sim_trade_history] never fails and changes nothing.  With a
    positive limit it returns the last [limit] trades, all of them when
    there are fewer; with a negative limit it does not fail either: it
    returns the history without its first [-limit] trades. *)
Theorem sim_trade_history_window (w : World) (limit : Z) :
  exists sm,
    sim_trade_history limit w = (Return (Success sm), w) /\
    ((0 < limit)%Z ->
     trades sm
     = drop (length (trade_history (sim w)) - Z.to_nat limit)
         (trade_history (sim w)) /\
     total_trades sm
     = Nat.min (Z.to_nat limit) (length (trade_history (sim w)))) /\
    ((limit < 0)%Z ->
     trades sm = drop (Z.to_nat (- limit)) (trade_history (sim w)) /\
     total_trades sm
     = (length (trade_history (sim w)) - Z.to_nat (- limit))%nat).
Proof.
  destruct (trade_history_summary_spec w limit)
    as (sm & Hrun & Htr & Htot & _).
  exists sm. split.
  { unfold sim_trade_history. unfold mbind, M_bind, bind. by rewrite Hrun. }
  rewrite Htot, Htr. unfold slice_from.
  set (h := trade_history (sim w)).
  split; intros Hlimit.
  - assert ((- limit <? 0)%Z = true) as -> by lia.
    assert (Z.to_nat (Z.max (- limit + Z.of_nat (length h)) 0)
            = (length h - Z.to_nat limit)%nat) as -> by lia.
    split; [done|]. rewrite length_drop. lia.
  - assert ((- limit <? 0)%Z = false) as -> by lia.
    assert (drop (Z.to_nat (Z.min (- limit) (Z.of_nat (length h)))) h
            = drop (Z.to_nat (- limit)) h) as ->.
    { destruct (decide (- limit <= Z.of_nat (length h))%Z).
      - by rewrite Z.min_l by lia.
      - rewrite Z.min_r by lia. rewrite Nat2Z.id.
        rewrite !drop_ge by lia. done. }
    split; [done|]. by rewrite length_drop.
Qed.

Lemma filter_disjoint_length {A} (P R : A -> Prop)
    `{!forall x, Decision (P x)} `{!forall x, Decision (R x)} (l : list A) :
  (forall x, P x -> R x -> False) ->
  (length (filter P l) + length (filter R l) <= length l)%nat.
Proof.
  intros Hdisj. induction l as [|x l IH]; simpl; [done|].
  rewrite !filter_cons.
  destruct (decide (P x)) as [HP|HP]; destruct (decide (R x)) as [HR|HR];
    simpl; try lia.
  exfalso. by apply (Hdisj x).
Qed.

(** X19. In the metrics of [eval_strategy_quality], a trade is never
    counted both as a win and as a loss (wins plus losses is at most the
    number of trades) and the win rate is between 0 and 1. *)
Theorem eval_strategy_quality_bounds (w : World) (limit : Z) :
  exists sm,
    eval_strategy_quality limit w = (Return (Success sm), w) /\
    (wins sm + losses sm <= total_trades sm)%nat /\
    0 <= win_rate sm /\ win_rate sm <= 1.
Proof.
  destruct (trade_history_summary_spec w limit)
    as (sm & Hrun & _ & Htot & Hw & Hl & Hr0 & Hr & _).
  exists sm. split.
  { unfold eval_strategy_quality. unfold mbind, M_bind, bind.
    by rewrite Hrun. }
  assert (wins sm + losses sm <= total_trades sm)%nat as Hsum.
  { rewrite Hw, Hl, Htot. apply filter_disjoint_length.
    intros t H1 H2. apply (Qlt_irrefl 0).
    exact (Qlt_trans _ _ _ H1 H2). }
  split; [exact Hsum|].
  destruct (trades sm) as [|t ts] eqn:Hts.
  - rewrite Hr0 by done. split; [apply Qle_refl|]. unfold Qle. simpl. lia.
  - rewrite Hr by done.
    assert (0 < total_trades sm)%nat as Hpos by (rewrite Htot; simpl; lia).
    assert (0 < of_int (total_trades sm)) as Hden.
    { unfold of_int, Qlt. simpl. lia. }
    assert (0 <= of_int (wins sm)) as Hnum.
    { unfold of_int, Qle. simpl. lia. }
    assert (of_int (wins sm) <= of_int (total_trades sm)) as Hle.
    { unfold of_int, Qle. simpl. lia. }
    split.
    + apply Qle_shift_div_l; [done|]. lra.
    + apply Qle_shift_div_r; [done|]. lra.
Qed.

End MoreLedger.

(** ** Sample runs of the ledger *)

Lemma no_key_of_empty (k : string) :
  k ∉ PyDict.keys (positions (sim (boot 10000))).
Proof. intros H. by apply elem_of_nil in H. Qed.

Lemma place_order_opens_witness :
  exists pos w',
    place_order clock ids "BTC/USDT" "Long" 1000 (Some 100) (Some 90) None
      (boot 10000) = (Return pos, w') /\
    SimPosition.id pos = "0" /\
    SimPosition.side pos = "long" /\
    SimPosition.status pos = "open" /\
    cash (sim w') == 9000 /\
    PyDict.get "0" (positions (sim w')) = Some pos.
Proof.
  assert (valid_side "Long") as Hside by (left; reflexivity).
  assert (0 < 1000) as Hn by reflexivity.
  assert (1000 <= cash (sim (boot 10000))) as Hcash
    by (unfold Qle; simpl; lia).
  destruct (place_order_opens clock ids (boot 10000) "BTC/USDT" "Long" 1000
              (Some 100) (Some 90) None 100 Hside Hn Hcash eq_refl)
    as (pos & w' & Hrun & Hid & _ & Hs & _ & _ & _ & _ & Hst & _ & _ & Hc &
        Hget & _).
  exists pos, w'. split; [exact Hrun|]. split; [exact Hid|].
  split; [exact Hs|]. split; [exact Hst|].
  split; [rewrite Hc; vm_compute; reflexivity|].
  rewrite Hid in Hget. exact Hget.
Defined.

Lemma open_close_round_trip_witness :
  exists pos w1 closed w2 pnl,
    place_order clock ids "BTC/USDT" "short" 1000 (Some 100) None None
      (boot 10000) = (Return pos, w1) /\
    close_position clock (SimPosition.id pos) (Some 100) w1
    = (Return closed, w2) /\
    SimPosition.pnl closed = Some pnl /\ pnl == 0 /\
    cash (sim w2) == 10000 /\
    positions (sim w2) = [].
Proof.
  assert (valid_side "short") as Hside by (right; reflexivity).
  assert (0 < 1000) as Hn by reflexivity.
  assert (1000 <= cash (sim (boot 10000))) as Hcash
    by (unfold Qle; simpl; lia).
  assert (~ 100 == 0) as Hep by (intros H; discriminate H).
  destruct (open_close_round_trip clock ids (boot 10000) "BTC/USDT" "short"
              1000 (Some 100) None None 100 Hside Hn Hcash eq_refl Hep
              (no_key_of_empty _))
    as (pos & w1 & closed & w2 & pnl & H1 & H2 & H3 & H4 & H5 & H6 & _).
  exists pos, w1, closed, w2, pnl. repeat (split; [assumption|]).
  exact H6.
Defined.

Lemma place_order_failure_witness :
  place_order clock ids "BTC/USDT" "buy" 1000 (Some 100) None None
    (boot 10000) = (Raise (ValueError BadSide), boot 10000) /\
  ~ valid_side "buy".
Proof.
  assert (place_order clock ids "BTC/USDT" "buy" 1000 (Some 100) None None
            (boot 10000) = (Raise (ValueError BadSide), boot 10000)) as Hrun
    by reflexivity.
  split; [exact Hrun|].
  destruct (place_order_failure clock ids _ _ _ _ _ _ _ _ _ Hrun)
    as [_ [[_ H]|[[H _]|[[H _]|[H _]]]]];
    [exact H|discriminate H|discriminate H|discriminate H].
Defined.

Lemma close_position_failure_witness :
  close_position clock "7" None (boot 10000)
  = (Raise (KeyError "7"), boot 10000) /\
  PyDict.get "7" (positions (sim (boot 10000))) = None.
Proof.
  assert (close_position clock "7" None (boot 10000)
          = (Raise (KeyError "7"), boot 10000)) as Hrun by reflexivity.
  split; [exact Hrun|].
  destruct (close_position_failure clock _ _ _ _ _ Hrun)
    as [_ [[_ H]|(pos & H & _)]]; [exact H|discriminate H].
Defined.

Lemma long_world_open_book : open_book (positions (sim long_world)).
Proof.
  rewrite long_world_positions. apply open_book_singleton; reflexivity.
Qed.

Lemma update_price_twice_witness :
  let w1 := snd (update_price clock "BTC/USDT" 89 long_world) in
  trade_history (sim w1) <> [] /\
  update_price clock "BTC/USDT" 89 w1 = (Return tt, w1).
Proof.
  split; [vm_compute; discriminate|].
  exact (update_price_twice clock long_world "BTC/USDT" 89
           long_world_open_book eq_refl).
Defined.

Lemma session_has_no_reset : Forall (fun c => ~ is_reset c) session.
Proof. repeat constructor; intros []. Qed.

Lemma history_append_only_witness :
  trade_history (sim long_world) = [] /\
  length (trade_history (sim (exec_all clock ids (drop 1 session) long_world)))
  = 2%nat /\
  trade_history (sim long_world)
  `prefix_of`
  trade_history (sim (exec_all clock ids (drop 1 session) long_world)).
Proof.
  split; [reflexivity|]. split; [vm_compute; reflexivity|].
  apply (history_append_only clock ids long_world (drop 1 session)).
  pose proof session_has_no_reset as H. by apply Forall_cons in H as [_ H].
Defined.

Lemma boot_solvent : solvent (sim (boot 10000)).
Proof.
  split; [unfold Qle; simpl; lia|]. split; [unfold Qle; simpl; lia|].
  split.
  - intros k pos H. by apply elem_of_nil in H.
  - intros market p H. change ((∅ : gmap string Q) !! market = Some p) in H.
    by apply lookup_empty_Some in H.
Qed.

Lemma session_orderly : Forall orderly session.
Proof. repeat constructor. Qed.

Lemma solvency_kept_witness :
  0 <= cash (sim (exec_all clock ids session (boot 10000))).
Proof.
  exact (proj2 (solvency_kept clock ids (boot 10000) session boot_solvent
                  session_orderly)).
Defined.

Lemma pnl_sign_and_bound_witness :
  exists v,
    _calc_pnl_price long_position 89 (boot 10000) = (Return v, boot 10000) /\
    - 1000 < v /\ ~ 0 < v.
Proof.
  destruct (pnl_sign_and_bound (boot 10000) long_position 89
              eq_refl eq_refl eq_refl) as (v & Hrun & Hbound & Hlong & _).
  exists v. split; [exact Hrun|]. split; [exact Hbound|].
  intros Hv. apply (Hlong eq_refl) in Hv. revert Hv. vm_compute.
  discriminate.
Defined.

Lemma marked_world_positions :
  positions (sim marked_world) = [("0", long_position)].
Proof. vm_compute. reflexivity. Qed.

Lemma marked_world_price :
  last_prices (sim marked_world) !! "BTC/USDT" = Some 95.
Proof. vm_compute. reflexivity. Qed.

Lemma marked_world_marked : marked (sim marked_world).
Proof.
  intros k pos Hin. rewrite marked_world_positions in Hin.
  apply list_elem_of_singleton in Hin. injection Hin as -> ->.
  split; [reflexivity|]. intros price _.
  unfold pnl_defined. rewrite decide_True by reflexivity.
  intros H. discriminate H.
Qed.

Lemma equity_is_cash_plus_unrealized_witness :
  exists e,
    _equity marked_world = (Return e, marked_world) /\
    cash (sim marked_world) == 9000 /\
    e == 8950.
Proof.
  destruct (equity_is_cash_plus_unrealized marked_world marked_world_marked)
    as (e & Hrun & He).
  exists e. split; [exact Hrun|]. split; [vm_compute; reflexivity|].
  rewrite He. vm_compute. reflexivity.
Defined.

Lemma priced_world_marked : marked (sim priced_world).
Proof. intros k pos Hin. vm_compute in Hin. by apply elem_of_nil in Hin. Qed.

Lemma equity_after_open_witness :
  exists e pos w' e',
    _equity priced_world = (Return e, priced_world) /\
    place_order clock ids "BTC/USDT" "long" 1000 None None None priced_world
    = (Return pos, w') /\
    _equity w' = (Return e', w') /\
    e == 10000 /\ e' == 9000.
Proof.
  assert (valid_side "long") as Hside by (left; reflexivity).
  assert (0 < 1000) as Hn by reflexivity.
  assert (1000 <= cash (sim priced_world)) as Hcash
    by (vm_compute; discriminate).
  assert (last_prices (sim priced_world) !! "BTC/USDT" = Some 100) as Hlp
    by (vm_compute; reflexivity).
  assert (~ 100 == 0) as Hnz by (intros H; discriminate H).
  assert (ids (uuid_calls priced_world)
          ∉ PyDict.keys (positions (sim priced_world))) as Hfresh.
  { intros H. vm_compute in H. by apply elem_of_nil in H. }
  destruct (equity_after_open clock ids priced_world "BTC/USDT" "long" 1000
              None None None 100 100 priced_world_marked Hside Hn Hcash Hlp
              Hlp (Qeq_refl 100) Hnz Hfresh)
    as (e & pos & w' & e' & He & Hrun & He' & Hdiff).
  assert (e == 10000) as H10000.
  { assert (fst (_equity priced_world) = Return e) as Hfst by (by rewrite He).
    vm_compute in Hfst. injection Hfst as <-. reflexivity. }
  exists e, pos, w', e'. repeat (split; [assumption|]).
  rewrite Hdiff, H10000. reflexivity.
Defined.

Lemma exposure_balances_witness :
  exists pf ex,
    explain_current_exposure busy_world = (Return (Success (pf, ex)), busy_world) /\
    pf_cash pf == 8890 /\
    total_notional_committed ex == 1000 /\
    pf_realized_pnl pf == - 110 /\
    pf_cash pf + total_notional_committed ex
    == pf_initial_balance pf + pf_realized_pnl pf.
Proof.
  destruct (explain_current_exposure busy_world) as [r w'] eqn:Hrun.
  assert (exists pf ex, r = Return (Success (pf, ex)) /\
            pf_cash pf == 8890 /\ total_notional_committed ex == 1000 /\
            pf_realized_pnl pf == - 110) as (pf & ex & -> & H1 & H2 & H3).
  { vm_compute in Hrun. injection Hrun as <- _.
    eexists _, _. split; [reflexivity|]. repeat split; reflexivity. }
  assert (pristine (boot 10000)) as H0 by (left; by exists 10000).
  destruct (exposure_balances clock ids ids_inj (boot 10000) (take 3 session)
              pf ex w' H0 Hrun) as (-> & Hbal & _).
  exists pf, ex. split; [reflexivity|]. repeat (split; [assumption|]).
  exact Hbal.
Defined.

Lemma sizing_bounds_the_loss_witness :
  exists sz pnl,
    suggest_notional_from_risk 1 "BTC/USDT" 95 priced_world
    = (Return (Success sz), priced_world) /\
    _calc_pnl_price
      (SimPosition.mk "0" "BTC/USDT" "long" (sz_last_price sz)
         (sz_notional sz) (Some 95) None 0 "open" None None None)
      95 priced_world = (Return pnl, priced_world) /\
    sz_risk_amount sz == 100 /\
    pnl == - 100.
Proof.
  destruct (suggest_notional_from_risk 1 "BTC/USDT" 95 priced_world)
    as [r w'] eqn:Hrun.
  assert (exists sz, r = Return (Success sz) /\ w' = priced_world /\
            sz_last_price sz = 100 /\ sz_risk_amount sz == 100)
    as (sz & -> & -> & Hlast & Hrisk).
  { vm_compute in Hrun. injection Hrun as <- <-.
    eexists. split; [reflexivity|]. repeat split; reflexivity. }
  set (pos := SimPosition.mk "0" "BTC/USDT" "long" (sz_last_price sz)
                (sz_notional sz) (Some 95) None 0 "open" None None None).
  assert (0 < sz_last_price sz) as Hlp by (rewrite Hlast; reflexivity).
  destruct (sizing_bounds_the_loss priced_world priced_world 1 "BTC/USDT" 95
              sz pos Hrun eq_refl Hlp eq_refl eq_refl)
    as (pnl & Hpnl & Hlong & _).
  exists sz, pnl. split; [reflexivity|]. split; [exact Hpnl|].
  split; [exact Hrisk|].
  rewrite (Hlong eq_refl) by (rewrite Hlast; reflexivity).
  rewrite Hrisk. reflexivity.
Defined.

(** * Indicators *)

Lemma item_from_end {A} (l : list A) (j : nat) (x : A) :
  reverse l !! j = Some x -> item l (- (Z.of_nat j + 1)) = Done x.
Proof.
  intros Hx. apply reverse_lookup_Some in Hx as [Hx Hj].
  unfold item.
  assert ((- (Z.of_nat j + 1) <? 0)%Z = true) as -> by lia.
  assert ((- (Z.of_nat j + 1) + Z.of_nat (length l) <? 0)%Z = false) as ->
    by lia.
  assert ((Z.of_nat (length l) <=? - (Z.of_nat j + 1) + Z.of_nat (length l))%Z
          = false) as -> by lia.
  simpl.
  assert (Z.to_nat (- (Z.of_nat j + 1) + Z.of_nat (length l))
          = (length l - S j)%nat) as -> by lia.
  by rewrite Hx.
Qed.

Lemma rsi_step_eq prices g l i a b :
  item prices (- i) = Done a ->
  item prices (- i - 1) = Done b ->
  rsi_step prices (g, l) i
  = Done (if Qltb 0 (a - b) then (g ++ [a - b], l)
          else (g, l ++ [- (a - b)])).
Proof.
  intros Ha Hb. unfold rsi_step. rewrite Ha, Hb. simpl.
  by destruct (Qltb 0 (a - b)).
Qed.

Lemma rsi_loop_from prices (k : nat) :
  forall (pre rest : list Q) (g l : list Q),
    reverse prices = pre ++ rest ->
    (k < length rest)%nat ->
    for_each (rsi_step prices) (g, l)
      (seqZ (Z.of_nat (length pre) + 1) (Z.of_nat k))
    = Done (g ++ rises (take k (moves rest)),
            l ++ falls (take k (moves rest))).
Proof.
  induction k as [|k IH]; intros pre rest g l Hrev Hk.
  - rewrite seqZ_nil by lia. simpl. unfold rises, falls. simpl.
    by rewrite !app_nil_r.
  - destruct rest as [|a [|b rest]]; simpl in Hk; [lia|lia|].
    rewrite seqZ_cons by lia.
    replace (Z.succ (Z.of_nat (length pre) + 1))
      with (Z.of_nat (length (pre ++ [a])) + 1)%Z
      by (rewrite length_app; simpl; lia).
    replace (Z.pred (Z.of_nat (S k))) with (Z.of_nat k) by lia.
    cbn [for_each].
    rewrite (rsi_step_eq prices g l _ a b).
    2:{ apply item_from_end. rewrite Hrev. by rewrite list_lookup_middle. }
    2:{ replace (- (Z.of_nat (length pre) + 1) - 1)%Z
          with (- (Z.of_nat (S (length pre)) + 1))%Z by lia.
        apply item_from_end. rewrite Hrev.
        rewrite lookup_app_r by lia.
        by replace (S (length pre) - length pre)%nat with 1%nat by lia. }
    cbn [mbind attempt_bind].
    assert (take (S k) (moves (a :: b :: rest))
            = (a - b) :: take k (moves (b :: rest))) as -> by done.
    unfold rises, falls. rewrite !filter_cons.
    destruct (Qltb 0 (a - b)) eqn:Hd.
    + apply Qltb_lt in Hd as Hd'.
      rewrite decide_True by done.
      rewrite decide_False by (intros Hn; by apply Hn).
      rewrite (IH (pre ++ [a]) (b :: rest));
        [|by rewrite Hrev, <- app_assoc|simpl; lia].
      by rewrite <- app_assoc.
    + apply Qltb_ge in Hd as Hd'.
      assert (~ 0 < a - b) as Hn by (by apply Qle_not_lt).
      rewrite decide_False by done. rewrite decide_True by done.
      rewrite (IH (pre ++ [a]) (b :: rest));
        [|by rewrite Hrev, <- app_assoc|simpl; lia].
      cbn [map]. by rewrite <- app_assoc.
Qed.

Lemma rsi_loop prices period :
  (period + 1 <= Z.of_nat (length prices))%Z ->
  for_each (rsi_step prices) ([], []) (seqZ 1 period)
  = Done (rises (recent_moves prices period),
          falls (recent_moves prices period)).
Proof.
  intros Hlen. unfold recent_moves.
  destruct (decide (period <= 0)%Z) as [Hneg|Hpos].
  - rewrite seqZ_nil by lia.
    by assert (Z.to_nat period = 0%nat) as -> by lia.
  - replace period with (Z.of_nat (Z.to_nat period)) at 1 by lia.
    apply (rsi_loop_from prices (Z.to_nat period) [] (reverse prices) [] []);
      [done|].
    rewrite length_reverse. lia.
Qed.

Lemma rises_positive ds : Forall (fun d => 0 < d) (rises ds).
Proof.
  unfold rises. apply Forall_forall. intros d Hd.
  by apply list_elem_of_filter in Hd as [Hd _].
Qed.

Lemma falls_nonnegative ds : Forall (fun d => 0 <= d) (falls ds).
Proof.
  unfold falls. apply Forall_forall. intros d Hd.
  apply list_elem_of_fmap in Hd as (x & -> & Hx).
  apply list_elem_of_filter in Hx as [Hx _].
  apply Qnot_lt_le in Hx. lra.
Qed.

Lemma total_nonneg xs : Forall (fun d => 0 <= d) xs -> 0 <= total xs.
Proof.
  induction 1 as [|x xs Hx _ IH]; simpl; [apply Qle_refl|]. lra.
Qed.

Lemma total_rises_nonneg ds : 0 <= total (rises ds).
Proof.
  apply total_nonneg. eapply Forall_impl; [apply rises_positive|].
  intros d Hd. by apply Qlt_le_weak.
Qed.

Lemma inject_Z_nonzero z : z <> 0%Z -> Qeq_bool (inject_Z z) 0 = false.
Proof.
  intros Hz. apply Qeq_bool_false. unfold Qeq. simpl. lia.
Qed.

Lemma recent_moves_period prices period :
  recent_moves prices period <> [] -> (1 <= period)%Z.
Proof.
  unfold recent_moves. intros H.
  destruct (decide (1 <= period)%Z); [done|].
  by assert (Z.to_nat period = 0%nat) as Hz by lia; rewrite Hz in H.
Qed.

(** The value of [simple_rsi] in terms of the rises and the falls of the
    moves it looks at. *)
Lemma divide_nonzero a b : ~ b == 0 -> divide a b = Done (a / b).
Proof. intros Hb. unfold divide. by rewrite Qeq_bool_false. Qed.

Lemma divide_by_period period x :
  (1 <= period)%Z ->
  divide x (inject_Z period) = Done (x / inject_Z period).
Proof.
  intros Hp. unfold divide. by rewrite inject_Z_nonzero by lia.
Qed.

Lemma rises_falls_period prices period :
  rises (recent_moves prices period) <> [] \/
  falls (recent_moves prices period) <> [] ->
  (1 <= period)%Z.
Proof.
  intros Hne. apply (recent_moves_period prices).
  intros HD. rewrite HD in Hne. by destruct Hne.
Qed.

Lemma simple_rsi_value prices period :
  (period + 1 <= Z.of_nat (length prices))%Z ->
  let G := total (rises (recent_moves prices period)) in
  let L := total (falls (recent_moves prices period)) in
  (L == 0 -> simple_rsi prices period = Done 100) /\
  (~ L == 0 ->
   exists r, simple_rsi prices period = Done r /\ r == 100 * G / (G + L)).
Proof.
  intros Hlen G L.
  assert (0 <= G) as HG by apply total_rises_nonneg.
  assert (0 <= L) as HL by apply total_nonneg, falls_nonnegative.
  pose proof (rises_falls_period prices period) as Hperiod.
  assert (sum (rises (recent_moves prices period)) == G) as HsumG
    by apply sum_total.
  assert (sum (falls (recent_moves prices period)) == L) as HsumL
    by apply sum_total.
  unfold simple_rsi.
  assert ((Z.of_nat (length prices) <? period + 1)%Z = false) as -> by lia.
  rewrite (rsi_loop prices period Hlen).
  cbn [mbind attempt_bind fst snd].
  clearbody G L.
  destruct (falls (recent_moves prices period)) as [|y ys] eqn:Hfalls.
  { (* no fall at all *)
    assert (L == 0) as HL0 by (rewrite <- HsumL; reflexivity).
    split; [|intros Hn; by destruct Hn].
    intros _.
    destruct (rises (recent_moves prices period)) as [|x xs] eqn:Hrises;
      [reflexivity|].
    rewrite divide_by_period; [reflexivity|]. apply Hperiod. by left. }
  assert (1 <= period)%Z as Hp1 by (apply Hperiod; by right).
  assert (0 < inject_Z period) as Hpq by (unfold Qlt; simpl; lia).
  rewrite (divide_by_period period (sum (y :: ys))) by done.
  set (p := inject_Z period) in *.
  assert (~ p == 0) as Hp0 by lra.
  assert (exists ag,
    match rises (recent_moves prices period) with
    | [] => mret 0
    | _ => divide (sum (rises (recent_moves prices period))) p
    end = Done ag /\ ag == G / p) as (ag & -> & Hag).
  { destruct (rises (recent_moves prices period)) as [|x xs] eqn:Hrises.
    - exists 0. split; [done|]. rewrite <- HsumG. unfold sum. simpl.
      unfold Qdiv. ring.
    - eexists. split; [by apply divide_by_period|]. by rewrite HsumG. }
  cbn [mbind attempt_bind mret attempt_ret].
  set (al := sum (y :: ys) / p) in *.
  assert (al == L / p) as Hal by (subst al; by rewrite HsumL).
  split.
  - intros HL0.
    assert (Qeq_bool al 0 = true) as ->; [|reflexivity].
    apply Qeq_bool_iff. rewrite Hal, HL0. unfold Qdiv. ring.
  - intros HLn.
    assert (0 < L) as HLpos.
    { apply Qle_lt_or_eq in HL as [HL|HL]; [done|]. exfalso. apply HLn.
      by symmetry. }
    assert (0 < al) as Halpos.
    { rewrite Hal. apply Qlt_shift_div_l; [done|]. lra. }
    assert (0 <= ag) as Hagpos.
    { rewrite Hag. apply Qle_shift_div_l; [done|]. lra. }
    rewrite Qeq_bool_false by lra.
    rewrite (divide_nonzero ag al) by lra.
    cbn [mbind attempt_bind].
    assert (0 <= ag / al) as Hrs.
    { apply Qle_shift_div_l; [done|]. lra. }
    rewrite (divide_nonzero 100 (1 + ag / al)) by lra.
    cbn [mbind attempt_bind mret attempt_ret].
    eexists. split; [reflexivity|].
    rewrite Hag, Hal. field. repeat split; lra.
Qed.

Lemma simple_rsi_cases (prices : list Q) (period : Z) :
  ((Z.of_nat (length prices) < period + 1)%Z /\
   simple_rsi prices period = Failed (PyValueError "Not enough data for RSI"))
  \/
  ((period + 1 <= Z.of_nat (length prices))%Z /\
   exists r, simple_rsi prices period = Done r /\ 0 <= r /\ r <= 100).
Proof.
  destruct (decide (Z.of_nat (length prices) < period + 1)%Z) as [Hlt|Hge].
  - left. split; [done|]. unfold simple_rsi.
    by assert ((Z.of_nat (length prices) <? period + 1)%Z = true) as ->
      by lia.
  - right. split; [lia|].
    destruct (simple_rsi_value prices period) as [H0 Hn]; [lia|].
    set (G := total (rises (recent_moves prices period))) in *.
    set (L := total (falls (recent_moves prices period))) in *.
    assert (0 <= G) as HG by apply total_rises_nonneg.
    assert (0 <= L) as HL by apply total_nonneg, falls_nonnegative.
    destruct (Qeq_dec L 0) as [HL0|HLn].
    + exists 100. split; [by apply H0|]. split; [|apply Qle_refl].
      unfold Qle. simpl. lia.
    + destruct (Hn HLn) as (r & Hr & Hv). exists r. split; [done|].
      assert (0 < G + L) as Hsum.
      { apply Qle_lt_or_eq in HL as [HL|HL]; [lra|]. exfalso. apply HLn.
        by symmetry. }
      rewrite Hv. split.
      * apply Qle_shift_div_l; [done|]. lra.
      * apply Qle_shift_div_r; [done|]. lra.
Qed.

(** X20. [simple_rsi] raises only the [ValueError] of its docstring, and
    exactly when there are fewer than [period + 1] prices: no index is ever
    out of range and no division is by zero, for any period, also zero or
    negative.  Otherwise it returns a value between 0 and 100. *)
Theorem simple_rsi_range (prices : list Q) (period : Z) :
  ((Z.of_nat (length prices) < period + 1)%Z /\
   simple_rsi prices period = Failed (PyValueError "Not enough data for RSI"))
  \/
  ((period + 1 <= Z.of_nat (length prices))%Z /\
   exists r, simple_rsi prices period = Done r /\ 0 <= r /\ r <= 100).
Proof. apply simple_rsi_cases. Qed.

Lemma moves_take_app (p : nat) :
  forall r1 r2 : list Q,
    length r1 = S p -> take p (moves (r1 ++ r2)) = take p (moves r1).
Proof.
  induction p as [|p IH]; intros r1 r2 Hlen; [done|].
  destruct r1 as [|a [|b r1]]; simpl in Hlen; [lia|lia|].
  change (take (S p) (moves ((a :: b :: r1) ++ r2)))
    with ((a - b) :: take p (moves ((b :: r1) ++ r2))).
  change (take (S p) (moves (a :: b :: r1)))
    with ((a - b) :: take p (moves (b :: r1))).
  f_equal. apply IH. simpl. lia.
Qed.

(** X21. [simple_rsi] only looks at the last [period + 1] prices: older
    prices, however many, do not change its result. *)
Theorem simple_rsi_window (older window : list Q) (period : Z) :
  Z.of_nat (length window) = (period + 1)%Z ->
  simple_rsi (older ++ window) period = simple_rsi window period.
Proof.
  intros Hlen. unfold simple_rsi.
  assert ((Z.of_nat (length (older ++ window)) <? period + 1)%Z = false)
    as -> by (apply Z.ltb_ge; rewrite length_app; lia).
  assert ((Z.of_nat (length window) <? period + 1)%Z = false) as ->
    by (apply Z.ltb_ge; lia).
  rewrite !rsi_loop by (rewrite ?length_app; lia).
  assert (recent_moves (older ++ window) period = recent_moves window period)
    as ->; [|reflexivity].
  unfold recent_moves. rewrite reverse_app.
  destruct (decide (period < 0)%Z) as [Hneg|Hpos].
  - by assert (Z.to_nat period = 0%nat) as -> by lia.
  - apply moves_take_app. rewrite length_reverse. lia.
Qed.

Lemma total_zero xs : Forall (fun x => x == 0) xs -> total xs == 0.
Proof.
  induction 1 as [|x xs Hx _ IH]; simpl; [reflexivity|].
  rewrite Hx, IH. ring.
Qed.

Lemma no_fall_total ds :
  (forall d, d ∈ ds -> 0 <= d) -> total (falls ds) == 0.
Proof.
  intros Hall. apply total_zero, Forall_forall. intros x Hx. unfold falls in Hx.
  apply list_elem_of_fmap in Hx as (d & -> & Hd).
  apply list_elem_of_filter in Hd as [Hn Hd].
  apply Qnot_lt_le in Hn. pose proof (Hall d Hd). lra.
Qed.

Lemma no_rise_total ds :
  (forall d, d ∈ ds -> d <= 0) -> total (rises ds) == 0.
Proof.
  intros Hall. apply total_zero, Forall_forall. intros x Hx. unfold rises in Hx.
  apply list_elem_of_filter in Hx as [Hp Hd].
  pose proof (Hall x Hd). lra.
Qed.

(** X22. The value of [simple_rsi], with enough prices: over the last
    [period] price moves, with [G] the sum of the rises and [L] the sum of
    the falls, it is 100 when [L] is zero and [100 * G / (G + L)] otherwise
    (the division by the period cancels).  So it is 100 when no price of
    the window is below its predecessor, also when the prices are flat, and
    0 when none is above its predecessor and one is below. *)
Theorem simple_rsi_formula (prices : list Q) (period : Z) :
  (period + 1 <= Z.of_nat (length prices))%Z ->
  let D := recent_moves prices period in
  let G := total (rises D) in
  let L := total (falls D) in
  (L == 0 -> simple_rsi prices period = Done 100) /\
  (~ L == 0 ->
   exists r, simple_rsi prices period = Done r /\ r == 100 * G / (G + L)) /\
  ((forall d, d ∈ D -> 0 <= d) -> simple_rsi prices period = Done 100) /\
  ((forall d, d ∈ D -> d <= 0) -> ~ L == 0 ->
   exists r, simple_rsi prices period = Done r /\ r == 0).
Proof.
  intros Hlen D G L.
  destruct (simple_rsi_value prices period Hlen) as [H0 Hn].
  fold D in H0, Hn. fold G in Hn. fold L in H0, Hn.
  split; [exact H0|]. split; [exact Hn|]. split.
  - intros Hall. apply H0. by apply no_fall_total.
  - intros Hall HL. destruct (Hn HL) as (r & Hr & Hv).
    exists r. split; [exact Hr|]. rewrite Hv.
    assert (G == 0) as -> by (by apply no_rise_total).
    unfold Qdiv. ring.
Qed.

Section MoreIndicators.

Variable float_of_string : string -> option Q.

Lemma closes_of_length candles closes :
  closes_of float_of_string candles = Done closes ->
  length closes = length candles.
Proof.
  revert closes. induction candles as [|c candles IH]; intros closes; simpl.
  - by intros [= <-].
  - destruct (subscript c "close") as [v|e]; simpl; [|done].
    destruct (to_float float_of_string v) as [x|e]; simpl; [|done].
    destruct (closes_of float_of_string candles) as [xs|e]; simpl; [|done].
    intros [= <-]. simpl. f_equal. by apply IH.
Qed.

Lemma closes_of_last candles closes c :
  closes_of float_of_string candles = Done closes ->
  last candles = Some c ->
  exists v x,
    subscript c "close" = Done v /\ to_float float_of_string v = Done x /\
    last closes = Some x.
Proof.
  revert closes. induction candles as [|c0 candles IH]; intros closes; simpl;
    [done|].
  destruct (subscript c0 "close") as [v|e] eqn:Hv; simpl; [|done].
  destruct (to_float float_of_string v) as [x|e] eqn:Hx; simpl; [|done].
  destruct (closes_of float_of_string candles) as [xs|e] eqn:Hxs; simpl;
    [|done].
  intros [= <-] Hlast.
  destruct candles as [|c1 candles].
  - injection Hlast as <-. simpl in Hxs. injection Hxs as <-.
    by exists v, x.
  - destruct (IH xs eq_refl Hlast) as (v' & x' & H1 & H2 & H3).
    exists v', x'. repeat (split; [done|]).
    destruct xs as [|x1 xs]; [done|]. exact H3.
Qed.

Lemma item_last {A} (l : list A) (x : A) :
  last l = Some x -> item l (- 1) = Done x.
Proof.
  intros Hlast. apply (item_from_end l 0 x).
  rewrite <- head_lookup. by rewrite head_reverse.
Qed.

(** X23. [compute_basic_indicators] never raises: the unguarded call of
    [simple_rsi] cannot fail after the check on the number of candles.  It
    answers with an error for an empty list, for a candle whose close is
    missing or is not a number, and for fewer than [rsi_period + 1]
    candles.  In every other case it answers with a success: the RSI is
    that of [simple_rsi] on the closes and is between 0 and 100, the latest
    price is the close of the last candle and the latest time its
    [time_iso] entry, the pair and the timeframe are those given or
    ["UNKNOWN"], the candle count is the length of the list and the
    candles are those given. *)
Theorem compute_basic_indicators_answers (candles : list candle)
    (rsi_period : Z) (pair_ timeframe : option string) :
  exists r,
    compute_basic_indicators float_of_string candles rsi_period pair_
      timeframe = Done r /\
    (candles = [] -> r = Err EmptyCandles) /\
    (forall e, candles <> [] ->
      closes_of float_of_string candles = Failed e ->
      r = Err (CloseExtractionFailed e)) /\
    (forall closes, candles <> [] ->
      closes_of float_of_string candles = Done closes ->
      (Z.of_nat (length candles) < rsi_period + 1)%Z ->
      r = Err (NotEnoughCandles (Z.of_nat (length candles)) (rsi_period + 1))) /\
    (forall closes, candles <> [] ->
      closes_of float_of_string candles = Done closes ->
      (rsi_period + 1 <= Z.of_nat (length candles))%Z ->
      exists rsi latest latest_price,
        simple_rsi closes rsi_period = Done rsi /\
        last candles = Some latest /\
        last closes = Some latest_price /\
        r = Ok (mkIndicators (or_unknown pair_) (or_unknown timeframe)
                  latest_price (PyDict.get "time_iso" latest) rsi
                  (length candles) rsi_period candles)) /\
    (forall ind, r = Ok ind ->
      candles <> [] /\
      (rsi_period + 1 <= Z.of_nat (length candles))%Z /\
      0 <= ind_rsi ind /\ ind_rsi ind <= 100 /\
      ind_candle_count ind = length candles /\
      ind_candles ind = candles /\
      ind_rsi_period ind = rsi_period /\
      exists closes,
        closes_of float_of_string candles = Done closes /\
        simple_rsi closes rsi_period = Done (ind_rsi ind) /\
        last closes = Some (ind_latest_price ind)).
Proof.
  unfold compute_basic_indicators.
  destruct candles as [|c0 cs] eqn:Hc.
  { eexists. split; [reflexivity|]. split; [done|].
    split; [done|]. split; [done|]. split; [done|]. intros ind [=]. }
  rewrite <- Hc.
  assert (candles <> []) as Hne by (by rewrite Hc).
  assert ((length candles =? 0)%nat = false) as ->
    by (rewrite Hc; reflexivity).
  destruct (closes_of float_of_string candles) as [closes|e] eqn:Hcloses.
  2:{ eexists. split; [reflexivity|]. split; [done|].
      split; [by intros e' _ [= <-]|]. split; [done|]. split; [done|].
      intros ind [=]. }
  pose proof (closes_of_length candles closes Hcloses) as Hlen.
  destruct (Z.of_nat (length closes) <? rsi_period + 1)%Z eqn:Hshort.
  { eexists. split; [reflexivity|]. split; [done|]. split; [done|].
    split; [intros closes' _ [= <-] _; by rewrite Hlen|].
    split; [intros closes' _ _ Hge; lia|intros ind [=]]. }
  destruct (simple_rsi_cases closes rsi_period)
    as [[Hlt _]|(Hge & rsi & Hrsi & Hlo & Hhi)]; [lia|].
  rewrite Hrsi. cbn [mbind attempt_bind].
  destruct (last candles) as [latest|] eqn:Hlast.
  2:{ apply last_None in Hlast. done. }
  rewrite (item_last candles latest Hlast). cbn [mbind attempt_bind].
  destruct (closes_of_last candles closes latest Hcloses Hlast)
    as (v & x & Hv & Hfloat & Hx).
  rewrite Hv. cbn [mbind attempt_bind]. rewrite Hfloat.
  cbn [mbind attempt_bind mret attempt_ret].
  eexists. split; [reflexivity|]. split; [done|]. split; [done|].
  split; [intros closes' _ _ Hlt; lia|].
  split.
  { intros closes' _ [= <-] _. by exists rsi, latest, x. }
  intros ind [= <-]. simpl.
  split; [done|]. split; [lia|]. repeat (split; [done|]).
  exists closes. done.
Qed.

End MoreIndicators.

(** ** Sample runs of the indicators *)

Lemma simple_rsi_window_witness :
  simple_rsi ([9; 7] ++ [1; 2; 3]) 2 = simple_rsi [1; 2; 3] 2 /\
  simple_rsi [1; 2; 3] 2 = Done 100.
Proof.
  split; [|reflexivity].
  apply (simple_rsi_window [9; 7] [1; 2; 3] 2). reflexivity.
Defined.

Lemma simple_rsi_formula_witness :
  exists r, simple_rsi [1; 2; 3; 2; 4] 3 = Done r /\ r == 75.
Proof.
  assert (3 + 1 <= Z.of_nat (length [1; 2; 3; 2; 4]))%Z as Hlen
    by (simpl; lia).
  destruct (simple_rsi_formula [1; 2; 3; 2; 4] 3 Hlen) as (_ & Hn & _).
  destruct Hn as (r & Hr & Hv); [vm_compute; discriminate|].
  exists r. split; [exact Hr|]. rewrite Hv. vm_compute. reflexivity.
Defined.

(** Three candles as [get_ohlcv] builds them give an RSI; a candle without
    a close gives an error, not an exception. *)
Example indicators_of_three_candles :
  exists ind,
    compute_basic_indicators (fun _ => None)
      [ [("timestamp", VInt 0); ("close", VFloat 1)];
        [("timestamp", VInt 1); ("close", VFloat 2)];
        [("timestamp", VInt 2); ("close", VFloat 3)] ] 2 (Some "BTC/USDT")
      None = Done (Ok ind) /\
    ind_rsi ind = 100 /\ ind_latest_price ind = 3 /\
    ind_pair ind = "BTC/USDT" /\ ind_timeframe ind = "UNKNOWN".
Proof. eexists. split; [reflexivity|]. repeat split. Qed.

Example indicators_without_close :
  compute_basic_indicators (fun _ => None)
    [ [("timestamp", VInt 0); ("close", VFloat 1)];
      [("timestamp", VInt 1)] ] 1 None None
  = Done (Err (CloseExtractionFailed (PyKeyError "close"))).
Proof. reflexivity. Qed.

(** ** Exchanges and failover *)

Section MoreExchanges.
Context `{Library}.
Variable utcnow : nat -> Z.

Ltac unfold_Run :=
  unfold mbind, Run_bind, mret, Run_ret, throw, globals, global, pure,
    on_simulator, catching.

Lemma usable_grows g g' ex_id : grows g g' -> usable g' ex_id -> usable g ex_id.
Proof. intros (_ & _ & Hi & _) [Hin|Hk]; [by apply Hi|by right]. Qed.

Lemma grows_usable g g' ex_id : grows g g' -> usable g ex_id -> usable g' ex_id.
Proof. intros (_ & Hi & _ & _) [Hin|Hk]; [left; by apply Hi|by right]. Qed.

Lemma grows_refl g : grows g g.
Proof. repeat split; [done|by left|done]. Qed.

Lemma grows_trans g1 g2 g3 : grows g1 g2 -> grows g2 g3 -> grows g1 g3.
Proof.
  intros (F1 & I1 & U1 & C1) (F2 & I2 & U2 & C2). split; [congruence|].
  split; [by etrans|]. split; [|lia].
  intros x Hx. eapply usable_grows; [|by apply U2].
  by split; [|split; [|split]].
Qed.

Lemma refusal_grows pair_ timeframe limit g1 g2 g3 g4 n :
  grows g1 g2 -> grows g3 g4 ->
  refusal pair_ timeframe limit g2 g3 n ->
  refusal pair_ timeframe limit g1 g4 n.
Proof.
  intros Hg12 Hg34.
  pose proof Hg12 as (_ & _ & _ & C1). pose proof Hg34 as (_ & _ & _ & C2).
  destruct n as [e tf|e [err|err]]; simpl; [| |done].
  - intros (-> & Hu & Hs). split; [done|]. split; [|done].
    by eapply usable_grows.
  - intros [(Hu & He)|(Hu & Hs & k & Hk & Hf)].
    + left. split; [|done]. intros Hu'. apply Hu. by eapply grows_usable.
    + right. split; [by eapply usable_grows|]. split; [done|].
      exists k. split; [lia|done].
Qed.

Lemma supports_None ex timeframe :
  timeframes_of ex = None -> supports ex timeframe.
Proof. unfold supports. by intros ->. Qed.

Lemma supports_Some ex timeframe timeframes :
  timeframes_of ex = Some timeframes ->
  supports ex timeframe <-> timeframe ∈ timeframes.
Proof. unfold supports. by intros ->. Qed.

Lemma grows_intro g g' :
  _FALLBACK_EXCHANGES g' = _FALLBACK_EXCHANGES g ->
  (_exchange_instances g' = _exchange_instances g \/
   exists ex_id, ex_id ∈ ccxt_exchanges /\
     _exchange_instances g' = _exchange_instances g ++ [ex_id]) ->
  (fetch_calls g <= fetch_calls g')%nat ->
  grows g g'.
Proof.
  intros Hf Hi Hc. split; [done|].
  destruct Hi as [->|(ex_id & Hk & ->)].
  - split; [done|]. split; [|done]. intros x Hx. by left.
  - split; [|split; [|done]].
    + intros x Hx. apply elem_of_app. by left.
    + intros x Hx. apply elem_of_app in Hx as [Hx|Hx]; [by left|].
      apply list_elem_of_singleton in Hx as ->. by right.
Qed.

(** One iteration: the exchange refuses and the loop goes on, or it answers
    and the loop stops. *)
Lemma try_exchange_cases pair_ timeframe limit ex_id l p :
  raw l = None ->
  (exists n p',
     try_exchange pair_ timeframe limit ex_id l p
     = (Returns (Next, mkLocals None (last_error_messages l ++ [n])
                         (used_exchange_id l)), p') /\
     about n = ex_id /\
     refusal pair_ timeframe limit (tools p) (tools p') n /\
     same_exchange (tools p) (tools p') /\
     grows (tools p) (tools p') /\ ledger p' = ledger p)
  \/
  (exists rows p',
     try_exchange pair_ timeframe limit ex_id l p
     = (Returns (Break, mkLocals (Some rows) (last_error_messages l)
                          (Some ex_id)), p') /\
     served pair_ timeframe limit (tools p) (tools p') ex_id rows /\
     grows (tools p) (tools p') /\ ledger p' = ledger p).
Proof.
  intros Hraw. destruct l as [r notes used]. simpl in Hraw. subst r.
  destruct p as [g w]. unfold try_exchange, request, _instantiate_exchange.
  unfold_Run. cbn [tools ledger raw last_error_messages used_exchange_id].
  case_bool_decide as Hcached; [|case_bool_decide as Hknown].
  2:{ left. eexists _, _. split; [reflexivity|]. simpl.
      split; [done|]. split; [|by split; [|split; [apply grows_refl|]]].
      left. split; [|done]. by intros [?|?]. }
  all: assert (ex_id ∈ ccxt_exchanges \/ ex_id ∈ _exchange_instances g)
    as Hwhy by (first [by right
                      |left; by destruct (decide (ex_id ∈ ccxt_exchanges))]).
  all: assert (usable g ex_id) as Husable by (destruct Hwhy; [by right|by left]).
  all: cbn [tools ledger].
  all: destruct (timeframes_of ex_id) as [tfs|] eqn:Htf;
    [case_bool_decide as Hsup|].
  1,4: left; eexists _, _; (split; [reflexivity|]); simpl;
    (split; [done|]); split;
    [split; [done|]; split; [done|]; by rewrite (supports_Some _ _ _ Htf)|];
    (split; [done|]); split; [|done];
    apply grows_intro; simpl; [done| |lia];
    first [by left|right; exists ex_id; split; [|done];
                   by destruct (decide (ex_id ∈ ccxt_exchanges))].
  all: assert (supports ex_id timeframe) as Hsupports
    by (first [apply (supports_None _ _ Htf)
              |apply (supports_Some _ _ _ Htf);
               by destruct (decide (timeframe ∈ tfs))]).
  all: cbn [tools ledger fetch_calls set_exchange_instances];
    destruct (fetch_ohlcv (fetch_calls g) ex_id pair_ timeframe limit)
      as [rows|err] eqn:Hfetch; [right|left]; eexists _, _;
    (split; [reflexivity|]); cbn [tools ledger about].
  all: try (split; [done|]).
  all: split;
    [|first [split; [|done] | split; [done|split; [|done]]];
      apply grows_intro; simpl; [done| |lia];
      first [by left|right; exists ex_id; split; [|done];
                     by destruct (decide (ex_id ∈ ccxt_exchanges))]].
  all: first
    [ (* served *)
      split; [done|]; split; [done|]; simpl;
      split; [first [done|apply elem_of_app; right;
                          by apply list_elem_of_singleton]|];
      split; [done|]; split; [done|];
      exists (fetch_calls g); by split; [|split]
    | (* refusal *)
      right; split; [done|]; split; [done|];
      exists (fetch_calls g); split; [simpl; lia|done] ].
Qed.

Lemma served_grows pair_ timeframe limit g1 g2 g3 ex_id rows :
  grows g1 g2 ->
  served pair_ timeframe limit g2 g3 ex_id rows ->
  served pair_ timeframe limit g1 g3 ex_id rows.
Proof.
  intros Hg (Hu & Hs & Hi & Hp & He & k & Hk & Hc & Hf).
  pose proof Hg as (_ & _ & _ & C).
  split; [by eapply usable_grows|]. do 4 (split; [done|]).
  exists k. split; [lia|done].
Qed.

Lemma same_exchange_trans g1 g2 g3 :
  same_exchange g1 g2 -> same_exchange g2 g3 -> same_exchange g1 g3.
Proof. intros [? ?] [? ?]. split; congruence. Qed.

(** The loop over the candidates: every candidate refuses, or the first one
    that does not serves the call. *)
Lemma for_until_cases pair_ timeframe limit cands l p :
  raw l = None ->
  exists l' p',
    for_until (try_exchange pair_ timeframe limit) cands l p
    = (Returns l', p') /\
    grows (tools p) (tools p') /\ ledger p' = ledger p /\
    exists ns,
      last_error_messages l' = last_error_messages l ++ ns /\
      Forall (refusal pair_ timeframe limit (tools p) (tools p')) ns /\
      ((raw l' = None /\ used_exchange_id l' = used_exchange_id l /\
        map about ns = cands /\ same_exchange (tools p) (tools p'))
       \/
       (exists rows ex_id later,
          raw l' = Some rows /\ used_exchange_id l' = Some ex_id /\
          cands = map about ns ++ ex_id :: later /\
          served pair_ timeframe limit (tools p) (tools p') ex_id rows)).
Proof.
  revert l p. induction cands as [|ex_id cands IH]; intros l p Hraw.
  - exists l, p. split; [reflexivity|]. split; [apply grows_refl|].
    split; [done|]. exists []. rewrite app_nil_r. split; [done|].
    split; [constructor|]. left. by repeat split.
  - cbn [for_until]. unfold mbind at 1, Run_bind at 1.
    destruct (try_exchange_cases pair_ timeframe limit ex_id l p Hraw)
      as [(n & p1 & -> & Hn & Hr & Hsame & Hg & Hw)
         |(rows & p1 & -> & Hs & Hg & Hw)]; cbn [fst snd].
    + edestruct (IH (mkLocals None (last_error_messages l ++ [n])
                       (used_exchange_id l)) p1) as
        (l' & p' & -> & Hg' & Hw' & ns & Hns & Hall & Hcases);
        [done|].
      exists l', p'. split; [reflexivity|].
      split; [by eapply grows_trans|]. split; [congruence|].
      exists (n :: ns). cbn [last_error_messages] in Hns.
      rewrite Hns, <- app_assoc. split; [done|]. split.
      * constructor.
        -- eapply refusal_grows; [apply grows_refl|exact Hg'|exact Hr].
        -- eapply Forall_impl; [exact Hall|]. intros x.
           apply refusal_grows; [exact Hg|apply grows_refl].
      * destruct Hcases as [(Hr' & Hu & Hm & Hsame')
                           |(rows & e & later & Hr' & Hu & Hm & Hs)].
        -- left. split; [done|]. split; [done|]. split.
           ++ cbn [map]. by rewrite Hn, Hm.
           ++ apply (same_exchange_trans _ _ _ Hsame Hsame').
        -- right. exists rows, e, later.
           split; [done|]. split; [done|]. split.
           ++ cbn [map]. by rewrite Hn, Hm.
           ++ apply (served_grows _ _ _ _ _ _ _ _ Hg Hs).
    + exists (mkLocals (Some rows) (last_error_messages l) (Some ex_id)), p1.
      split; [reflexivity|]. split; [done|]. split; [done|].
      exists []. rewrite app_nil_r. split; [done|]. split; [constructor|].
      right. exists rows, ex_id, cands. by split; [|split; [|split]].
Qed.

(** A candle built from a row holds the converted close of the row. *)
Lemma candle_of_close row c :
  candle_of row = Done c ->
  exists v q,
    row !! 4%nat = Some v /\ to_float parse_float v = Done q /\
    PyDict.get "close" c = Some (VFloat q) /\ length row = 6%nat.
Proof.
  destruct row as [|ts [|o [|h [|l [|cl [|v [|? ?]]]]]]]; try done.
  unfold candle_of. intros Hc. exists cl.
  destruct (to_int ts) as [timestamp|]; [|done].
  destruct (true_div ts 1000) as [seconds|]; [|done].
  cbn [mbind attempt_bind] in Hc.
  destruct (strftime_gmtime seconds) as [time_iso|]; [|done].
  destruct (to_float parse_float o) as [open|]; [|done].
  destruct (to_float parse_float h) as [high|]; [|done].
  destruct (to_float parse_float l) as [low|]; [|done].
  destruct (to_float parse_float cl) as [close|]; [|done].
  destruct (to_float parse_float v) as [volume|]; [|done].
  cbn in Hc. injection Hc as <-. exists close. by repeat split.
Qed.

Lemma candles_loop rows : forall acc cs,
  for_each (fun candles row => c ← candle_of row; mret (candles ++ [c]))
           acc rows = Done cs ->
  exists cs', cs = acc ++ cs' /\
    Forall2 (fun row c => candle_of row = Done c) rows cs'.
Proof.
  induction rows as [|row rows IH]; intros acc cs; cbn [for_each].
  - intros [= <-]. exists []. by rewrite app_nil_r.
  - destruct (candle_of row) as [c|] eqn:Hc; [|done].
    cbn [mbind attempt_bind mret attempt_ret]. intros Hrest.
    destruct (IH _ _ Hrest) as (cs' & -> & Hall).
    exists (c :: cs'). rewrite <- app_assoc. split; [done|].
    by constructor.
Qed.

Lemma candles_of_rows rows cs :
  candles_of rows = Done cs ->
  Forall2 (fun row c => candle_of row = Done c) rows cs.
Proof.
  intros Hcs. by destruct (candles_loop _ _ _ Hcs) as (cs' & -> & Hall).
Qed.

Lemma list_last_case {A} (l : list A) :
  l = [] \/ exists l' x, l = l' ++ [x].
Proof. destruct l as [|x l' _] using rev_ind; [by left|right; eauto]. Qed.

Lemma candles_of_last rows candles c :
  candles_of rows = Done (candles ++ [c]) ->
  exists row, last rows = Some row /\ candle_of row = Done c.
Proof.
  intros Hcs. apply candles_of_rows in Hcs.
  apply Forall2_app_inv_r in Hcs as (rows1 & rows2 & H1 & H2 & ->).
  apply Forall2_cons_inv_r in H2 as (row & rows3 & Hrow & H3 & ->).
  apply Forall2_nil_inv_r in H3 as ->.
  exists row. by rewrite last_snoc.
Qed.

Lemma floor_limit (limit : Z) :
  (if (limit <? 60)%Z then 60%Z else limit) = Z.max limit 60.
Proof. destruct (Z.ltb_spec limit 60); lia. Qed.

(** The end of a call whose loop was left with an answer. *)
Lemma get_ohlcv_served pair_ timeframe limit p l' g1 rows ex_id :
  for_until (try_exchange pair_ timeframe (Z.max limit 60))
    (candidates (tools p)) (mkLocals None [] None) p
  = (Returns l', mkProcess g1 (ledger p)) ->
  raw l' = Some rows -> used_exchange_id l' = Some ex_id ->
  delivers utcnow pair_ timeframe ex_id rows g1 (ledger p)
    (get_ohlcv utcnow pair_ timeframe limit p).
Proof.
  intros Hfor Hraw Hu.
  remember (get_ohlcv utcnow pair_ timeframe limit p) as run eqn:Hrun.
  unfold get_ohlcv in Hrun. rewrite floor_limit in Hrun.
  unfold mbind at 1, Run_bind at 1 in Hrun. unfold globals at 1 in Hrun.
  unfold mbind at 1, Run_bind at 1 in Hrun.
  rewrite Hfor, Hraw, Hu in Hrun.
  unfold mbind at 1, Run_bind at 1 in Hrun. unfold pure at 1 in Hrun.
  unfold delivers.
  destruct (candles_of rows) as [cs|err] eqn:Hcs; [|left; by exists err].
  right. destruct (list_last_case cs) as [->|(candles & c & ->)].
  { left. split; [done|]. exact Hrun. }
  right.
  destruct (candles_of_last _ _ _ Hcs) as (row & Hlast & Hrow).
  destruct (candle_of_close _ _ Hrow) as (v & q & _ & _ & Hclose & _).
  exists candles, c, q. split; [done|]. split; [done|].
  assert (item (candles ++ [c]) (- 1) = Done c) as Hitem
    by (apply item_last, last_snoc).
  destruct (candles ++ [c]) as [|c1 cs1] eqn:Hcs1;
    [by destruct candles|].
  rewrite Hrun. unfold subscript.
  unfold mbind at 1, Run_bind at 1. unfold mbind at 1, Run_bind at 1.
  rewrite Hitem. unfold pure at 1.
  unfold mbind at 1, Run_bind at 1. rewrite Hclose. unfold pure at 1.
  unfold mbind at 1, Run_bind at 1. cbn [to_float]. unfold pure at 1.
  unfold on_simulator. cbn [tools ledger].
  by destruct (update_price utcnow pair_ q (ledger p)) as [[[]|x] w].
Qed.

(** The runs of [get_ohlcv]. *)
Lemma get_ohlcv_cases pair_ timeframe limit p :
  exists g1 ns,
    grows (tools p) g1 /\
    Forall (refusal pair_ timeframe (Z.max limit 60) (tools p) g1) ns /\
    ((get_ohlcv utcnow pair_ timeframe limit p
      = (Returns (Err ns), mkProcess g1 (ledger p)) /\
      map about ns = candidates (tools p) /\ same_exchange (tools p) g1)
     \/
     exists rows ex_id later,
       candidates (tools p) = map about ns ++ ex_id :: later /\
       served pair_ timeframe (Z.max limit 60) (tools p) g1 ex_id rows /\
       delivers utcnow pair_ timeframe ex_id rows g1 (ledger p)
         (get_ohlcv utcnow pair_ timeframe limit p)).
Proof.
  destruct (for_until_cases pair_ timeframe (Z.max limit 60)
              (candidates (tools p)) (mkLocals None [] None) p eq_refl)
    as (l' & p' & Hfor & Hg & Hw & ns & Hns & Hall & Hcases).
  exists (tools p'), ns. split; [done|]. split; [done|].
  cbn [last_error_messages app] in Hns.
  destruct p' as [g1 w1]. simpl in Hw. subst w1. cbn [tools] in *.
  destruct Hcases as [(Hraw & Hu & Hm & Hsame)
                     |(rows & e & later & Hraw & Hu & Hm & Hs)].
  - left. split; [|done].
    unfold get_ohlcv. rewrite floor_limit.
    unfold mbind at 1, Run_bind at 1. unfold globals at 1.
    unfold mbind at 1, Run_bind at 1. by rewrite Hfor, Hraw, Hns.
  - right. exists rows, e, later. split; [done|]. split; [done|].
    by eapply get_ohlcv_served.
Qed.

(** When [update_price] returns, the price is the last price of the
    market. *)
Lemma update_price_last_price w pair_ price w' :
  update_price utcnow pair_ price w = (Return tt, w') ->
  last_prices (sim w') !! pair_ = Some price.
Proof.
  intros Hrun.
  pose proof (closes_only_update_price utcnow w pair_ price) as Hc.
  rewrite Hrun in Hc. destruct Hc as (_ & Hc & _). cbn [snd] in Hc.
  rewrite Hc. simpl. apply lookup_insert_eq.
Qed.

(** An iteration on an exchange that is at hand, lists the timeframe and
    answers the next request. *)
Lemma try_exchange_answers pair_ timeframe limit ex_id l p rows :
  ex_id ∈ _exchange_instances (tools p) ->
  supports ex_id timeframe ->
  fetch_ohlcv (fetch_calls (tools p)) ex_id pair_ timeframe limit
  = Done rows ->
  try_exchange pair_ timeframe limit ex_id l p
  = (Returns (Break, mkLocals (Some rows) (last_error_messages l)
                       (Some ex_id)),
     mkProcess
       (set_exchange ex_id
          (set_primary_exchange_id ex_id
             (set_fetch_calls (S (fetch_calls (tools p))) (tools p))))
       (ledger p)).
Proof.
  intros Hcached Hsup Hfetch. destruct p as [g w].
  unfold try_exchange, request. unfold_Run. cbn [tools ledger] in *.
  rewrite (bool_decide_eq_true_2 _ Hcached). cbn [tools ledger].
  unfold supports in Hsup.
  destruct (timeframes_of ex_id) as [tfs|].
  - rewrite bool_decide_eq_false_2 by (by intros Hn).
    cbn [tools ledger]. by rewrite Hfetch.
  - cbn [tools ledger]. by rewrite Hfetch.
Qed.

(** X24. When [get_ohlcv] answers with an error, every candidate was tried
    once, in order, and refused: [ccxt] does not know it, or it does not
    list the timeframe, or its request (for at least 60 candles) failed.
    The primary exchange, the fallback list and the simulator are as
    before. *)
Theorem get_ohlcv_error (pair_ timeframe : string) (limit : Z) (p p' : Process)
    (notes : list note) :
  get_ohlcv utcnow pair_ timeframe limit p = (Returns (Err notes), p') ->
  map about notes = candidates (tools p) /\
  Forall (refusal pair_ timeframe (Z.max limit 60) (tools p) (tools p'))
         notes /\
  same_exchange (tools p) (tools p') /\
  grows (tools p) (tools p') /\
  ledger p' = ledger p.
Proof.
  intros Hrun.
  destruct (get_ohlcv_cases pair_ timeframe limit p)
    as (g1 & ns & Hg & Hall & [(Heq & Hm & Hsame)
                              |(rows & e & later & Hm & Hs & Hd)]).
  - rewrite Heq in Hrun. injection Hrun as <- <-. done.
  - rewrite Hrun in Hd.
    destruct Hd as [(x & _ & [=])|[(_ & [=])|(cs & c & q & _ & _ & Hd)]].
    by destruct (update_price utcnow pair_ q (ledger p)) as [[[]|x] w].
Qed.

(** X25. When [get_ohlcv] answers with a success, the exchange it names is
    the first candidate that did not refuse: the candidates before it
    refused, its request for [max limit 60] candles was answered, and the
    candles of the answer are the rows converted.  The exchange is now the
    primary one. *)
Theorem get_ohlcv_success (pair_ timeframe : string) (limit : Z)
    (p p' : Process) (r : ohlcv) :
  get_ohlcv utcnow pair_ timeframe limit p = (Returns (Ok r), p') ->
  oh_pair r = pair_ /\ oh_timeframe r = timeframe /\
  exists ex_id rows notes later,
    oh_exchange r = Some ex_id /\
    candidates (tools p) = map about notes ++ ex_id :: later /\
    Forall (refusal pair_ timeframe (Z.max limit 60) (tools p) (tools p'))
           notes /\
    served pair_ timeframe (Z.max limit 60) (tools p) (tools p') ex_id rows /\
    candles_of rows = Done (oh_candles r) /\
    grows (tools p) (tools p').
Proof.
  intros Hrun.
  destruct (get_ohlcv_cases pair_ timeframe limit p)
    as (g1 & ns & Hg & Hall & [(Heq & Hm & Hsame)
                              |(rows & e & later & Hm & Hs & Hd)]).
  { rewrite Heq in Hrun. discriminate. }
  rewrite Hrun in Hd.
  destruct Hd as [(x & _ & [=])|[(Hcs & Hd)|(cs & c & q & Hcs & _ & Hd)]].
  - injection Hd as -> ->. split; [done|]. split; [done|].
    by exists e, rows, ns, later.
  - destruct (update_price utcnow pair_ q (ledger p)) as [[[]|x] w];
      [|discriminate].
    injection Hd as -> ->. split; [done|]. split; [done|].
    by exists e, rows, ns, later.
Qed.

(** What a success leaves in the simulator. *)
Lemma get_ohlcv_feed pair_ timeframe limit p p' r :
  get_ohlcv utcnow pair_ timeframe limit p = (Returns (Ok r), p') ->
  match last (oh_candles r) with
  | None => oh_candles r = [] /\ ledger p' = ledger p
  | Some c =>
      exists q,
        PyDict.get "close" c = Some (VFloat q) /\
        update_price utcnow pair_ q (ledger p) = (Return tt, ledger p') /\
        last_prices (sim (ledger p')) !! pair_ = Some q
  end.
Proof.
  intros Hrun.
  destruct (get_ohlcv_cases pair_ timeframe limit p)
    as (g1 & ns & Hg & Hall & [(Heq & Hm & Hsame)
                              |(rows & e & later & Hm & Hs & Hd)]).
  { rewrite Heq in Hrun. discriminate. }
  rewrite Hrun in Hd.
  destruct Hd as [(x & _ & [=])|[(Hcs & Hd)|(cs & c & q & Hcs & Hq & Hd)]].
  - injection Hd as -> ->. by simpl.
  - destruct (update_price utcnow pair_ q (ledger p)) as [[[]|x] w] eqn:Hup;
      [|discriminate].
    injection Hd as -> ->. cbn [oh_candles ledger]. rewrite last_snoc.
    exists q. split; [done|]. split; [done|].
    by eapply update_price_last_price.
Qed.

(** X26. A successful [get_ohlcv] feeds the simulator: with no candle the
    simulator is untouched; otherwise the simulator is the one
    [update_price] leaves for the close of the last candle, which is then
    the last price of the pair. *)
Theorem get_ohlcv_feeds_simulator (pair_ timeframe : string) (limit : Z)
    (p p' : Process) (r : ohlcv) :
  get_ohlcv utcnow pair_ timeframe limit p = (Returns (Ok r), p') ->
  match last (oh_candles r) with
  | None => oh_candles r = [] /\ ledger p' = ledger p
  | Some c =>
      exists q,
        PyDict.get "close" c = Some (VFloat q) /\
        update_price utcnow pair_ q (ledger p) = (Return tt, ledger p') /\
        last_prices (sim (ledger p')) !! pair_ = Some q
  end.
Proof. apply get_ohlcv_feed. Qed.

(** X27. [get_ohlcv] never raises because an exchange failed.  When it
    raises, an exchange has answered and has become the primary one; the
    exception comes from the conversion of a row of the answer, the
    simulator being untouched, or from [update_price] on the close of the
    last candle. *)
Theorem get_ohlcv_raises (pair_ timeframe : string) (limit : Z)
    (p p' : Process) (err : failure) :
  get_ohlcv utcnow pair_ timeframe limit p = (Raises err, p') ->
  exists ex_id rows,
    served pair_ timeframe (Z.max limit 60) (tools p) (tools p') ex_id rows /\
    ((exists e, err = Tools e /\ candles_of rows = Failed e /\
        ledger p' = ledger p)
     \/
     (exists e candles c q,
        err = Simulator e /\
        candles_of rows = Done (candles ++ [c]) /\
        PyDict.get "close" c = Some (VFloat q) /\
        update_price utcnow pair_ q (ledger p) = (Raise e, ledger p'))).
Proof.
  intros Hrun.
  destruct (get_ohlcv_cases pair_ timeframe limit p)
    as (g1 & ns & Hg & Hall & [(Heq & Hm & Hsame)
                              |(rows & e & later & Hm & Hs & Hd)]).
  { rewrite Heq in Hrun. discriminate. }
  rewrite Hrun in Hd. exists e, rows.
  destruct Hd as [(x & Hcs & Hd)|[(_ & [=])|(cs & c & q & Hcs & Hq & Hd)]].
  - injection Hd as -> ->. split; [done|]. left. by exists x.
  - destruct (update_price utcnow pair_ q (ledger p)) as [[[]|x] w] eqn:Hup;
      [discriminate|].
    injection Hd as -> ->. split; [done|]. right. by exists x, cs, c, q.
Qed.

(** The closes of candles made by [get_ohlcv] can always be read back. *)
Lemma closes_of_candles rows : forall candles,
  Forall2 (fun row c => candle_of row = Done c) rows candles ->
  exists closes, closes_of parse_float candles = Done closes.
Proof.
  induction rows as [|row rows IH]; intros candles Hall.
  - apply Forall2_nil_inv_l in Hall as ->. by exists [].
  - apply Forall2_cons_inv_l in Hall as (c & cs & Hc & Hall & ->).
    destruct (IH cs Hall) as (closes & Hcloses).
    destruct (candle_of_close _ _ Hc) as (v & q & _ & _ & Hq & _).
    exists (q :: closes). cbn [closes_of]. unfold subscript.
    rewrite Hq. cbn [mbind attempt_bind to_float]. by rewrite Hcloses.
Qed.

(** What a success leaves in the globals. *)
Lemma get_ohlcv_ok pair_ timeframe limit p p' r :
  get_ohlcv utcnow pair_ timeframe limit p = (Returns (Ok r), p') ->
  exists ex_id rows notes later,
    oh_exchange r = Some ex_id /\
    candidates (tools p) = map about notes ++ ex_id :: later /\
    served pair_ timeframe (Z.max limit 60) (tools p) (tools p') ex_id rows /\
    candles_of rows = Done (oh_candles r).
Proof.
  intros Hrun.
  destruct (get_ohlcv_cases pair_ timeframe limit p)
    as (g1 & ns & Hg & Hall & [(Heq & Hm & Hsame)
                              |(rows & e & later & Hm & Hs & Hd)]).
  { rewrite Heq in Hrun. discriminate. }
  rewrite Hrun in Hd.
  destruct Hd as [(x & _ & [=])|[(Hcs & Hd)|(cs & c & q & Hcs & _ & Hd)]].
  - injection Hd as -> ->. by exists e, rows, ns, later.
  - destruct (update_price utcnow pair_ q (ledger p)) as [[[]|x] w];
      [|discriminate].
    injection Hd as -> ->. by exists e, rows, ns, later.
Qed.

(** X28. The candles of a successful [get_ohlcv] always pass the close
    extraction of [compute_basic_indicators]: called on them it answers
    with an error only for no candle or for fewer than [rsi_period + 1]
    candles, and otherwise with a success whose latest price is the last
    price the simulator now holds for the pair. *)
Theorem get_ohlcv_then_indicators (pair_ timeframe : string) (limit : Z)
    (p p' : Process) (r : ohlcv) (rsi_period : Z) :
  get_ohlcv utcnow pair_ timeframe limit p = (Returns (Ok r), p') ->
  exists closes answer,
    closes_of parse_float (oh_candles r) = Done closes /\
    compute_basic_indicators parse_float (oh_candles r) rsi_period
      (Some pair_) (Some timeframe) = Done answer /\
    match answer with
    | Err EmptyCandles => oh_candles r = []
    | Err (CloseExtractionFailed _) => False
    | Err (NotEnoughCandles got need) =>
        got = Z.of_nat (length (oh_candles r)) /\
        need = (rsi_period + 1)%Z /\ (0 < got < need)%Z
    | Ok ind =>
        (rsi_period + 1 <= Z.of_nat (length (oh_candles r)))%Z /\
        last_prices (sim (ledger p')) !! pair_ = Some (ind_latest_price ind) /\
        simple_rsi closes rsi_period = Done (ind_rsi ind) /\
        ind_candles ind = oh_candles r
    end.
Proof.
  intros Hrun.
  destruct (get_ohlcv_ok _ _ _ _ _ _ Hrun)
    as (e & rows & ns & later & _ & _ & _ & Hcs).
  pose proof (get_ohlcv_feed _ _ _ _ _ _ Hrun) as Hfeed.
  set (candles := oh_candles r) in *.
  destruct (closes_of_candles rows candles (candles_of_rows _ _ Hcs))
    as (closes & Hcloses).
  exists closes. unfold compute_basic_indicators. rewrite Hcloses.
  destruct candles as [|c0 cs] eqn:Hc.
  { eexists. split; [done|]. split; [reflexivity|]. done. }
  rewrite <- Hc in *.
  assert ((length candles =? 0)%nat = false) as ->
    by (rewrite Hc; reflexivity).
  pose proof (closes_of_length parse_float candles closes Hcloses) as Hlen.
  destruct (Z.of_nat (length closes) <? rsi_period + 1)%Z eqn:Hshort.
  { eexists. split; [done|]. split; [reflexivity|]. cbn beta iota.
    rewrite Hlen. split; [done|]. split; [done|].
    rewrite Hc in *. simpl in *. lia. }
  destruct (simple_rsi_cases closes rsi_period)
    as [[Hlt _]|(Hge & rsi & Hrsi & Hlo & Hhi)]; [lia|].
  rewrite Hrsi. cbn [mbind attempt_bind].
  destruct (last candles) as [latest|] eqn:Hlast.
  2:{ apply last_None in Hlast. by rewrite Hc in Hlast. }
  destruct Hfeed as (q & Hq & Hup & Hprice).
  rewrite (item_last candles latest Hlast). cbn [mbind attempt_bind].
  unfold subscript. rewrite Hq. cbn [mbind attempt_bind to_float].
  cbn [mret attempt_ret].
  eexists. split; [done|]. split; [reflexivity|]. simpl.
  split; [lia|]. by split.
Qed.

(** X29. Failover is sticky: when an exchange has served a call, the next
    call asks it first; if it lists the timeframe and answers, the call
    ends with its rows, no other exchange is asked or instantiated, and
    the request counter is the only global that changes. *)
Theorem get_ohlcv_sticky (pair_ timeframe : string) (limit : Z)
    (p p1 : Process) (r : ohlcv) (ex_id : string)
    (pair2 timeframe2 : string) (limit2 : Z) (rows : list (list value)) :
  get_ohlcv utcnow pair_ timeframe limit p = (Returns (Ok r), p1) ->
  oh_exchange r = Some ex_id ->
  supports ex_id timeframe2 ->
  fetch_ohlcv (fetch_calls (tools p1)) ex_id pair2 timeframe2
    (Z.max limit2 60) = Done rows ->
  delivers utcnow pair2 timeframe2 ex_id rows
    (set_fetch_calls (S (fetch_calls (tools p1))) (tools p1)) (ledger p1)
    (get_ohlcv utcnow pair2 timeframe2 limit2 p1).
Proof.
  intros Hrun Hex Hsup Hfetch.
  destruct (get_ohlcv_ok _ _ _ _ _ _ Hrun)
    as (e & rows1 & ns & later & He & _ & Hs & _).
  rewrite Hex in He. injection He as <-.
  destruct Hs as (_ & _ & Hin & Hprimary & Hexchange & _).
  eapply (get_ohlcv_served _ _ _ _ (mkLocals (Some rows) [] (Some ex_id)));
    [|reflexivity..].
  unfold candidates. rewrite Hprimary. cbn [for_until].
  unfold mbind at 1, Run_bind at 1.
  rewrite (try_exchange_answers _ _ _ _ _ _ rows Hin Hsup Hfetch).
  cbn [fst snd]. unfold mret, Run_ret. do 2 f_equal.
  destruct (tools p1). simpl in *. by subst.
Qed.

(** X30. [set_primary_exchange] with an exchange that [ccxt] does not know
    raises, but only after it has replaced the primary identifier: the
    identifier then names no exchange object.  If none is cached for it,
    a later [get_ohlcv] notes the failure first, asks no request of it, and
    either fails, leaving the identifier in place, or is served by an
    exchange of the fallback list, which becomes the primary one. *)
Theorem set_primary_exchange_unsupported (exchange_id : string) (p : Process) :
  lower exchange_id ∉ ccxt_exchanges ->
  let ex_id := lower exchange_id in
  let e := PyValueError ("Exchange id not supported by ccxt: " +:+ ex_id) in
  let p1 := mkProcess (set_primary_exchange_id ex_id (tools p)) (ledger p) in
  set_primary_exchange exchange_id p = (Raises (Tools e), p1) /\
  (ex_id ∉ _exchange_instances (tools p) ->
   (forall pair_ timeframe limit notes p2,
      get_ohlcv utcnow pair_ timeframe limit p1 = (Returns (Err notes), p2) ->
      head notes = Some (Crashed ex_id (Tools e)) /\
      _primary_exchange_id (tools p2) = ex_id /\
      _exchange (tools p2) = _exchange (tools p)) /\
   (forall pair_ timeframe limit r p2,
      get_ohlcv utcnow pair_ timeframe limit p1 = (Returns (Ok r), p2) ->
      exists other,
        oh_exchange r = Some other /\ other <> ex_id /\
        other ∈ _FALLBACK_EXCHANGES (tools p) /\
        _primary_exchange_id (tools p2) = other /\
        _exchange (tools p2) = other)).
Proof.
  intros Hunknown ex_id e p1. split.
  { unfold set_primary_exchange, _instantiate_exchange. unfold_Run.
    cbn [tools ledger _primary_exchange_id set_primary_exchange_id].
    by rewrite (bool_decide_eq_true_2 _ Hunknown). }
  intros Hfresh.
  assert (~ usable (tools p1) ex_id) as Hunusable by (by intros [?|?]).
  assert (candidates (tools p1)
          = ex_id :: filter (fun x => x <> ex_id) (_FALLBACK_EXCHANGES (tools p)))
    as Hcands by reflexivity.
  split.
  - intros pair_ timeframe limit notes p2 Hrun.
    destruct (get_ohlcv_cases pair_ timeframe limit p1)
      as (g1 & ns & Hg & Hall & [(Heq & Hm & Hsame)
                                |(rows & x & later & Hm & Hs & Hd)]).
    + rewrite Heq in Hrun. injection Hrun as <- <-.
      rewrite Hcands in Hm. destruct ns as [|n ns]; [done|].
      injection Hm as Hn _. apply Forall_cons in Hall as [Hr _].
      destruct Hsame as [Hp He]. split; [|by split].
      destruct n as [x tf|x [err|err]]; simpl in Hn, Hr; subst x.
      * by destruct Hr as (_ & Hu & _).
      * destruct Hr as [(_ & ->)|(Hu & _)]; done.
      * done.
    + rewrite Hrun in Hd.
      destruct Hd as [(y & _ & [=])|[(_ & [=])|(cs & c & q & _ & _ & Hd)]].
      by destruct (update_price utcnow pair_ q (ledger p1)) as [[[]|y] w].
  - intros pair_ timeframe limit r p2 Hrun.
    destruct (get_ohlcv_ok _ _ _ _ _ _ Hrun)
      as (other & rows & ns & later & He & Hm & Hs & _).
    exists other. split; [done|].
    destruct Hs as (Hu & _ & _ & Hprimary & Hexchange & _).
    rewrite Hcands in Hm.
    assert (other ∈ filter (fun x => x <> ex_id)
                      (_FALLBACK_EXCHANGES (tools p))) as Hin.
    { destruct ns as [|n ns]; simpl in Hm.
      - injection Hm as <- _. done.
      - injection Hm as _ ->. apply elem_of_app. right. left. }
    apply list_elem_of_filter in Hin as [Hne Hin]. done.
Qed.

End MoreExchanges.

(** ** Sample runs of the market tools *)

Lemma get_ohlcv_error_witness :
  exists notes p',
    get_ohlcv (H := sample_library) clock "DOGE/USDT" "1h" 10 sample_process
    = (Returns (Err notes), p') /\
    map about notes
    = ["binance"; "kraken"; "coinbaseexchange"; "kucoin"; "bitfinex"] /\
    _primary_exchange_id (tools p') = "binance" /\
    ledger p' = long_world.
Proof.
  eexists _, _. split; [vm_compute; reflexivity|].
  pose proof (get_ohlcv_error (H := sample_library) clock "DOGE/USDT" "1h" 10
                sample_process) as Herror.
  specialize (Herror _ _ ltac:(vm_compute; reflexivity)).
  destruct Herror as (Hm & _ & [Hp _] & _ & Hw).
  split; [exact Hm|]. split; [exact Hp|exact Hw].
Defined.

Lemma get_ohlcv_success_witness :
  exists r p' ex_id,
    get_ohlcv (H := sample_library) clock "BTC/USDT" "1h" 10 sample_process
    = (Returns (Ok r), p') /\
    oh_exchange r = Some ex_id /\
    _primary_exchange_id (tools p') = ex_id /\
    ex_id = "kucoin" /\
    candles_of (H := sample_library) sample_rows = Done (oh_candles r).
Proof.
  eexists _, _, _. split; [vm_compute; reflexivity|].
  pose proof (get_ohlcv_success (H := sample_library) clock "BTC/USDT" "1h"
                10 sample_process) as Hsuccess.
  specialize (Hsuccess _ _ ltac:(vm_compute; reflexivity)).
  destruct Hsuccess
    as (_ & _ & ex_id & rows & notes & later & He & _ & _ & Hs & _ & _).
  destruct Hs as (_ & _ & _ & Hp & _).
  vm_compute in He. injection He as <-.
  split; [reflexivity|]. split; [exact Hp|]. split; reflexivity.
Defined.

Lemma get_ohlcv_feeds_simulator_witness :
  exists r p',
    get_ohlcv (H := sample_library) clock "BTC/USDT" "1h" 10 sample_process
    = (Returns (Ok r), p') /\
    last_prices (sim (ledger p')) !! "BTC/USDT" = Some 89 /\
    positions (sim (ledger p')) = [].
Proof.
  eexists _, _. split; [vm_compute; reflexivity|].
  pose proof (get_ohlcv_feeds_simulator (H := sample_library) clock
                "BTC/USDT" "1h" 10 sample_process) as Hfeed.
  specialize (Hfeed _ _ ltac:(vm_compute; reflexivity)).
  cbn [last oh_candles] in Hfeed.
  destruct Hfeed as (q & Hq & _ & Hprice).
  vm_compute in Hq. injection Hq as <-.
  split; [exact Hprice|reflexivity].
Defined.

Lemma get_ohlcv_raises_witness :
  exists p',
    get_ohlcv (H := sample_library) clock "ETH/USDT" "1h" 10 sample_process
    = (Raises (Tools PyTypeError), p') /\
    _primary_exchange_id (tools p') = "kucoin" /\
    ledger p' = long_world.
Proof.
  eexists. split; [vm_compute; reflexivity|].
  pose proof (get_ohlcv_raises (H := sample_library) clock "ETH/USDT" "1h" 10
                sample_process) as Hraises.
  specialize (Hraises _ _ ltac:(vm_compute; reflexivity)).
  destruct Hraises
    as (ex_id & rows & Hs & [(e & _ & _ & Hw)|(e & cs & c & q & [=] & _)]).
  split; [reflexivity|exact Hw].
Defined.

Lemma get_ohlcv_then_indicators_witness :
  exists r p' ind,
    get_ohlcv (H := sample_library) clock "BTC/USDT" "1h" 10 sample_process
    = (Returns (Ok r), p') /\
    compute_basic_indicators (fun _ => None) (oh_candles r) 1
      (Some "BTC/USDT") (Some "1h") = Done (Ok ind) /\
    last_prices (sim (ledger p')) !! "BTC/USDT"
    = Some (ind_latest_price ind) /\
    ind_rsi ind == 0.
Proof.
  eexists _, _, _. split; [vm_compute; reflexivity|].
  pose proof (get_ohlcv_then_indicators (H := sample_library) clock
                "BTC/USDT" "1h" 10 sample_process) as Hthen.
  specialize (Hthen _ _ 1%Z ltac:(vm_compute; reflexivity)).
  destruct Hthen as (closes & answer & _ & Hanswer & Hcases).
  vm_compute in Hanswer. injection Hanswer as <-.
  destruct Hcases as (_ & Hprice & _).
  split; [vm_compute; reflexivity|]. split; [exact Hprice|].
  vm_compute. reflexivity.
Defined.

Lemma get_ohlcv_sticky_witness :
  exists r p1,
    get_ohlcv (H := sample_library) clock "BTC/USDT" "1h" 10 sample_process
    = (Returns (Ok r), p1) /\
    tools (get_ohlcv (H := sample_library) clock "BTC/USDT" "4h" 100 p1).2
    = set_fetch_calls (S (fetch_calls (tools p1))) (tools p1).
Proof.
  eexists _, _. split; [vm_compute; reflexivity|].
  pose proof (get_ohlcv_sticky (H := sample_library) clock "BTC/USDT" "1h" 10
                sample_process) as Hsticky.
  specialize (Hsticky _ _ "kucoin" "BTC/USDT" "4h" 100%Z sample_rows
                ltac:(vm_compute; reflexivity) eq_refl I eq_refl).
  destruct Hsticky as [(e & _ & Hrun)|[(_ & Hrun)|(cs & c & q & _ & _ & Hrun)]];
    rewrite Hrun; [reflexivity|reflexivity|].
  match goal with
  | |- context [update_price ?u ?a ?b ?w] =>
      by destruct (update_price u a b w) as [[[]|?] ?]
  end.
Defined.

Lemma set_primary_exchange_unsupported_witness :
  exists e p1 r p2,
    set_primary_exchange (H := sample_library) "Bitfinex" sample_process
    = (Raises (Tools (PyValueError e)), p1) /\
    _primary_exchange_id (tools p1) = "bitfinex" /\
    _exchange (tools p1) = "binance" /\
    get_ohlcv (H := sample_library) clock "BTC/USDT" "1h" 10 p1
    = (Returns (Ok r), p2) /\
    _primary_exchange_id (tools p2) = "kucoin" /\
    _exchange (tools p2) = "kucoin".
Proof.
  assert (lower "Bitfinex" ∉ ccxt_exchanges (Library := sample_library))
    as Hunknown by (apply (bool_decide_unpack _); vm_compute; exact I).
  assert (lower "Bitfinex" ∉ _exchange_instances (tools sample_process))
    as Hfresh by (apply (bool_decide_unpack _); vm_compute; exact I).
  destruct (set_primary_exchange_unsupported (H := sample_library) clock
              "Bitfinex" sample_process Hunknown) as (Hraise & Hlater).
  destruct (Hlater Hfresh) as (_ & Hok).
  eexists _, _, _, _. split; [exact Hraise|].
  split; [reflexivity|]. split; [reflexivity|].
  split; [vm_compute; reflexivity|].
  specialize (Hok "BTC/USDT" "1h" 10%Z _ _ ltac:(vm_compute; reflexivity)).
  destruct Hok as (other & He & _ & _ & Hp & Hx).
  vm_compute in He. injection He as <-. by split.
Defined.
